(** * The snapshot builder of the Power Query lexer

    A shallow embedding of [src/lexer/lexerSnapshot.ts]: the flattening of the
    line tokens of a lexer state, the stitching of multi-line fragments into
    whole tokens and comments, the [Result] envelope of [LexerSnapshot.tryFrom]
    and the computation of grapheme positions, followed by the properties the
    specification states about them.  A second part embeds the type
    checks of [src/powerquery-parser/language/type/typeUtils/typeCheck.ts],
    whose imports are left open.

    Conventions of the embedding.
    - A JavaScript string is a [string]; one character of the model stands for
      one UTF-16 code unit, so [String.length] is the [length] property.  The
      code only measures, concatenates and slices strings.
    - A JavaScript number that indexes or measures is a [nat].
    - An exception is a value of [Thrown]; a function that may throw returns a
      [Completion].
    - The [while] loop of [LexerSnapshot.factory] assigns its counter from a
      field of a token, so it is written with fuel; [factory_loop_stitch] shows
      that the fuel [tryFrom] supplies always suffices. *)

From Stdlib Require Import String Ascii List Arith Bool Lia Sorted.
Import ListNotations.

(** ** JavaScript strings *)

Module Js.

(** [s.substring(a, b)]: both indices are clamped to the length of [s] and
    swapped when [a > b]. *)
Definition substring (s : string) (a b : nat) : string :=
  let a' := Nat.min a (String.length s) in
  let b' := Nat.min b (String.length s) in
  String.substring (Nat.min a' b') (Nat.max a' b' - Nat.min a' b') s.

End Js.

(** ** Token kinds *)

Module TokenKind.

(** Modelled from the spec: [TokenKind] is declared in token.ts, which is not
    among the sources.  Section 3 and 4.B of the specification list its members:
    identifiers, literals, the keyword table and the operators; the multi-line
    fragment kinds and the comment kinds are absent from it. *)
Inductive t : Set :=
  | Ampersand | Asterisk | AtSign | Comma
  | Division | DotDot | Ellipsis | Equal
  | FatArrow | GreaterThan | GreaterThanEqualTo | HexLiteral
  | Identifier | KeywordAnd | KeywordAs | KeywordEach
  | KeywordElse | KeywordError | KeywordFalse | KeywordHashBinary
  | KeywordHashDate | KeywordHashDateTime | KeywordHashDateTimeZone | KeywordHashDuration
  | KeywordHashInfinity | KeywordHashNan | KeywordHashSections | KeywordHashShared
  | KeywordHashTable | KeywordHashTime | KeywordIf | KeywordIn
  | KeywordIs | KeywordLet | KeywordMeta | KeywordNot
  | KeywordOr | KeywordOtherwise | KeywordSection | KeywordShared
  | KeywordThen | KeywordTrue | KeywordTry | KeywordType
  | LeftBrace | LeftBracket | LeftParenthesis | LessThan
  | LessThanEqualTo | Minus | NotEqual | NullLiteral
  | NumericLiteral | Plus | QuestionMark | RightBrace
  | RightBracket | RightParenthesis | Semicolon | StringLiteral.

(** The value the enumeration member has at run time (a string enum). *)
Definition value (k : t) : string :=
  match k with
  | Ampersand => "Ampersand"
  | Asterisk => "Asterisk"
  | AtSign => "AtSign"
  | Comma => "Comma"
  | Division => "Division"
  | DotDot => "DotDot"
  | Ellipsis => "Ellipsis"
  | Equal => "Equal"
  | FatArrow => "FatArrow"
  | GreaterThan => "GreaterThan"
  | GreaterThanEqualTo => "GreaterThanEqualTo"
  | HexLiteral => "HexLiteral"
  | Identifier => "Identifier"
  | KeywordAnd => "KeywordAnd"
  | KeywordAs => "KeywordAs"
  | KeywordEach => "KeywordEach"
  | KeywordElse => "KeywordElse"
  | KeywordError => "KeywordError"
  | KeywordFalse => "KeywordFalse"
  | KeywordHashBinary => "KeywordHashBinary"
  | KeywordHashDate => "KeywordHashDate"
  | KeywordHashDateTime => "KeywordHashDateTime"
  | KeywordHashDateTimeZone => "KeywordHashDateTimeZone"
  | KeywordHashDuration => "KeywordHashDuration"
  | KeywordHashInfinity => "KeywordHashInfinity"
  | KeywordHashNan => "KeywordHashNan"
  | KeywordHashSections => "KeywordHashSections"
  | KeywordHashShared => "KeywordHashShared"
  | KeywordHashTable => "KeywordHashTable"
  | KeywordHashTime => "KeywordHashTime"
  | KeywordIf => "KeywordIf"
  | KeywordIn => "KeywordIn"
  | KeywordIs => "KeywordIs"
  | KeywordLet => "KeywordLet"
  | KeywordMeta => "KeywordMeta"
  | KeywordNot => "KeywordNot"
  | KeywordOr => "KeywordOr"
  | KeywordOtherwise => "KeywordOtherwise"
  | KeywordSection => "KeywordSection"
  | KeywordShared => "KeywordShared"
  | KeywordThen => "KeywordThen"
  | KeywordTrue => "KeywordTrue"
  | KeywordTry => "KeywordTry"
  | KeywordType => "KeywordType"
  | LeftBrace => "LeftBrace"
  | LeftBracket => "LeftBracket"
  | LeftParenthesis => "LeftParenthesis"
  | LessThan => "LessThan"
  | LessThanEqualTo => "LessThanEqualTo"
  | Minus => "Minus"
  | NotEqual => "NotEqual"
  | NullLiteral => "NullLiteral"
  | NumericLiteral => "NumericLiteral"
  | Plus => "Plus"
  | QuestionMark => "QuestionMark"
  | RightBrace => "RightBrace"
  | RightBracket => "RightBracket"
  | RightParenthesis => "RightParenthesis"
  | Semicolon => "Semicolon"
  | StringLiteral => "StringLiteral"
  end.

Definition all : list t :=
  [ Ampersand; Asterisk; AtSign; Comma;
    Division; DotDot; Ellipsis; Equal;
    FatArrow; GreaterThan; GreaterThanEqualTo; HexLiteral;
    Identifier; KeywordAnd; KeywordAs; KeywordEach;
    KeywordElse; KeywordError; KeywordFalse; KeywordHashBinary;
    KeywordHashDate; KeywordHashDateTime; KeywordHashDateTimeZone; KeywordHashDuration;
    KeywordHashInfinity; KeywordHashNan; KeywordHashSections; KeywordHashShared;
    KeywordHashTable; KeywordHashTime; KeywordIf; KeywordIn;
    KeywordIs; KeywordLet; KeywordMeta; KeywordNot;
    KeywordOr; KeywordOtherwise; KeywordSection; KeywordShared;
    KeywordThen; KeywordTrue; KeywordTry; KeywordType;
    LeftBrace; LeftBracket; LeftParenthesis; LessThan;
    LessThanEqualTo; Minus; NotEqual; NullLiteral;
    NumericLiteral; Plus; QuestionMark; RightBrace;
    RightBracket; RightParenthesis; Semicolon; StringLiteral ].

End TokenKind.

Module LineTokenKind.

(** Modelled from the spec: [LineTokenKind] (token.ts) has every single-line kind
    of [TokenKind] under the same name, the two comment kinds, and a
    Start / Content / End triple for each of the three multi-line constructs.
    The names of the fragment kinds are the ones lexerSnapshot.ts uses
    ([StringLiteral...] is what the specification calls TextLiteral). *)
Inductive t : Set :=
  | Ampersand | Asterisk | AtSign | Comma
  | Division | DotDot | Ellipsis | Equal
  | FatArrow | GreaterThan | GreaterThanEqualTo | HexLiteral
  | Identifier | KeywordAnd | KeywordAs | KeywordEach
  | KeywordElse | KeywordError | KeywordFalse | KeywordHashBinary
  | KeywordHashDate | KeywordHashDateTime | KeywordHashDateTimeZone | KeywordHashDuration
  | KeywordHashInfinity | KeywordHashNan | KeywordHashSections | KeywordHashShared
  | KeywordHashTable | KeywordHashTime | KeywordIf | KeywordIn
  | KeywordIs | KeywordLet | KeywordMeta | KeywordNot
  | KeywordOr | KeywordOtherwise | KeywordSection | KeywordShared
  | KeywordThen | KeywordTrue | KeywordTry | KeywordType
  | LeftBrace | LeftBracket | LeftParenthesis | LessThan
  | LessThanEqualTo | LineComment | Minus | MultilineComment
  | MultilineCommentContent | MultilineCommentEnd | MultilineCommentStart | NotEqual
  | NullLiteral | NumericLiteral | Plus | QuestionMark
  | QuotedIdentifierContent | QuotedIdentifierEnd | QuotedIdentifierStart | RightBrace
  | RightBracket | RightParenthesis | Semicolon | StringLiteral
  | StringLiteralContent | StringLiteralEnd | StringLiteralStart.

(** The value the enumeration member has at run time (a string enum). *)
Definition value (k : t) : string :=
  match k with
  | Ampersand => "Ampersand"
  | Asterisk => "Asterisk"
  | AtSign => "AtSign"
  | Comma => "Comma"
  | Division => "Division"
  | DotDot => "DotDot"
  | Ellipsis => "Ellipsis"
  | Equal => "Equal"
  | FatArrow => "FatArrow"
  | GreaterThan => "GreaterThan"
  | GreaterThanEqualTo => "GreaterThanEqualTo"
  | HexLiteral => "HexLiteral"
  | Identifier => "Identifier"
  | KeywordAnd => "KeywordAnd"
  | KeywordAs => "KeywordAs"
  | KeywordEach => "KeywordEach"
  | KeywordElse => "KeywordElse"
  | KeywordError => "KeywordError"
  | KeywordFalse => "KeywordFalse"
  | KeywordHashBinary => "KeywordHashBinary"
  | KeywordHashDate => "KeywordHashDate"
  | KeywordHashDateTime => "KeywordHashDateTime"
  | KeywordHashDateTimeZone => "KeywordHashDateTimeZone"
  | KeywordHashDuration => "KeywordHashDuration"
  | KeywordHashInfinity => "KeywordHashInfinity"
  | KeywordHashNan => "KeywordHashNan"
  | KeywordHashSections => "KeywordHashSections"
  | KeywordHashShared => "KeywordHashShared"
  | KeywordHashTable => "KeywordHashTable"
  | KeywordHashTime => "KeywordHashTime"
  | KeywordIf => "KeywordIf"
  | KeywordIn => "KeywordIn"
  | KeywordIs => "KeywordIs"
  | KeywordLet => "KeywordLet"
  | KeywordMeta => "KeywordMeta"
  | KeywordNot => "KeywordNot"
  | KeywordOr => "KeywordOr"
  | KeywordOtherwise => "KeywordOtherwise"
  | KeywordSection => "KeywordSection"
  | KeywordShared => "KeywordShared"
  | KeywordThen => "KeywordThen"
  | KeywordTrue => "KeywordTrue"
  | KeywordTry => "KeywordTry"
  | KeywordType => "KeywordType"
  | LeftBrace => "LeftBrace"
  | LeftBracket => "LeftBracket"
  | LeftParenthesis => "LeftParenthesis"
  | LessThan => "LessThan"
  | LessThanEqualTo => "LessThanEqualTo"
  | LineComment => "LineComment"
  | Minus => "Minus"
  | MultilineComment => "MultilineComment"
  | MultilineCommentContent => "MultilineCommentContent"
  | MultilineCommentEnd => "MultilineCommentEnd"
  | MultilineCommentStart => "MultilineCommentStart"
  | NotEqual => "NotEqual"
  | NullLiteral => "NullLiteral"
  | NumericLiteral => "NumericLiteral"
  | Plus => "Plus"
  | QuestionMark => "QuestionMark"
  | QuotedIdentifierContent => "QuotedIdentifierContent"
  | QuotedIdentifierEnd => "QuotedIdentifierEnd"
  | QuotedIdentifierStart => "QuotedIdentifierStart"
  | RightBrace => "RightBrace"
  | RightBracket => "RightBracket"
  | RightParenthesis => "RightParenthesis"
  | Semicolon => "Semicolon"
  | StringLiteral => "StringLiteral"
  | StringLiteralContent => "StringLiteralContent"
  | StringLiteralEnd => "StringLiteralEnd"
  | StringLiteralStart => "StringLiteralStart"
  end.

Definition all : list t :=
  [ Ampersand; Asterisk; AtSign; Comma;
    Division; DotDot; Ellipsis; Equal;
    FatArrow; GreaterThan; GreaterThanEqualTo; HexLiteral;
    Identifier; KeywordAnd; KeywordAs; KeywordEach;
    KeywordElse; KeywordError; KeywordFalse; KeywordHashBinary;
    KeywordHashDate; KeywordHashDateTime; KeywordHashDateTimeZone; KeywordHashDuration;
    KeywordHashInfinity; KeywordHashNan; KeywordHashSections; KeywordHashShared;
    KeywordHashTable; KeywordHashTime; KeywordIf; KeywordIn;
    KeywordIs; KeywordLet; KeywordMeta; KeywordNot;
    KeywordOr; KeywordOtherwise; KeywordSection; KeywordShared;
    KeywordThen; KeywordTrue; KeywordTry; KeywordType;
    LeftBrace; LeftBracket; LeftParenthesis; LessThan;
    LessThanEqualTo; LineComment; Minus; MultilineComment;
    MultilineCommentContent; MultilineCommentEnd; MultilineCommentStart; NotEqual;
    NullLiteral; NumericLiteral; Plus; QuestionMark;
    QuotedIdentifierContent; QuotedIdentifierEnd; QuotedIdentifierStart; RightBrace;
    RightBracket; RightParenthesis; Semicolon; StringLiteral;
    StringLiteralContent; StringLiteralEnd; StringLiteralStart ].

(** [a === b] on two members compares their run-time values. *)
Definition eqb (a b : t) : bool := String.eqb (value a) (value b).

Definition ofValue (v : string) : option t :=
  find (fun k => String.eqb (value k) v) all.

End LineTokenKind.

(** [UnterminatedMultilineTokenKind] (lexer/error.ts), with the three members
    lexerSnapshot.ts uses: the multi-line constructs whose fragments the
    snapshot stitches. *)
Module UnterminatedMultilineTokenKind.
Inductive t : Set := MultilineComment | QuotedIdentifier | String.
End UnterminatedMultilineTokenKind.

(** ** Data model *)

(** [TokenPosition] (token.ts): absolute code unit, code unit within the line,
    zero-based line number. *)
Module TokenPosition.
Record t : Set := make {
  codeUnit : nat;
  lineCodeUnit : nat;
  lineNumber : nat
}.
End TokenPosition.

(** A line token: [IToken<LineTokenKind, number>], positions relative to the
    line. *)
Module LineToken.
Record t : Set := make {
  kind : LineTokenKind.t;
  data : string;
  positionStart : nat;
  positionEnd : nat
}.
End LineToken.

(** [FlatLineToken]: a line token with absolute positions and its index in the
    flat array. *)
Module FlatLineToken.
Record t : Set := make {
  kind : LineTokenKind.t;
  data : string;
  positionStart : TokenPosition.t;
  positionEnd : TokenPosition.t;
  flatIndex : nat
}.
End FlatLineToken.

(** [Token].  Its [kind] is declared a [TokenKind], but [factory] fills it by
    an unchecked cast of a [LineTokenKind]; the field therefore holds the
    run-time value of the enumeration member, and [Token.validKind] says that
    this value belongs to [TokenKind]. *)
Module Token.
Record t : Set := make {
  kind : string;
  data : string;
  positionStart : TokenPosition.t;
  positionEnd : TokenPosition.t
}.

Definition validKind (tok : t) : bool :=
  existsb (fun k => String.eqb (TokenKind.value k) (kind tok)) TokenKind.all.
End Token.

Module CommentKind.
Inductive t : Set := Line | Multiline.
End CommentKind.

(** [TComment = LineComment | MultilineComment] (comment.ts). *)
Module Comment.
Record t : Set := make {
  kind : CommentKind.t;
  data : string;
  containsNewline : bool;
  positionStart : TokenPosition.t;
  positionEnd : TokenPosition.t
}.
End Comment.

Module LineTerminator.
Record t : Set := make {
  codeUnit : nat;
  text : string
}.
End LineTerminator.

(** Modelled from the spec: the status of a line (lexer.ts, not among the
    sources), section 3 and 4.C. *)
Module LineKind.
Inductive t : Set := Error | Touched | TouchedWithError | Untouched.
End LineKind.

(** Modelled from the spec: the lex mode carried across line boundaries
    (lexer.ts), section 3. *)
Module LexMode.
Inductive t : Set := Default | Comment | Text | QuotedIdentifier.
End LexMode.

(** Modelled from the spec: a line of a lexer state (lexer.ts), section 3.
    [flattenLineTokens] reads its text, its terminator and its tokens. *)
Module TLine.
Record t : Set := make {
  kind : LineKind.t;
  text : string;
  lineTerminator : string;
  tokens : list LineToken.t;
  modeStart : LexMode.t;
  modeEnd : LexMode.t
}.

Definition hasErrorStatus (line : t) : bool :=
  match kind line with
  | LineKind.Error | LineKind.TouchedWithError => true
  | LineKind.Touched | LineKind.Untouched => false
  end.
End TLine.

(** [Lexer.State]: the lines. *)
Module State.
Record t : Set := make { lines : list TLine.t }.
End State.

Module FlattenedLines.
Record t : Set := make {
  text : string;
  lineTerminators : list LineTerminator.t;
  flatLineTokens : list FlatLineToken.t
}.
End FlattenedLines.

Module LexerSnapshot.
Record t : Set := make {
  text : string;
  tokens : list Token.t;
  comments : list Comment.t;
  lineTerminators : list LineTerminator.t
}.
End LexerSnapshot.

(** ** Flattening *)

(** The variables [flattenLineTokens] updates in its loop over the lines. *)
Module FlattenLoop.
Record t : Set := make {
  text : string;
  lineTerminators : list LineTerminator.t;
  flatLineTokens : list FlatLineToken.t;
  lineTextOffset : nat;
  flatIndex : nat
}.
End FlattenLoop.

(** Body of the inner loop [for (const lineToken of line.tokens)]: one push
    and [flatIndex += 1]. *)
Definition pushLineToken (lineTextOffset lineNumber : nat)
    (acc : list FlatLineToken.t * nat) (lineToken : LineToken.t)
    : list FlatLineToken.t * nat :=
  let linePositionStart := LineToken.positionStart lineToken in
  let linePositionEnd := LineToken.positionEnd lineToken in
  (fst acc ++
     [ FlatLineToken.make (LineToken.kind lineToken) (LineToken.data lineToken)
         (TokenPosition.make (lineTextOffset + linePositionStart) linePositionStart lineNumber)
         (TokenPosition.make (lineTextOffset + linePositionEnd) linePositionEnd lineNumber)
         (snd acc) ],
   snd acc + 1).

(** Body of the outer loop for the line at index [lineNumber]. *)
Definition flattenLine (numLines lineNumber : nat) (acc : FlattenLoop.t)
    (line : TLine.t) : FlattenLoop.t :=
  let text1 := String.append (FlattenLoop.text acc) (TLine.text line) in
  let text2 :=
    if negb (lineNumber =? numLines - 1)
    then String.append text1 (TLine.lineTerminator line)
    else text1 in
  let pushed :=
    fold_left (pushLineToken (FlattenLoop.lineTextOffset acc) lineNumber)
      (TLine.tokens line)
      (FlattenLoop.flatLineTokens acc, FlattenLoop.flatIndex acc) in
  let lineTerminatorCodeUnit :=
    FlattenLoop.lineTextOffset acc + String.length (TLine.text line) in
  FlattenLoop.make text2
    (FlattenLoop.lineTerminators acc ++
       [ LineTerminator.make lineTerminatorCodeUnit (TLine.lineTerminator line) ])
    (fst pushed)
    (lineTerminatorCodeUnit + String.length (TLine.lineTerminator line))
    (snd pushed).

(** [for (let lineNumber = 0; lineNumber < numLines; lineNumber += 1)], run on
    the lines from index [lineNumber] on. *)
Fixpoint flattenLines (numLines lineNumber : nat) (lines : list TLine.t)
    (acc : FlattenLoop.t) : FlattenLoop.t :=
  match lines with
  | [] => acc
  | line :: rest =>
      flattenLines numLines (S lineNumber) rest (flattenLine numLines lineNumber acc line)
  end.

Definition flattenLineTokens (state : State.t) : FlattenedLines.t :=
  let lines := State.lines state in
  let numLines := List.length lines in
  let final :=
    flattenLines numLines 0 lines (FlattenLoop.make EmptyString [] [] 0 0) in
  FlattenedLines.make (FlattenLoop.text final) (FlattenLoop.lineTerminators final)
    (FlattenLoop.flatLineTokens final).

(** ** Errors and results *)

(** Modelled from the spec: a grapheme position (common/stringHelpers.ts, not
    among the sources) has the line number, the code unit within the line and
    a column counted in grapheme clusters; the caller's fourth argument, an
    absolute code unit, is kept with it. *)
Module GraphemePosition.
Record t : Set := make {
  lineCodeUnit : nat;
  lineNumber : nat;
  columnNumber : nat;
  maybeCodeUnit : option nat
}.
End GraphemePosition.

(** Modelled from the spec: the error classes of lexer/error.ts and
    common/error.ts, which are not among the sources, after the closed set of
    section 4.E.  A [TLexerError] wraps either an inner lexer error or an inner
    common error. *)
Inductive TInnerLexerError : Set :=
  | UnexpectedEofError (graphemePosition : GraphemePosition.t)
  | UnexpectedReadError (graphemePosition : GraphemePosition.t)
  | ExpectedError (graphemePosition : GraphemePosition.t)
  | UnterminatedMultilineTokenError (graphemePosition : GraphemePosition.t)
      (kind : UnterminatedMultilineTokenKind.t).

Inductive TInnerCommonError : Set :=
  | InvariantError (message : string) (foundTokenEnd : FlatLineToken.t)
  | UnknownError (innerError : string).

Inductive TLexerError : Set :=
  | LexerError (innerError : TInnerLexerError)
  | CommonError (innerError : TInnerCommonError).

(** What a [throw] can carry to the [catch] of [tryFrom]. *)
Inductive Thrown : Set :=
  | ThrownInnerLexerError (e : TInnerLexerError)
  | ThrownInnerCommonError (e : TInnerCommonError)
  | ThrownOther (e : string).

Inductive Completion (A : Type) : Type :=
  | Normal (value : A)
  | Throw (e : Thrown).

Arguments Normal {A} value.
Arguments Throw {A} e.

Inductive Result (T E : Type) : Type :=
  | Ok (value : T)
  | Err (error : E).

Arguments Ok {T E} value.
Arguments Err {T E} error.

Definition TriedLexerSnapshot : Type := Result LexerSnapshot.t TLexerError.

(** Modelled from the spec: [CommonError.ensureCommonError] (common/error.ts)
    returns a [CommonError] for whatever was thrown: an inner common error is
    wrapped as it is, anything else as an unknown error. *)
Definition ensureCommonError (e : Thrown) : TLexerError :=
  match e with
  | ThrownInnerCommonError inner => CommonError inner
  | ThrownInnerLexerError _ => CommonError (UnknownError "TInnerLexerError")
  | ThrownOther message => CommonError (UnknownError message)
  end.

Definition invariantMessage : string :=
  "once a multiline token starts it should either reach a paired end token, or eof".

(** ** Records of the stitching functions *)

Module ConcatenatedCommentRead.
Record t : Set := make { comment : Comment.t; flatIndexEnd : nat }.
End ConcatenatedCommentRead.

Module ConcatenatedTokenRead.
Record t : Set := make { token : Token.t; flatIndexEnd : nat }.
End ConcatenatedTokenRead.

Module FlatLineCollection.
Record t : Set := make {
  tokenStart : FlatLineToken.t;
  collectedTokens : list FlatLineToken.t;
  maybeTokenEnd : option FlatLineToken.t
}.
End FlatLineCollection.

(** The argument of [graphemePositionStartFrom] is a [Token | FlatLineToken];
    the function reads its two positions. *)
Inductive TokenOrFlatLineToken : Set :=
  | OfToken (token : Token.t)
  | OfFlatLineToken (flatLineToken : FlatLineToken.t).

Definition positionStartOf (t : TokenOrFlatLineToken) : TokenPosition.t :=
  match t with
  | OfToken token => Token.positionStart token
  | OfFlatLineToken flat => FlatLineToken.positionStart flat
  end.

Definition positionEndOf (t : TokenOrFlatLineToken) : TokenPosition.t :=
  match t with
  | OfToken token => Token.positionEnd token
  | OfFlatLineToken flat => FlatLineToken.positionEnd flat
  end.

(** * The type checks (language/type/typeUtils/typeCheck.ts) *)

(** A [Map] with string keys, as the list of its entries in insertion order.
    The keys of a [Map] are distinct; [get] reads the first entry of a key. *)
Module JsMap.

Definition t (V : Type) : Type := list (string * V).

Fixpoint get {V : Type} (map : t V) (key : string) : option V :=
  match map with
  | [] => None
  | (k, value) :: rest => if String.eqb k key then Some value else get rest key
  end.

Definition has {V : Type} (map : t V) (key : string) : bool :=
  match get map key with
  | Some _ => true
  | None => false
  end.

Definition keys {V : Type} (map : t V) : list string := List.map fst map.

Definition entries {V : Type} (map : t V) : list (string * V) := map.

End JsMap.

Module Mismatch.
Record t (Key Actual Expected : Type) : Type := make {
  key : Key;
  expected : Expected;
  actual : Actual
}.
Arguments make {Key Actual Expected} key expected actual.
Arguments key {Key Actual Expected} _.
Arguments expected {Key Actual Expected} _.
Arguments actual {Key Actual Expected} _.
End Mismatch.

Module IChecked.
Record t (Key Actual Expected : Type) : Type := make {
  valid : list Key;
  invalid : list (Mismatch.t Key Actual Expected);
  extraneous : list Key;
  missing : list Key
}.
Arguments make {Key Actual Expected} valid invalid extraneous missing.
Arguments valid {Key Actual Expected} _.
Arguments invalid {Key Actual Expected} _.
Arguments extraneous {Key Actual Expected} _.
Arguments missing {Key Actual Expected} _.
End IChecked.

(** [CheckedDefinedFunction]: the fields of [IChecked] and the flag. *)
Module CheckedDefinedFunction.
Record t (FunctionParameter : Type) : Type := make {
  checked : IChecked.t nat FunctionParameter FunctionParameter;
  isReturnTypeCompatible : bool
}.
Arguments make {FunctionParameter} checked isReturnTypeCompatible.
Arguments checked {FunctionParameter} _.
Arguments isReturnTypeCompatible {FunctionParameter} _.
End CheckedDefinedFunction.

(** The types of [Type] are not among the sources; each one is the record of
    the fields the checks read. *)
Module FunctionSignature.
Record t (FunctionParameter : Type) : Type := make {
  parameters : list FunctionParameter
}.
Arguments make {FunctionParameter} parameters.
Arguments parameters {FunctionParameter} _.
End FunctionSignature.

(** [Type.DefinedFunction] and [Type.FunctionType]: a signature with a return
    type. *)
Module FunctionType.
Record t (PowerQueryType FunctionParameter : Type) : Type := make {
  parameters : list FunctionParameter;
  returnType : PowerQueryType
}.
Arguments make {PowerQueryType FunctionParameter} parameters returnType.
Arguments parameters {PowerQueryType FunctionParameter} _.
Arguments returnType {PowerQueryType FunctionParameter} _.

(** A function type used where a [Type.FunctionSignature] is expected. *)
Definition signature {PowerQueryType FunctionParameter : Type}
    (functionType : t PowerQueryType FunctionParameter)
    : FunctionSignature.t FunctionParameter :=
  FunctionSignature.make (parameters functionType).
End FunctionType.

Module DefinedList.
Record t (PowerQueryType : Type) : Type := make { elements : list PowerQueryType }.
Arguments make {PowerQueryType} elements.
Arguments elements {PowerQueryType} _.
End DefinedList.

Module DefinedListType.
Record t (PowerQueryType : Type) : Type := make { itemTypes : list PowerQueryType }.
Arguments make {PowerQueryType} itemTypes.
Arguments itemTypes {PowerQueryType} _.
End DefinedListType.

(** [Type.DefinedRecord] and [Type.DefinedTable]. *)
Module DefinedFields.
Record t (PowerQueryType : Type) : Type := make { fields : JsMap.t PowerQueryType }.
Arguments make {PowerQueryType} fields.
Arguments fields {PowerQueryType} _.
End DefinedFields.

(** [Type.RecordType] and [Type.TableType]. *)
Module FieldsType.
Record t (PowerQueryType : Type) : Type := make {
  fields : JsMap.t PowerQueryType;
  isOpen : bool
}.
Arguments make {PowerQueryType} fields isOpen.
Arguments fields {PowerQueryType} _.
Arguments isOpen {PowerQueryType} _.
End FieldsType.

(** What an [if] makes of a [boolean | undefined]. *)
Definition truthy (answer : option bool) : bool :=
  match answer with
  | Some true => true
  | _ => false
  end.

Section TypeCheck.

(** The types and the functions the checks import, none of them among the
    sources, are left open: [isCompatible] and [isEqualFunctionParameter]
    answer [boolean | undefined], as the parameter [valueCmpFn] is declared;
    of [isCompatibleWithFunctionParameter] the [if] reads the truthiness
    only; [range] is [ArrayUtils.range(size, startAt)].  A [Type.ListType] is
    a [Type.PowerQueryType] that has an [itemType]. *)
Variable PowerQueryType : Type.
Variable FunctionParameter : Type.
Variable ListType : Type.
Variable itemType : ListType -> PowerQueryType.
Variable asPowerQueryType : ListType -> PowerQueryType.
Variable isCompatible : PowerQueryType -> PowerQueryType -> option bool.
Variable isCompatibleWithFunctionParameter : option PowerQueryType -> FunctionParameter -> bool.
Variable isEqualFunctionParameter : FunctionParameter -> FunctionParameter -> option bool.
Variable range : nat -> nat -> list nat.

(** The [for (index = 0; index < upperBound; index += 1)] loop of
    [typeCheckGenericNumber], on the elements and the item types from [index]
    on: [upperBound] is the smaller of the two lengths, so the loop ends where
    either array does. *)
Fixpoint typeCheckGenericNumber_loop {Value Schema : Type}
    (valueCmpFn : Value -> Schema -> option bool) (index : nat)
    (valueElements : list Value) (schemaItemTypes : list Schema)
    (validIndices : list nat) (mismatches : list (Mismatch.t nat Value Schema))
    : list nat * list (Mismatch.t nat Value Schema) :=
  match valueElements, schemaItemTypes with
  | element :: elements, schemaItemType :: rest =>
      if truthy (valueCmpFn element schemaItemType)
      then typeCheckGenericNumber_loop valueCmpFn (S index) elements rest
             (validIndices ++ [index]) mismatches
      else typeCheckGenericNumber_loop valueCmpFn (S index) elements rest
             validIndices (mismatches ++ [Mismatch.make index schemaItemType element])
  | _, _ => (validIndices, mismatches)
  end.

Definition typeCheckGenericNumber {Value Schema : Type}
    (valueElements : list Value) (schemaItemTypes : list Schema)
    (valueCmpFn : Value -> Schema -> option bool) : IChecked.t nat Value Schema :=
  let numElements := List.length valueElements in
  let numItemTypes := List.length schemaItemTypes in
  let extraneousIndices :=
    if numItemTypes <? numElements then range (numElements - numItemTypes) numItemTypes else [] in
  let missingIndices :=
    if numItemTypes <? numElements then [] else range (numItemTypes - numElements) numElements in
  let looped :=
    typeCheckGenericNumber_loop valueCmpFn 0 valueElements schemaItemTypes [] [] in
  IChecked.make (fst looped) (snd looped) extraneousIndices missingIndices.

Definition typeCheckFunctionSignature
    (valueType schemaType : FunctionSignature.t FunctionParameter)
    : IChecked.t nat FunctionParameter FunctionParameter :=
  typeCheckGenericNumber (FunctionSignature.parameters valueType)
    (FunctionSignature.parameters schemaType)
    (fun left right => isEqualFunctionParameter left right).

Definition typeCheckFunction
    (valueType schemaType : FunctionType.t PowerQueryType FunctionParameter)
    : CheckedDefinedFunction.t FunctionParameter :=
  CheckedDefinedFunction.make
    (typeCheckFunctionSignature (FunctionType.signature valueType)
       (FunctionType.signature schemaType))
    (truthy (isCompatible (FunctionType.returnType valueType)
               (FunctionType.returnType schemaType))).

(** The loop of [typeCheckInvocation] on the parameters from [index] on;
    [args] are the arguments from [index] on, so [args[index]] is their head,
    [undefined] when there is none. *)
Fixpoint typeCheckInvocation_loop (index : nat) (args : list PowerQueryType)
    (parameters : list FunctionParameter)
    (validArgs : list nat)
    (invalidArgs : list (Mismatch.t nat (option PowerQueryType) FunctionParameter))
    (missingArgs : list nat)
    : list nat * list (Mismatch.t nat (option PowerQueryType) FunctionParameter) * list nat :=
  match parameters with
  | [] => (validArgs, invalidArgs, missingArgs)
  | parameter :: rest =>
      let maybeArg := hd_error args in
      if isCompatibleWithFunctionParameter maybeArg parameter
      then typeCheckInvocation_loop (S index) (tl args) rest
             (validArgs ++ [index]) invalidArgs missingArgs
      else match maybeArg with
           | Some _ =>
               typeCheckInvocation_loop (S index) (tl args) rest validArgs
                 (invalidArgs ++ [Mismatch.make index parameter maybeArg]) missingArgs
           | None =>
               typeCheckInvocation_loop (S index) (tl args) rest validArgs invalidArgs
                 (missingArgs ++ [index])
           end
  end.

Definition typeCheckInvocation (args : list PowerQueryType)
    (definedFunction : FunctionType.t PowerQueryType FunctionParameter)
    : IChecked.t nat (option PowerQueryType) FunctionParameter :=
  let parameters := FunctionType.parameters definedFunction in
  let numArgs := List.length args in
  let numParameters := List.length parameters in
  let extraneousArgs :=
    if numParameters <? numArgs then range (numArgs - numParameters) numParameters else [] in
  let looped := typeCheckInvocation_loop 0 args parameters [] [] [] in
  IChecked.make (fst (fst looped)) (snd (fst looped)) extraneousArgs (snd looped).

(** The loop of [typeCheckListWithListType] on the elements from [index] on. *)
Fixpoint typeCheckListWithListType_loop (schemaType : ListType) (index : nat)
    (valueElements : list PowerQueryType)
    (valid : list nat) (invalid : list (Mismatch.t nat PowerQueryType PowerQueryType))
    : list nat * list (Mismatch.t nat PowerQueryType PowerQueryType) :=
  match valueElements with
  | [] => (valid, invalid)
  | element :: rest =>
      if truthy (isCompatible element (itemType schemaType))
      then typeCheckListWithListType_loop schemaType (S index) rest (valid ++ [index]) invalid
      else typeCheckListWithListType_loop schemaType (S index) rest valid
             (invalid ++ [Mismatch.make index (asPowerQueryType schemaType) element])
  end.

Definition typeCheckListWithListType (valueType : DefinedList.t PowerQueryType)
    (schemaType : ListType) : IChecked.t nat PowerQueryType PowerQueryType :=
  let looped :=
    typeCheckListWithListType_loop schemaType 0 (DefinedList.elements valueType) [] [] in
  IChecked.make (fst looped) (snd looped) [] [].

Definition typeCheckListWithDefinedListType (valueType : DefinedList.t PowerQueryType)
    (schemaType : DefinedListType.t PowerQueryType)
    : IChecked.t nat PowerQueryType PowerQueryType :=
  typeCheckGenericNumber (DefinedList.elements valueType)
    (DefinedListType.itemTypes schemaType) isCompatible.

(** The [for ... of valueFields.entries()] loop of [typeCheckRecordOrTable]. *)
Fixpoint typeCheckRecordOrTable_loop (schemaFields : JsMap.t PowerQueryType)
    (schemaIsOpen : bool) (entries : list (string * PowerQueryType))
    (validFields : list string)
    (mismatches : list (Mismatch.t string PowerQueryType PowerQueryType))
    (extraneousFields : list string)
    : list string * list (Mismatch.t string PowerQueryType PowerQueryType) * list string :=
  match entries with
  | [] => (validFields, mismatches, extraneousFields)
  | (key, type) :: rest =>
      match JsMap.get schemaFields key with
      | Some schemaValueType =>
          if truthy (isCompatible type schemaValueType)
          then typeCheckRecordOrTable_loop schemaFields schemaIsOpen rest
                 (validFields ++ [key]) mismatches extraneousFields
          else typeCheckRecordOrTable_loop schemaFields schemaIsOpen rest validFields
                 (mismatches ++ [Mismatch.make key schemaValueType type]) extraneousFields
      | None =>
          if schemaIsOpen
          then typeCheckRecordOrTable_loop schemaFields schemaIsOpen rest
                 (validFields ++ [key]) mismatches extraneousFields
          else typeCheckRecordOrTable_loop schemaFields schemaIsOpen rest validFields
                 mismatches (extraneousFields ++ [key])
      end
  end.

Definition typeCheckRecordOrTable (valueFields schemaFields : JsMap.t PowerQueryType)
    (schemaIsOpen : bool) : IChecked.t string PowerQueryType PowerQueryType :=
  let missingFields :=
    filter (fun key => negb (JsMap.has valueFields key)) (JsMap.keys schemaFields) in
  let looped :=
    typeCheckRecordOrTable_loop schemaFields schemaIsOpen (JsMap.entries valueFields)
      [] [] [] in
  IChecked.make (fst (fst looped)) (snd (fst looped)) (snd looped) missingFields.

Definition typeCheckRecord (valueType : DefinedFields.t PowerQueryType)
    (schemaType : FieldsType.t PowerQueryType)
    : IChecked.t string PowerQueryType PowerQueryType :=
  typeCheckRecordOrTable (DefinedFields.fields valueType) (FieldsType.fields schemaType)
    (FieldsType.isOpen schemaType).

Definition typeCheckTable (valueType : DefinedFields.t PowerQueryType)
    (schemaType : FieldsType.t PowerQueryType)
    : IChecked.t string PowerQueryType PowerQueryType :=
  typeCheckRecordOrTable (DefinedFields.fields valueType) (FieldsType.fields schemaType)
    (FieldsType.isOpen schemaType).

End TypeCheck.

(** ** Example types for the type checks

    Types stand as numbers; a value is compatible with a schema type that is
    not smaller, and nothing is known of the type [0]. *)
Definition compatibleNumbers (value schema : nat) : option bool :=
  if value =? 0 then None else Some (value <=? schema).

(** A parameter is the type it expects, [0] when it is optional. *)
Definition compatibleWithParameter (maybeArg : option nat) (parameter : nat) : bool :=
  match maybeArg with
  | Some arg => arg <=? parameter
  | None => parameter =? 0
  end.

Definition equalNumbers (left right : nat) : option bool := Some (left =? right).

(** [ArrayUtils.range(size, startAt)] as the [size] numbers from [startAt]
    on. *)
Definition rangeFrom (size startAt : nat) : list nat := seq startAt size.

(** * The snapshot builder, continued *)

Section Snapshot.

(** The grapheme splitter is an external library (Unicode Standard Annex 29):
    it cuts a string into its extended grapheme clusters. *)
Variable splitGraphemes : string -> list string.

(** ** Grapheme positions *)

(** Modelled from the spec: the count of [graphemePositionFrom].  Clusters are
    counted while the code units summed so far stay below [lineCodeUnit]. *)
Fixpoint countGraphemes (graphemes : list string)
    (lineCodeUnit summedCodeUnits columnNumber : nat) : nat :=
  match graphemes with
  | [] => columnNumber
  | curGrapheme :: rest =>
      if summedCodeUnits <? lineCodeUnit
      then countGraphemes rest lineCodeUnit
             (summedCodeUnits + String.length curGrapheme) (columnNumber + 1)
      else columnNumber
  end.

(** Modelled from the spec: [StringHelpers.graphemePositionFrom] is not among
    the sources.  Section 4.E: count the grapheme clusters of the given line
    text from its start to [lineCodeUnit] to obtain [columnNumber]. *)
Definition graphemePositionFrom (text : string) (lineCodeUnit lineNumber : nat)
    (maybeCodeUnit : option nat) : GraphemePosition.t :=
  GraphemePosition.make lineCodeUnit lineNumber
    (countGraphemes (splitGraphemes text) lineCodeUnit 0 0)
    maybeCodeUnit.

(** The [for ... of lineTerminators] loop of [graphemePositionStartFrom], with
    its [break]; the result is the pair
    [(substringPositionStart, substringPositionEnd)]. *)
Fixpoint substringPositions (lineTerminators : list LineTerminator.t)
    (positionStart positionEnd : TokenPosition.t)
    (substringPositionStart substringPositionEnd : nat) : nat * nat :=
  match lineTerminators with
  | [] => (substringPositionStart, substringPositionEnd)
  | lineTerminator :: rest =>
      let afterTerminator :=
        LineTerminator.codeUnit lineTerminator
        + String.length (LineTerminator.text lineTerminator) in
      let substringPositionStart' :=
        if LineTerminator.codeUnit lineTerminator <? TokenPosition.codeUnit positionStart
        then afterTerminator
        else substringPositionStart in
      if TokenPosition.codeUnit positionEnd <=? LineTerminator.codeUnit lineTerminator
      then (substringPositionStart', afterTerminator)
      else substringPositions rest positionStart positionEnd
             substringPositionStart' substringPositionEnd
  end.

Definition graphemePositionStartFrom (text : string)
    (lineTerminators : list LineTerminator.t)
    (flatLineToken : TokenOrFlatLineToken) : GraphemePosition.t :=
  let positionStart := positionStartOf flatLineToken in
  let positionEnd := positionEndOf flatLineToken in
  let range :=
    substringPositions lineTerminators positionStart positionEnd
      0 (String.length text) in
  graphemePositionFrom (Js.substring text (fst range) (snd range))
    (TokenPosition.lineCodeUnit positionStart)
    (TokenPosition.lineNumber positionStart)
    (Some (TokenPosition.codeUnit positionEnd)).



(** ** Stitching *)

Definition readLineComment (flatToken : FlatLineToken.t) : Comment.t :=
  Comment.make CommentKind.Line (FlatLineToken.data flatToken) true
    (FlatLineToken.positionStart flatToken) (FlatLineToken.positionEnd flatToken).

Definition readSingleLineMultilineComment (flatToken : FlatLineToken.t) : Comment.t :=
  let positionStart := FlatLineToken.positionStart flatToken in
  let positionEnd := FlatLineToken.positionEnd flatToken in
  Comment.make CommentKind.Multiline (FlatLineToken.data flatToken)
    (negb (TokenPosition.lineNumber positionStart =? TokenPosition.lineNumber positionEnd))
    positionStart positionEnd.

(** The [while] loop of [collectWhileContent] on the tokens from [flatIndex]
    on: it stops at the first token that is not of kind [contentKind], or at
    the end of the array. *)
Fixpoint collectWhileContent_loop (contentKind : LineTokenKind.t)
    (remaining collectedTokens : list FlatLineToken.t) (flatIndex : nat)
    : list FlatLineToken.t * nat :=
  match remaining with
  | [] => (collectedTokens, flatIndex)
  | token :: rest =>
      if LineTokenKind.eqb (FlatLineToken.kind token) contentKind
      then collectWhileContent_loop contentKind rest (collectedTokens ++ [token]) (flatIndex + 1)
      else (collectedTokens, flatIndex)
  end.

Definition collectWhileContent (flatTokens : list FlatLineToken.t)
    (tokenStart : FlatLineToken.t) (contentKind : LineTokenKind.t)
    : FlatLineCollection.t :=
  let flatIndex := FlatLineToken.flatIndex tokenStart + 1 in
  let looped :=
    collectWhileContent_loop contentKind (skipn flatIndex flatTokens) [] flatIndex in
  FlatLineCollection.make tokenStart (fst looped) (nth_error flatTokens (snd looped)).

Definition unterminated (flattenedLines : FlattenedLines.t)
    (tokenStart : FlatLineToken.t) (kind : UnterminatedMultilineTokenKind.t) : Thrown :=
  ThrownInnerLexerError
    (UnterminatedMultilineTokenError
       (graphemePositionStartFrom (FlattenedLines.text flattenedLines)
          (FlattenedLines.lineTerminators flattenedLines) (OfFlatLineToken tokenStart))
       kind).

Definition readMultilineComment (flattenedLines : FlattenedLines.t)
    (tokenStart : FlatLineToken.t) : Completion ConcatenatedCommentRead.t :=
  let collection :=
    collectWhileContent (FlattenedLines.flatLineTokens flattenedLines) tokenStart
      LineTokenKind.MultilineCommentContent in
  match FlatLineCollection.maybeTokenEnd collection with
  | None => Throw (unterminated flattenedLines tokenStart UnterminatedMultilineTokenKind.MultilineComment)
  | Some tokenEnd =>
      match FlatLineToken.kind tokenEnd with
      | LineTokenKind.MultilineCommentEnd =>
          let positionStart := FlatLineToken.positionStart tokenStart in
          let positionEnd := FlatLineToken.positionEnd tokenEnd in
          Normal (ConcatenatedCommentRead.make
            (Comment.make CommentKind.Multiline
               (Js.substring (FlattenedLines.text flattenedLines)
                  (TokenPosition.codeUnit positionStart) (TokenPosition.codeUnit positionEnd))
               (negb (TokenPosition.lineNumber positionStart
                      =? TokenPosition.lineNumber positionEnd))
               positionStart positionEnd)
            (FlatLineToken.flatIndex tokenEnd))
      | _ => Throw (ThrownInnerCommonError (InvariantError invariantMessage tokenEnd))
      end
  end.

Definition readQuotedIdentifier (flattenedLines : FlattenedLines.t)
    (tokenStart : FlatLineToken.t) : Completion ConcatenatedTokenRead.t :=
  let collection :=
    collectWhileContent (FlattenedLines.flatLineTokens flattenedLines) tokenStart
      LineTokenKind.QuotedIdentifierContent in
  match FlatLineCollection.maybeTokenEnd collection with
  | None => Throw (unterminated flattenedLines tokenStart UnterminatedMultilineTokenKind.QuotedIdentifier)
  | Some tokenEnd =>
      match FlatLineToken.kind tokenEnd with
      | LineTokenKind.QuotedIdentifierEnd =>
          let positionStart := FlatLineToken.positionStart tokenStart in
          let positionEnd := FlatLineToken.positionEnd tokenEnd in
          Normal (ConcatenatedTokenRead.make
            (Token.make (TokenKind.value TokenKind.Identifier)
               (Js.substring (FlattenedLines.text flattenedLines)
                  (TokenPosition.codeUnit positionStart) (TokenPosition.codeUnit positionEnd))
               positionStart positionEnd)
            (FlatLineToken.flatIndex tokenEnd))
      | _ => Throw (ThrownInnerCommonError (InvariantError invariantMessage tokenEnd))
      end
  end.

Definition readStringLiteral (flattenedLines : FlattenedLines.t)
    (tokenStart : FlatLineToken.t) : Completion ConcatenatedTokenRead.t :=
  let collection :=
    collectWhileContent (FlattenedLines.flatLineTokens flattenedLines) tokenStart
      LineTokenKind.StringLiteralContent in
  match FlatLineCollection.maybeTokenEnd collection with
  | None => Throw (unterminated flattenedLines tokenStart UnterminatedMultilineTokenKind.String)
  | Some tokenEnd =>
      match FlatLineToken.kind tokenEnd with
      | LineTokenKind.StringLiteralEnd =>
          let positionStart := FlatLineToken.positionStart tokenStart in
          let positionEnd := FlatLineToken.positionEnd tokenEnd in
          Normal (ConcatenatedTokenRead.make
            (Token.make (TokenKind.value TokenKind.StringLiteral)
               (Js.substring (FlattenedLines.text flattenedLines)
                  (TokenPosition.codeUnit positionStart) (TokenPosition.codeUnit positionEnd))
               positionStart positionEnd)
            (FlatLineToken.flatIndex tokenEnd))
      | _ => Throw (ThrownInnerCommonError (InvariantError invariantMessage tokenEnd))
      end
  end.

(** The [default] branch of the [switch] in [factory]: the kind is cast, not
    mapped. *)
Definition castToken (flatToken : FlatLineToken.t) : Token.t :=
  Token.make (LineTokenKind.value (FlatLineToken.kind flatToken))
    (FlatLineToken.data flatToken)
    (FlatLineToken.positionStart flatToken) (FlatLineToken.positionEnd flatToken).

(** The [while (flatIndex < numFlatTokens)] loop of [factory].
    [nth_error flatTokens flatIndex] is [None] exactly when the loop condition
    fails.  [None] as a result means that the fuel ran out. *)
Fixpoint factory_loop (fuel : nat) (flattenedLines : FlattenedLines.t)
    (flatIndex : nat) (tokens : list Token.t) (comments : list Comment.t)
    : option (Completion (list Token.t * list Comment.t)) :=
  match fuel with
  | 0 => None
  | S fuel' =>
      match nth_error (FlattenedLines.flatLineTokens flattenedLines) flatIndex with
      | None => Some (Normal (tokens, comments))
      | Some flatToken =>
          match FlatLineToken.kind flatToken with
          | LineTokenKind.LineComment =>
              factory_loop fuel' flattenedLines (flatIndex + 1) tokens
                (comments ++ [readLineComment flatToken])
          | LineTokenKind.MultilineComment =>
              factory_loop fuel' flattenedLines (flatIndex + 1) tokens
                (comments ++ [readSingleLineMultilineComment flatToken])
          | LineTokenKind.MultilineCommentStart =>
              match readMultilineComment flattenedLines flatToken with
              | Throw e => Some (Throw e)
              | Normal concatenatedTokenRead =>
                  factory_loop fuel' flattenedLines
                    (ConcatenatedCommentRead.flatIndexEnd concatenatedTokenRead + 1)
                    tokens
                    (comments ++ [ConcatenatedCommentRead.comment concatenatedTokenRead])
              end
          | LineTokenKind.QuotedIdentifierStart =>
              match readQuotedIdentifier flattenedLines flatToken with
              | Throw e => Some (Throw e)
              | Normal concatenatedTokenRead =>
                  factory_loop fuel' flattenedLines
                    (ConcatenatedTokenRead.flatIndexEnd concatenatedTokenRead + 1)
                    (tokens ++ [ConcatenatedTokenRead.token concatenatedTokenRead])
                    comments
              end
          | LineTokenKind.StringLiteralStart =>
              match readStringLiteral flattenedLines flatToken with
              | Throw e => Some (Throw e)
              | Normal concatenatedTokenRead =>
                  factory_loop fuel' flattenedLines
                    (ConcatenatedTokenRead.flatIndexEnd concatenatedTokenRead + 1)
                    (tokens ++ [ConcatenatedTokenRead.token concatenatedTokenRead])
                    comments
              end
          | _ =>
              factory_loop fuel' flattenedLines (flatIndex + 1)
                (tokens ++ [castToken flatToken]) comments
          end
      end
  end.

Definition factory (fuel : nat) (state : State.t) : option (Completion LexerSnapshot.t) :=
  let flattenedLines := flattenLineTokens state in
  match factory_loop fuel flattenedLines 0 [] [] with
  | None => None
  | Some (Throw e) => Some (Throw e)
  | Some (Normal (tokens, comments)) =>
      Some (Normal (LexerSnapshot.make (FlattenedLines.text flattenedLines) tokens comments
                      (FlattenedLines.lineTerminators flattenedLines)))
  end.

(** The [try] / [catch] of [tryFrom]: every thrown value becomes an [Err]. *)
Definition catchThrown (e : Thrown) : TLexerError :=
  match e with
  | ThrownInnerLexerError inner => LexerError inner
  | _ => ensureCommonError e
  end.

Definition tryFrom_fuel (fuel : nat) (state : State.t) : option TriedLexerSnapshot :=
  match factory fuel state with
  | None => None
  | Some (Normal snapshot) => Some (Ok snapshot)
  | Some (Throw e) => Some (Err (catchThrown e))
  end.

(** One unit of fuel per flat token and one for the last test of the loop
    condition. *)
Definition tryFrom (state : State.t) : option TriedLexerSnapshot :=
  tryFrom_fuel
    (S (List.length (FlattenedLines.flatLineTokens (flattenLineTokens state)))) state.

(** ** Notions used to state the properties *)

(** *** Offsets of a line *)

(** What one iteration of the outer loop of [flattenLineTokens] adds to
    [lineTextOffset]. *)
Definition lineLength (line : TLine.t) : nat :=
  String.length (TLine.text line) + String.length (TLine.lineTerminator line).

(** [line.text.length + line.lineTerminator.length] accumulated over the lines
    that precede line [lineNumber]. *)
Fixpoint lineTextOffsetAt (lines : list TLine.t) (lineNumber : nat) : nat :=
  match lineNumber, lines with
  | S n, line :: rest => lineLength line + lineTextOffsetAt rest n
  | _, _ => 0
  end.

(** Number of tokens on the lines that precede line [lineNumber]. *)
Fixpoint flatIndexAt (lines : list TLine.t) (lineNumber : nat) : nat :=
  match lineNumber, lines with
  | S n, line :: rest => List.length (TLine.tokens line) + flatIndexAt rest n
  | _, _ => 0
  end.

(** The flat token a line token becomes. *)
Definition flatten (lineTextOffset lineNumber flatIndex : nat)
    (lineToken : LineToken.t) : FlatLineToken.t :=
  FlatLineToken.make (LineToken.kind lineToken) (LineToken.data lineToken)
    (TokenPosition.make (lineTextOffset + LineToken.positionStart lineToken)
       (LineToken.positionStart lineToken) lineNumber)
    (TokenPosition.make (lineTextOffset + LineToken.positionEnd lineToken)
       (LineToken.positionEnd lineToken) lineNumber)
    flatIndex.

Fixpoint flattenTokens (lineTextOffset lineNumber flatIndex : nat)
    (lineTokens : list LineToken.t) : list FlatLineToken.t :=
  match lineTokens with
  | [] => []
  | lineToken :: rest =>
      flatten lineTextOffset lineNumber flatIndex lineToken
      :: flattenTokens lineTextOffset lineNumber (S flatIndex) rest
  end.

(** The flat tokens, the terminators and the text of the lines from
    [lineNumber] on, in closed form. *)
Fixpoint flatTokensFrom (lineTextOffset lineNumber flatIndex : nat)
    (lines : list TLine.t) : list FlatLineToken.t :=
  match lines with
  | [] => []
  | line :: rest =>
      flattenTokens lineTextOffset lineNumber flatIndex (TLine.tokens line)
      ++ flatTokensFrom (lineTextOffset + lineLength line) (S lineNumber)
           (flatIndex + List.length (TLine.tokens line)) rest
  end.

Fixpoint lineTerminatorsFrom (lineTextOffset : nat) (lines : list TLine.t)
    : list LineTerminator.t :=
  match lines with
  | [] => []
  | line :: rest =>
      LineTerminator.make (lineTextOffset + String.length (TLine.text line))
        (TLine.lineTerminator line)
      :: lineTerminatorsFrom (lineTextOffset + lineLength line) rest
  end.

(** Every line's text followed by its terminator, but for the last line, whose
    terminator is left out. *)
Fixpoint joinLines (lines : list TLine.t) : string :=
  match lines with
  | [] => EmptyString
  | line :: rest =>
      match rest with
      | [] => TLine.text line
      | _ :: _ =>
          String.append (TLine.text line)
            (String.append (TLine.lineTerminator line) (joinLines rest))
      end
  end.

(** [lines[i].text + lines[i].lineTerminator] concatenated over every line. *)
Fixpoint concatLines (lines : list TLine.t) : string :=
  match lines with
  | [] => EmptyString
  | line :: rest =>
      String.append (TLine.text line)
        (String.append (TLine.lineTerminator line) (concatLines rest))
  end.

(** The part of the flattened text that belongs to line [n]: its text and,
    unless it is the last line, its terminator. *)
Definition lineWithTerminator (lines : list TLine.t) (n : nat) (line : TLine.t) : string :=
  if S n =? List.length lines
  then TLine.text line
  else String.append (TLine.text line) (TLine.lineTerminator line).

Definition lastLine (lines : list TLine.t) : option TLine.t :=
  nth_error lines (List.length lines - 1).

(** The kinds of the line tokens of a state, in order. *)
Definition stateKinds (state : State.t) : list LineTokenKind.t :=
  flat_map (fun line => map LineToken.kind (TLine.tokens line)) (State.lines state).

(** [flatTokens[k].flatIndex === k] for every index. *)
Definition wellIndexed (flatTokens : list FlatLineToken.t) : Prop :=
  forall k flatToken,
    nth_error flatTokens k = Some flatToken -> FlatLineToken.flatIndex flatToken = k.

(** The same lines with every status cleared. *)
Definition clearLine (line : TLine.t) : TLine.t :=
  TLine.make LineKind.Untouched (TLine.text line) (TLine.lineTerminator line)
    (TLine.tokens line) (TLine.modeStart line) (TLine.modeEnd line).

Definition clearStatus (state : State.t) : State.t :=
  State.make (map clearLine (State.lines state)).

Definition hasErrorLine (state : State.t) : bool :=
  existsb TLine.hasErrorStatus (State.lines state).

(** *** Fragments *)

Definition startKind (family : UnterminatedMultilineTokenKind.t) : LineTokenKind.t :=
  match family with
  | UnterminatedMultilineTokenKind.MultilineComment => LineTokenKind.MultilineCommentStart
  | UnterminatedMultilineTokenKind.QuotedIdentifier => LineTokenKind.QuotedIdentifierStart
  | UnterminatedMultilineTokenKind.String => LineTokenKind.StringLiteralStart
  end.

Definition contentKind (family : UnterminatedMultilineTokenKind.t) : LineTokenKind.t :=
  match family with
  | UnterminatedMultilineTokenKind.MultilineComment => LineTokenKind.MultilineCommentContent
  | UnterminatedMultilineTokenKind.QuotedIdentifier => LineTokenKind.QuotedIdentifierContent
  | UnterminatedMultilineTokenKind.String => LineTokenKind.StringLiteralContent
  end.

Definition endKind (family : UnterminatedMultilineTokenKind.t) : LineTokenKind.t :=
  match family with
  | UnterminatedMultilineTokenKind.MultilineComment => LineTokenKind.MultilineCommentEnd
  | UnterminatedMultilineTokenKind.QuotedIdentifier => LineTokenKind.QuotedIdentifierEnd
  | UnterminatedMultilineTokenKind.String => LineTokenKind.StringLiteralEnd
  end.

Inductive FragmentRole : Set :=
  | RoleStart (family : UnterminatedMultilineTokenKind.t)
  | RoleContent (family : UnterminatedMultilineTokenKind.t)
  | RoleEnd (family : UnterminatedMultilineTokenKind.t)
  | RoleWhole.

Definition fragmentRole (kind : LineTokenKind.t) : FragmentRole :=
  match kind with
  | LineTokenKind.MultilineCommentStart => RoleStart UnterminatedMultilineTokenKind.MultilineComment
  | LineTokenKind.MultilineCommentContent => RoleContent UnterminatedMultilineTokenKind.MultilineComment
  | LineTokenKind.MultilineCommentEnd => RoleEnd UnterminatedMultilineTokenKind.MultilineComment
  | LineTokenKind.QuotedIdentifierStart => RoleStart UnterminatedMultilineTokenKind.QuotedIdentifier
  | LineTokenKind.QuotedIdentifierContent => RoleContent UnterminatedMultilineTokenKind.QuotedIdentifier
  | LineTokenKind.QuotedIdentifierEnd => RoleEnd UnterminatedMultilineTokenKind.QuotedIdentifier
  | LineTokenKind.StringLiteralStart => RoleStart UnterminatedMultilineTokenKind.String
  | LineTokenKind.StringLiteralContent => RoleContent UnterminatedMultilineTokenKind.String
  | LineTokenKind.StringLiteralEnd => RoleEnd UnterminatedMultilineTokenKind.String
  | _ => RoleWhole
  end.

(** Fragment pairing (section 8, property 7): every Start fragment is followed
    by Content fragments of its own construct only, and then by the End
    fragment of that construct.  [openRun] is the construct whose Start has
    been seen and whose End has not. *)
Fixpoint fragmentsPaired (openRun : option UnterminatedMultilineTokenKind.t)
    (kinds : list LineTokenKind.t) : bool :=
  match kinds with
  | [] => match openRun with None => true | Some _ => false end
  | kind :: rest =>
      match openRun with
      | Some family =>
          if LineTokenKind.eqb kind (contentKind family)
          then fragmentsPaired openRun rest
          else if LineTokenKind.eqb kind (endKind family)
          then fragmentsPaired None rest
          else false
      | None =>
          match fragmentRole kind with
          | RoleStart family => fragmentsPaired (Some family) rest
          | _ => fragmentsPaired None rest
          end
      end
  end.

(** No Content or End fragment outside a run: each one directly continues a
    run made of the Start fragment of its construct and Content fragments of
    that construct. *)
Fixpoint fragmentsInsideRuns (openRun : option UnterminatedMultilineTokenKind.t)
    (kinds : list LineTokenKind.t) : bool :=
  match kinds with
  | [] => true
  | kind :: rest =>
      let outside :=
        match fragmentRole kind with
        | RoleStart family => fragmentsInsideRuns (Some family) rest
        | RoleContent _ | RoleEnd _ => false
        | RoleWhole => fragmentsInsideRuns None rest
        end in
      match openRun with
      | Some family =>
          if LineTokenKind.eqb kind (contentKind family)
          then fragmentsInsideRuns openRun rest
          else if LineTokenKind.eqb kind (endKind family)
          then fragmentsInsideRuns None rest
          else outside
      | None => outside
      end
  end.

(** The kinds the [default] branch of [factory] is meant for: neither a
    comment nor a fragment. *)
Definition singleLineTokenKind (kind : LineTokenKind.t) : bool :=
  match kind with
  | LineTokenKind.LineComment | LineTokenKind.MultilineComment => false
  | _ => match fragmentRole kind with RoleWhole => true | _ => false end
  end.

(** Where a token of a snapshot comes from: the [default] branch of [factory]
    taken at a flat token of a single-line kind, or the stitching of a run. *)
Definition castOfSingleLineKind (token : Token.t) : Prop :=
  exists flatToken,
    singleLineTokenKind (FlatLineToken.kind flatToken) = true
    /\ token = castToken flatToken.

Definition stitchedFromRun (token : Token.t) : Prop :=
  exists data positionStart positionEnd,
    token = Token.make (TokenKind.value TokenKind.Identifier) data positionStart positionEnd
    \/ token = Token.make (TokenKind.value TokenKind.StringLiteral) data positionStart positionEnd.

Definition soundToken (token : Token.t) : Prop :=
  Token.validKind token = true
  /\ (castOfSingleLineKind token \/ stitchedFromRun token).

(** *** Entries of a snapshot, in the order [factory] emits them *)

Inductive Entry : Set :=
  | TokenEntry (token : Token.t)
  | CommentEntry (comment : Comment.t).

Definition entryStart (entry : Entry) : nat :=
  match entry with
  | TokenEntry token => TokenPosition.codeUnit (Token.positionStart token)
  | CommentEntry comment => TokenPosition.codeUnit (Comment.positionStart comment)
  end.

Definition entryEnd (entry : Entry) : nat :=
  match entry with
  | TokenEntry token => TokenPosition.codeUnit (Token.positionEnd token)
  | CommentEntry comment => TokenPosition.codeUnit (Comment.positionEnd comment)
  end.

Fixpoint tokensOf (entries : list Entry) : list Token.t :=
  match entries with
  | [] => []
  | TokenEntry token :: rest => token :: tokensOf rest
  | CommentEntry _ :: rest => tokensOf rest
  end.

Fixpoint commentsOf (entries : list Entry) : list Comment.t :=
  match entries with
  | [] => []
  | TokenEntry _ :: rest => commentsOf rest
  | CommentEntry comment :: rest => comment :: commentsOf rest
  end.

(** The tokens and the comments of a snapshot merged by
    [positionStart.codeUnit]. *)
Fixpoint mergeByStart (tokens : list Token.t) (comments : list Comment.t) : list Entry :=
  let fix mergeComments (comments : list Comment.t) : list Entry :=
    match tokens, comments with
    | [], _ => map CommentEntry comments
    | _, [] => map TokenEntry tokens
    | token :: tokens', comment :: comments' =>
        if entryStart (TokenEntry token) <=? entryStart (CommentEntry comment)
        then TokenEntry token :: mergeByStart tokens' comments
        else CommentEntry comment :: mergeComments comments'
    end in
  mergeComments comments.

(** Spans [(start, end)] that are not empty, do not overlap and come in
    increasing order, none beginning before [lowerBound]. *)
Fixpoint separatedFrom (lowerBound : nat) (spans : list (nat * nat)) : Prop :=
  match spans with
  | [] => True
  | (spanStart, spanEnd) :: rest =>
      lowerBound <= spanStart /\ spanStart < spanEnd /\ separatedFrom spanEnd rest
  end.

Definition entrySpan (entry : Entry) : nat * nat := (entryStart entry, entryEnd entry).

Definition tokenStart (token : Token.t) : nat :=
  TokenPosition.codeUnit (Token.positionStart token).

Definition commentStart (comment : Comment.t) : nat :=
  TokenPosition.codeUnit (Comment.positionStart comment).

Definition lineSpan (lineToken : LineToken.t) : nat * nat :=
  (LineToken.positionStart lineToken, LineToken.positionEnd lineToken).

(** Within a line, [tokens[j].positionEnd <= tokens[j+1].positionStart]. *)
Fixpoint endsBeforeNext (lineTokens : list LineToken.t) : Prop :=
  match lineTokens with
  | lineToken :: (next :: _) as rest =>
      LineToken.positionEnd lineToken <= LineToken.positionStart next
      /\ endsBeforeNext rest
  | _ => True
  end.

(** The invariants of a line: each token ends before the next begins, no token
    is empty, and every token ends within the text of the line. *)
Definition lineInvariant (line : TLine.t) : Prop :=
  endsBeforeNext (TLine.tokens line)
  /\ Forall (fun lineToken =>
               LineToken.positionStart lineToken < LineToken.positionEnd lineToken)
       (TLine.tokens line)
  /\ Forall (fun lineToken =>
               LineToken.positionEnd lineToken <= String.length (TLine.text line))
       (TLine.tokens line).

(** *** The stitching as one pass over the flat tokens

    [pending] is the Start fragment whose run is being read, with its
    construct.  [factory_loop_stitch] shows that the loop of [factory] computes
    this function. *)
Definition stitched (text : string) (family : UnterminatedMultilineTokenKind.t)
    (tokenStart tokenEnd : FlatLineToken.t) : Entry :=
  let positionStart := FlatLineToken.positionStart tokenStart in
  let positionEnd := FlatLineToken.positionEnd tokenEnd in
  let data :=
    Js.substring text (TokenPosition.codeUnit positionStart)
      (TokenPosition.codeUnit positionEnd) in
  match family with
  | UnterminatedMultilineTokenKind.MultilineComment =>
      CommentEntry
        (Comment.make CommentKind.Multiline data
           (negb (TokenPosition.lineNumber positionStart =? TokenPosition.lineNumber positionEnd))
           positionStart positionEnd)
  | UnterminatedMultilineTokenKind.QuotedIdentifier =>
      TokenEntry (Token.make (TokenKind.value TokenKind.Identifier) data positionStart positionEnd)
  | UnterminatedMultilineTokenKind.String =>
      TokenEntry (Token.make (TokenKind.value TokenKind.StringLiteral) data positionStart positionEnd)
  end.

Definition emit (entry : Entry) (rest : Completion (list Entry)) : Completion (list Entry) :=
  match rest with
  | Normal entries => Normal (entry :: entries)
  | Throw e => Throw e
  end.

Fixpoint stitch (flattenedLines : FlattenedLines.t)
    (pending : option (UnterminatedMultilineTokenKind.t * FlatLineToken.t))
    (flatTokens : list FlatLineToken.t) : Completion (list Entry) :=
  match flatTokens with
  | [] =>
      match pending with
      | None => Normal []
      | Some (family, tokenStart) => Throw (unterminated flattenedLines tokenStart family)
      end
  | flatToken :: rest =>
      match pending with
      | Some (family, tokenStart) =>
          if LineTokenKind.eqb (FlatLineToken.kind flatToken) (contentKind family)
          then stitch flattenedLines pending rest
          else if LineTokenKind.eqb (FlatLineToken.kind flatToken) (endKind family)
          then emit (stitched (FlattenedLines.text flattenedLines) family tokenStart flatToken)
                 (stitch flattenedLines None rest)
          else Throw (ThrownInnerCommonError (InvariantError invariantMessage flatToken))
      | None =>
          match FlatLineToken.kind flatToken with
          | LineTokenKind.LineComment =>
              emit (CommentEntry (readLineComment flatToken))
                (stitch flattenedLines None rest)
          | LineTokenKind.MultilineComment =>
              emit (CommentEntry (readSingleLineMultilineComment flatToken))
                (stitch flattenedLines None rest)
          | LineTokenKind.MultilineCommentStart =>
              stitch flattenedLines (Some (UnterminatedMultilineTokenKind.MultilineComment, flatToken)) rest
          | LineTokenKind.QuotedIdentifierStart =>
              stitch flattenedLines (Some (UnterminatedMultilineTokenKind.QuotedIdentifier, flatToken)) rest
          | LineTokenKind.StringLiteralStart =>
              stitch flattenedLines (Some (UnterminatedMultilineTokenKind.String, flatToken)) rest
          | _ => emit (TokenEntry (castToken flatToken)) (stitch flattenedLines None rest)
          end
      end
  end.

(** The entry [factory] emits for a flat token that is not a fragment. *)
Definition wholeEntry (flatToken : FlatLineToken.t) : Entry :=
  match FlatLineToken.kind flatToken with
  | LineTokenKind.LineComment => CommentEntry (readLineComment flatToken)
  | LineTokenKind.MultilineComment => CommentEntry (readSingleLineMultilineComment flatToken)
  | _ => TokenEntry (castToken flatToken)
  end.

Definition flatSpan (flatToken : FlatLineToken.t) : nat * nat :=
  (TokenPosition.codeUnit (FlatLineToken.positionStart flatToken),
   TokenPosition.codeUnit (FlatLineToken.positionEnd flatToken)).

(** The entries emitted so far, followed by what the rest of the pass gives. *)
Definition prepend (entries : list Entry) (outcome : Completion (list Entry))
    : Completion (list Entry) :=
  match outcome with
  | Normal rest => Normal (entries ++ rest)
  | Throw e => Throw e
  end.

(** The arrays [tokens] and [comments] of [factory] after one push. *)
Definition pushEntry (tokens : list Token.t) (comments : list Comment.t) (entry : Entry)
    : list Token.t * list Comment.t :=
  match entry with
  | TokenEntry token => (tokens ++ [token], comments)
  | CommentEntry comment => (tokens, comments ++ [comment])
  end.

(** The snapshot [factory] builds from the entries of a completed pass. *)
Definition snapshotOf (flattenedLines : FlattenedLines.t) (entries : list Entry)
    : LexerSnapshot.t :=
  LexerSnapshot.make (FlattenedLines.text flattenedLines) (tokensOf entries)
    (commentsOf entries) (FlattenedLines.lineTerminators flattenedLines).

(** What [factory_loop] returns when the remaining flat tokens stitch to
    [outcome]. *)
Definition extend (tokens : list Token.t) (comments : list Comment.t)
    (outcome : Completion (list Entry)) : Completion (list Token.t * list Comment.t) :=
  match outcome with
  | Normal entries => Normal (tokens ++ tokensOf entries, comments ++ commentsOf entries)
  | Throw e => Throw e
  end.

(** ** Notions for further properties of the snapshot *)

(** The kinds [factory] answers with a comment. *)
Definition isCommentKind (kind : LineTokenKind.t) : bool :=
  match kind with
  | LineTokenKind.LineComment
  | LineTokenKind.MultilineComment
  | LineTokenKind.MultilineCommentStart => true
  | _ => false
  end.

(** Content and End fragments: the kinds that continue a run. *)
Definition continuesRun (kind : LineTokenKind.t) : bool :=
  match fragmentRole kind with
  | RoleContent _ | RoleEnd _ => true
  | _ => false
  end.

Definition isStartKind (kind : LineTokenKind.t) : bool :=
  match fragmentRole kind with
  | RoleStart _ => true
  | _ => false
  end.

(** The line tokens of a state, line after line. *)
Definition lineTokensOf (state : State.t) : list LineToken.t :=
  flat_map TLine.tokens (State.lines state).

(** The kinds [factory] answers with a token of their own: a single-line
    kind that is not a comment, or the Start of a text literal or of a quoted
    identifier. *)
Definition isTokenHead (kind : LineTokenKind.t) : bool :=
  negb (isCommentKind kind) && negb (continuesRun kind).

(** What the run that is being read will add to the comments and to the
    tokens once it is closed. *)
Definition pendingComments
    (pending : option (UnterminatedMultilineTokenKind.t * FlatLineToken.t)) : nat :=
  match pending with
  | Some (UnterminatedMultilineTokenKind.MultilineComment, _) => 1
  | _ => 0
  end.

Definition pendingTokens
    (pending : option (UnterminatedMultilineTokenKind.t * FlatLineToken.t)) : nat :=
  match pending with
  | Some (UnterminatedMultilineTokenKind.QuotedIdentifier, _)
  | Some (UnterminatedMultilineTokenKind.String, _) => 1
  | _ => 0
  end.

(** The comment [factory] reads from a flat token of a comment kind that is
    not a fragment. *)
Definition readWholeComment (flatToken : FlatLineToken.t) : Comment.t :=
  match FlatLineToken.kind flatToken with
  | LineTokenKind.LineComment => readLineComment flatToken
  | _ => readSingleLineMultilineComment flatToken
  end.

(** A flat token that starts and ends on the same line. *)
Definition sameLine (flatToken : FlatLineToken.t) : Prop :=
  TokenPosition.lineNumber (FlatLineToken.positionStart flatToken)
  = TokenPosition.lineNumber (FlatLineToken.positionEnd flatToken).

(** What [containsNewline] tells of a comment, by its kind. *)
Definition newlineFlagged (comment : Comment.t) : Prop :=
  match Comment.kind comment with
  | CommentKind.Line =>
      Comment.containsNewline comment = true
      /\ TokenPosition.lineNumber (Comment.positionStart comment)
         = TokenPosition.lineNumber (Comment.positionEnd comment)
  | CommentKind.Multiline =>
      Comment.containsNewline comment
      = negb (TokenPosition.lineNumber (Comment.positionStart comment)
              =? TokenPosition.lineNumber (Comment.positionEnd comment))
  end.

(** A span that lies within the first [bound] code units. *)
Definition spanWithin (bound : nat) (span : nat * nat) : Prop :=
  fst span <= bound /\ snd span <= bound.

(** Every token of the line starts and ends within the text of the line. *)
Definition tokensWithinLine (line : TLine.t) : Prop :=
  Forall (fun lineToken => spanWithin (String.length (TLine.text line)) (lineSpan lineToken))
    (TLine.tokens line).

(** A terminator ends before the next one begins. *)
Definition terminatorBefore (lineTerminator next : LineTerminator.t) : Prop :=
  LineTerminator.codeUnit lineTerminator + String.length (LineTerminator.text lineTerminator)
  <= LineTerminator.codeUnit next.

(** The data of every token of the line is the slice of the text of the line
    the token spans. *)
Definition slicedLine (line : TLine.t) : Prop :=
  Forall (fun lineToken =>
            spanWithin (String.length (TLine.text line)) (lineSpan lineToken)
            /\ LineToken.data lineToken
               = Js.substring (TLine.text line) (LineToken.positionStart lineToken)
                   (LineToken.positionEnd lineToken))
    (TLine.tokens line).

Definition slicedFlat (text : string) (flatToken : FlatLineToken.t) : Prop :=
  FlatLineToken.data flatToken
  = Js.substring text (fst (flatSpan flatToken)) (snd (flatSpan flatToken)).

Definition slicedEntry (text : string) (entry : Entry) : Prop :=
  match entry with
  | TokenEntry token =>
      Token.data token
      = Js.substring text (TokenPosition.codeUnit (Token.positionStart token))
          (TokenPosition.codeUnit (Token.positionEnd token))
  | CommentEntry comment =>
      Comment.data comment
      = Js.substring text (TokenPosition.codeUnit (Comment.positionStart comment))
          (TokenPosition.codeUnit (Comment.positionEnd comment))
  end.

(** ** Example states *)

Definition LF : string := String "010"%char EmptyString.

(** The double quote. *)
Definition DQ : string := String "034"%char EmptyString.

(** A grapheme splitter for text in which every code unit is a cluster of its
    own. *)
Fixpoint splitCodeUnits (text : string) : list string :=
  match text with
  | EmptyString => []
  | String c rest => String c EmptyString :: splitCodeUnits rest
  end.

(** [abc /*X], [X], [X*/]: an identifier and a comment on three lines. *)
Definition identifierThenComment : State.t :=
  State.make
    [ TLine.make LineKind.Untouched "abc /*X" LF
        [ LineToken.make LineTokenKind.Identifier "abc" 0 3;
          LineToken.make LineTokenKind.MultilineCommentStart "/*X" 4 7 ]
        LexMode.Default LexMode.Comment;
      TLine.make LineKind.Untouched "X" LF
        [ LineToken.make LineTokenKind.MultilineCommentContent "X" 0 1 ]
        LexMode.Comment LexMode.Comment;
      TLine.make LineKind.Untouched "X*/" EmptyString
        [ LineToken.make LineTokenKind.MultilineCommentEnd "X*/" 0 3 ]
        LexMode.Comment LexMode.Default ].

(** [/*], [foobar] and an empty last line: the comment is never closed. *)
Definition unterminatedComment : State.t :=
  State.make
    [ TLine.make LineKind.Untouched "/*" LF
        [ LineToken.make LineTokenKind.MultilineCommentStart "/*" 0 2 ]
        LexMode.Default LexMode.Comment;
      TLine.make LineKind.Untouched "foobar" LF
        [ LineToken.make LineTokenKind.MultilineCommentContent "foobar" 0 6 ]
        LexMode.Comment LexMode.Comment;
      TLine.make LineKind.Untouched EmptyString EmptyString [] LexMode.Comment LexMode.Comment ].

(** One line, [1 ~], on which the line lexer read a number and then failed. *)
Definition lineWithError : State.t :=
  State.make
    [ TLine.make LineKind.TouchedWithError "1 ~" EmptyString
        [ LineToken.make LineTokenKind.NumericLiteral "1" 0 1 ]
        LexMode.Default LexMode.Default ].

(** A comment opened on the first line and an identifier on the second. *)
Definition commentThenIdentifier : State.t :=
  State.make
    [ TLine.make LineKind.Untouched "/*" LF
        [ LineToken.make LineTokenKind.MultilineCommentStart "/*" 0 2 ]
        LexMode.Default LexMode.Comment;
      TLine.make LineKind.Untouched "abc" EmptyString
        [ LineToken.make LineTokenKind.Identifier "abc" 0 3 ]
        LexMode.Comment LexMode.Default ].

(** A text literal opened on the first line and a comment opened on the
    second, which is also the last. *)
Definition stringThenComment : State.t :=
  State.make
    [ TLine.make LineKind.Untouched (String.append DQ "a") LF
        [ LineToken.make LineTokenKind.StringLiteralStart (String.append DQ "a") 0 2 ]
        LexMode.Default LexMode.Text;
      TLine.make LineKind.Untouched "/*" EmptyString
        [ LineToken.make LineTokenKind.MultilineCommentStart "/*" 0 2 ]
        LexMode.Text LexMode.Comment ].

(** A text literal on two lines: a quote and [a], then [b] and a quote. *)
Definition twoLineString : State.t :=
  State.make
    [ TLine.make LineKind.Untouched (String.append DQ "a") LF
        [ LineToken.make LineTokenKind.StringLiteralStart (String.append DQ "a") 0 2 ]
        LexMode.Default LexMode.Text;
      TLine.make LineKind.Untouched (String.append "b" DQ) EmptyString
        [ LineToken.make LineTokenKind.StringLiteralEnd (String.append "b" DQ) 0 2 ]
        LexMode.Text LexMode.Default ].


(** One line whose terminator was kept although it is the last. *)
Definition terminatedLastLine : State.t :=
  State.make [ TLine.make LineKind.Untouched "a" LF [] LexMode.Default LexMode.Default ].

(** One line on which only the End fragment of a comment stands. *)
Definition strayCommentEnd : State.t :=
  State.make
    [ TLine.make LineKind.Untouched "*/" EmptyString
        [ LineToken.make LineTokenKind.MultilineCommentEnd "*/" 0 2 ]
        LexMode.Comment LexMode.Default ].

(** One line whose first token is empty. *)
Definition emptyFirstToken : State.t :=
  State.make
    [ TLine.make LineKind.Untouched "ab" EmptyString
        [ LineToken.make LineTokenKind.Identifier EmptyString 0 0;
          LineToken.make LineTokenKind.Identifier "ab" 0 2 ]
        LexMode.Default LexMode.Default ].

(** A quoted identifier on three lines: [#] and a quote, [foobar], a quote. *)
Definition quotedIdentifierOnThreeLines : State.t :=
  State.make
    [ TLine.make LineKind.Untouched (String.append "#" DQ) LF
        [ LineToken.make LineTokenKind.QuotedIdentifierStart (String.append "#" DQ) 0 2 ]
        LexMode.Default LexMode.QuotedIdentifier;
      TLine.make LineKind.Untouched "foobar" LF
        [ LineToken.make LineTokenKind.QuotedIdentifierContent "foobar" 0 6 ]
        LexMode.QuotedIdentifier LexMode.QuotedIdentifier;
      TLine.make LineKind.Untouched DQ EmptyString
        [ LineToken.make LineTokenKind.QuotedIdentifierEnd DQ 0 1 ]
        LexMode.QuotedIdentifier LexMode.Default ].

(** Kind and data of the tokens and of the comments of a result, as the tests
    of the lexer compare them. *)
Definition abridgedTokens (tried : option TriedLexerSnapshot) : list (string * string) :=
  match tried with
  | Some (Ok snapshot) =>
      map (fun token => (Token.kind token, Token.data token)) (LexerSnapshot.tokens snapshot)
  | _ => []
  end.

Definition abridgedComments (tried : option TriedLexerSnapshot)
    : list (CommentKind.t * string) :=
  match tried with
  | Some (Ok snapshot) =>
      map (fun comment => (Comment.kind comment, Comment.data comment))
        (LexerSnapshot.comments snapshot)
  | _ => []
  end.

(** Two lines without a fragment: [1 // x], then a comment closed on its line
    and an identifier, [/*c*/ abc]. *)
Definition commentsOnTheirLines : State.t :=
  State.make
    [ TLine.make LineKind.Untouched "1 // x" LF
        [ LineToken.make LineTokenKind.NumericLiteral "1" 0 1;
          LineToken.make LineTokenKind.LineComment "// x" 2 6 ]
        LexMode.Default LexMode.Default;
      TLine.make LineKind.Untouched "/*c*/ abc" EmptyString
        [ LineToken.make LineTokenKind.MultilineComment "/*c*/" 0 5;
          LineToken.make LineTokenKind.Identifier "abc" 6 9 ]
        LexMode.Default LexMode.Default ].

(** A splitter that finds no cluster at all. *)
Definition splitNothing (text : string) : list string := [].

(** * Properties *)

(** Case analysis on the kind of a token that is known not to be the End of a
    construct: every other kind takes the branch that throws the invariant
    error. *)
Ltac other_kind E :=
  match goal with
  | |- context [FlatLineToken.kind ?t] =>
      destruct (FlatLineToken.kind t); first [ discriminate E | reflexivity ]
  end.


(** ** Strings *)

Lemma append_assoc (a b c : string) :
  String.append (String.append a b) c = String.append a (String.append b c).
Proof.
  induction a as [|ch a IH]; simpl; [reflexivity|].
  now rewrite IH.
Qed.

Lemma append_empty_r (a : string) : String.append a EmptyString = a.
Proof.
  induction a as [|ch a IH]; simpl; [reflexivity|].
  now rewrite IH.
Qed.

Lemma length_append (a b : string) :
  String.length (String.append a b) = String.length a + String.length b.
Proof.
  induction a as [|ch a IH]; simpl; [reflexivity|].
  now rewrite IH.
Qed.



Lemma substring_skip (a b : string) (n m : nat) :
  String.substring (String.length a + n) m (String.append a b) = String.substring n m b.
Proof.
  induction a as [|ch a IH]; simpl; [reflexivity|].
  exact IH.
Qed.



(** ** Kinds *)

Lemma LineTokenKind_ofValue_value (k : LineTokenKind.t) :
  LineTokenKind.ofValue (LineTokenKind.value k) = Some k.
Proof. destruct k; reflexivity. Qed.

Lemma LineTokenKind_value_inj (a b : LineTokenKind.t) :
  LineTokenKind.value a = LineTokenKind.value b -> a = b.
Proof.
  intros H.
  assert (E : Some a = Some b)
    by (rewrite <- (LineTokenKind_ofValue_value a), <- (LineTokenKind_ofValue_value b);
        now rewrite H).
  now inversion E.
Qed.

Lemma LineTokenKind_eqb_eq (a b : LineTokenKind.t) :
  LineTokenKind.eqb a b = true <-> a = b.
Proof.
  unfold LineTokenKind.eqb. rewrite String.eqb_eq. split.
  - apply LineTokenKind_value_inj.
  - now intros ->.
Qed.

Lemma LineTokenKind_eqb_refl (a : LineTokenKind.t) : LineTokenKind.eqb a a = true.
Proof. now apply LineTokenKind_eqb_eq. Qed.

Lemma LineTokenKind_eqb_neq (a b : LineTokenKind.t) :
  LineTokenKind.eqb a b = false <-> a <> b.
Proof.
  rewrite <- LineTokenKind_eqb_eq. destruct (LineTokenKind.eqb a b); split; congruence.
Qed.

(** Every kind that is neither a comment nor a fragment has a member of
    [TokenKind] with the same run-time value. *)
Lemma singleLineTokenKind_value (k : LineTokenKind.t) :
  singleLineTokenKind k = true ->
  existsb (fun k' => String.eqb (TokenKind.value k') (LineTokenKind.value k))
    TokenKind.all = true.
Proof.
  destruct k; intros H; first [ discriminate H | exact eq_refl ].
Qed.

Lemma singleLineTokenKind_valid (flatToken : FlatLineToken.t) :
  singleLineTokenKind (FlatLineToken.kind flatToken) = true ->
  Token.validKind (castToken flatToken) = true.
Proof. apply singleLineTokenKind_value. Qed.

(** ** Flattening in closed form *)

Lemma fold_pushLineToken (lineTextOffset lineNumber : nat) (lineTokens : list LineToken.t) :
  forall flatLineTokens flatIndex,
    fold_left (pushLineToken lineTextOffset lineNumber) lineTokens
      (flatLineTokens, flatIndex)
    = (flatLineTokens ++ flattenTokens lineTextOffset lineNumber flatIndex lineTokens,
       flatIndex + List.length lineTokens).
Proof.
  induction lineTokens as [|lineToken rest IH]; intros acc idx; simpl.
  - now rewrite app_nil_r, Nat.add_0_r.
  - unfold pushLineToken at 2; simpl.
    rewrite IH, <- app_assoc, Nat.add_1_r; simpl.
    f_equal. lia.
Qed.

Lemma flattenLines_closed (lines : list TLine.t) :
  forall numLines lineNumber acc,
    numLines = lineNumber + List.length lines ->
    flattenLines numLines lineNumber lines acc
    = FlattenLoop.make
        (String.append (FlattenLoop.text acc) (joinLines lines))
        (FlattenLoop.lineTerminators acc
           ++ lineTerminatorsFrom (FlattenLoop.lineTextOffset acc) lines)
        (FlattenLoop.flatLineTokens acc
           ++ flatTokensFrom (FlattenLoop.lineTextOffset acc) lineNumber
                (FlattenLoop.flatIndex acc) lines)
        (FlattenLoop.lineTextOffset acc + lineTextOffsetAt lines (List.length lines))
        (FlattenLoop.flatIndex acc + flatIndexAt lines (List.length lines)).
Proof.
  induction lines as [|line rest IH]; intros numLines lineNumber acc Hnum.
  - destruct acc; simpl. now rewrite append_empty_r, !app_nil_r, !Nat.add_0_r.
  - cbn [flattenLines]. rewrite (IH numLines (S lineNumber)) by (simpl in Hnum; lia).
    unfold flattenLine. rewrite fold_pushLineToken. cbn [fst snd].
    cbn [FlattenLoop.text FlattenLoop.lineTerminators FlattenLoop.flatLineTokens
         FlattenLoop.lineTextOffset FlattenLoop.flatIndex].
    f_equal.
    + destruct rest as [|next rest'].
      * simpl in Hnum. replace (lineNumber =? numLines - 1) with true
          by (symmetry; apply Nat.eqb_eq; lia).
        simpl. now rewrite append_empty_r.
      * simpl in Hnum. replace (lineNumber =? numLines - 1) with false
          by (symmetry; apply Nat.eqb_neq; lia).
        cbn [negb joinLines]. now rewrite !append_assoc.
    + rewrite <- app_assoc. cbn [lineTerminatorsFrom app]. unfold lineLength.
      now rewrite Nat.add_assoc.
    + rewrite <- app_assoc. cbn [flatTokensFrom]. unfold lineLength.
      now rewrite Nat.add_assoc.
    + cbn [List.length lineTextOffsetAt]. unfold lineLength. lia.
    + cbn [List.length flatIndexAt]. lia.
Qed.

Lemma flattenLineTokens_closed (state : State.t) :
  flattenLineTokens state
  = FlattenedLines.make (joinLines (State.lines state))
      (lineTerminatorsFrom 0 (State.lines state))
      (flatTokensFrom 0 0 0 (State.lines state)).
Proof.
  unfold flattenLineTokens.
  rewrite (@flattenLines_closed (State.lines state) _ 0 _ eq_refl).
  reflexivity.
Qed.

Lemma length_flattenTokens (lineTextOffset lineNumber : nat) (lineTokens : list LineToken.t) :
  forall flatIndex,
    List.length (flattenTokens lineTextOffset lineNumber flatIndex lineTokens)
    = List.length lineTokens.
Proof.
  induction lineTokens as [|lineToken rest IH]; intros idx; simpl; [reflexivity|].
  now rewrite IH.
Qed.

Lemma nth_error_flattenTokens (lineTextOffset lineNumber : nat)
    (lineTokens : list LineToken.t) :
  forall flatIndex j,
    nth_error (flattenTokens lineTextOffset lineNumber flatIndex lineTokens) j
    = option_map (flatten lineTextOffset lineNumber (flatIndex + j))
        (nth_error lineTokens j).
Proof.
  induction lineTokens as [|lineToken rest IH]; intros idx j.
  - now destruct j.
  - destruct j as [|j]; simpl.
    + now rewrite Nat.add_0_r.
    + rewrite IH. now replace (S idx + j) with (idx + S j) by lia.
Qed.

Lemma length_flatTokensFrom (lines : list TLine.t) :
  forall lineTextOffset lineNumber flatIndex,
    List.length (flatTokensFrom lineTextOffset lineNumber flatIndex lines)
    = flatIndexAt lines (List.length lines).
Proof.
  induction lines as [|line rest IH]; intros off ln idx; simpl; [reflexivity|].
  now rewrite length_app, length_flattenTokens, IH.
Qed.

(** The flat token of the [j]-th token of line [n]. *)
Lemma nth_error_flatTokensFrom (lines : list TLine.t) :
  forall lineTextOffset lineNumber flatIndex n line j lineToken,
    nth_error lines n = Some line ->
    nth_error (TLine.tokens line) j = Some lineToken ->
    nth_error (flatTokensFrom lineTextOffset lineNumber flatIndex lines)
      (flatIndexAt lines n + j)
    = Some (flatten (lineTextOffset + lineTextOffsetAt lines n) (lineNumber + n)
              (flatIndex + (flatIndexAt lines n + j)) lineToken).
Proof.
  induction lines as [|first rest IH]; intros off ln idx n line j lineToken Hline Htok.
  - now destruct n.
  - destruct n as [|n]; simpl in Hline.
    + injection Hline as ->. simpl.
      rewrite nth_error_app1
        by (rewrite length_flattenTokens; apply nth_error_Some; congruence).
      rewrite nth_error_flattenTokens, Htok. simpl.
      now rewrite !Nat.add_0_r.
    + simpl.
      rewrite nth_error_app2 by (rewrite length_flattenTokens; lia).
      rewrite length_flattenTokens.
      replace (List.length (TLine.tokens first) + flatIndexAt rest n + j
               - List.length (TLine.tokens first))
        with (flatIndexAt rest n + j) by lia.
      rewrite (IH _ _ _ n line j lineToken Hline Htok).
      f_equal. f_equal; lia.
Qed.

Lemma wellIndexed_flatTokensFrom (lines : list TLine.t) :
  forall lineTextOffset lineNumber flatIndex k flatToken,
    nth_error (flatTokensFrom lineTextOffset lineNumber flatIndex lines) k = Some flatToken ->
    FlatLineToken.flatIndex flatToken = flatIndex + k.
Proof.
  induction lines as [|line rest IH]; intros off ln idx k flatToken H.
  - now destruct k.
  - simpl in H.
    destruct (Nat.lt_ge_cases k (List.length (TLine.tokens line))) as [Hk|Hk].
    + rewrite nth_error_app1 in H by now rewrite length_flattenTokens.
      rewrite nth_error_flattenTokens in H.
      destruct (nth_error (TLine.tokens line) k); [|discriminate].
      simpl in H. injection H as <-. reflexivity.
    + rewrite nth_error_app2 in H by now rewrite length_flattenTokens.
      rewrite length_flattenTokens in H.
      apply IH in H. lia.
Qed.

Lemma wellIndexed_flattenLineTokens (state : State.t) :
  wellIndexed (FlattenedLines.flatLineTokens (flattenLineTokens state)).
Proof.
  rewrite flattenLineTokens_closed. intros k flatToken H.
  now apply wellIndexed_flatTokensFrom in H.
Qed.

Lemma nth_error_lineTerminatorsFrom (lines : list TLine.t) :
  forall lineTextOffset n line,
    nth_error lines n = Some line ->
    nth_error (lineTerminatorsFrom lineTextOffset lines) n
    = Some (LineTerminator.make
              (lineTextOffset + lineTextOffsetAt lines n + String.length (TLine.text line))
              (TLine.lineTerminator line)).
Proof.
  induction lines as [|first rest IH]; intros off n line Hline.
  - now destruct n.
  - destruct n as [|n]; simpl in Hline.
    + injection Hline as ->. simpl. now rewrite Nat.add_0_r.
    + simpl. rewrite (IH _ n line Hline). do 2 f_equal. lia.
Qed.

Lemma length_lineTerminatorsFrom (lines : list TLine.t) :
  forall lineTextOffset,
    List.length (lineTerminatorsFrom lineTextOffset lines) = List.length lines.
Proof.
  induction lines as [|line rest IH]; intros off; simpl; [reflexivity|].
  now rewrite IH.
Qed.

Lemma kinds_flattenTokens (lineTextOffset lineNumber : nat) (lineTokens : list LineToken.t) :
  forall flatIndex,
    map FlatLineToken.kind (flattenTokens lineTextOffset lineNumber flatIndex lineTokens)
    = map LineToken.kind lineTokens.
Proof.
  induction lineTokens as [|lineToken rest IH]; intros idx; simpl; [reflexivity|].
  now rewrite IH.
Qed.

Lemma kinds_flatTokensFrom (lines : list TLine.t) :
  forall lineTextOffset lineNumber flatIndex,
    map FlatLineToken.kind (flatTokensFrom lineTextOffset lineNumber flatIndex lines)
    = flat_map (fun line => map LineToken.kind (TLine.tokens line)) lines.
Proof.
  induction lines as [|line rest IH]; intros off ln idx; simpl; [reflexivity|].
  now rewrite map_app, kinds_flattenTokens, IH.
Qed.

Lemma kinds_flattenLineTokens (state : State.t) :
  map FlatLineToken.kind (FlattenedLines.flatLineTokens (flattenLineTokens state))
  = stateKinds state.
Proof.
  rewrite flattenLineTokens_closed. apply kinds_flatTokensFrom.
Qed.

Lemma joinLines_concatLines (lines : list TLine.t) :
  (forall line, lastLine lines = Some line -> TLine.lineTerminator line = EmptyString) ->
  joinLines lines = concatLines lines.
Proof.
  unfold lastLine.
  induction lines as [|line rest IH]; intros Hlast; [reflexivity|].
  destruct rest as [|next rest'].
  - simpl. rewrite (Hlast line eq_refl). simpl. now rewrite append_empty_r.
  - change (joinLines (line :: next :: rest'))
      with (String.append (TLine.text line)
              (String.append (TLine.lineTerminator line) (joinLines (next :: rest')))).
    change (concatLines (line :: next :: rest'))
      with (String.append (TLine.text line)
              (String.append (TLine.lineTerminator line) (concatLines (next :: rest')))).
    rewrite IH; [reflexivity|].
    intros l Hl. apply Hlast. simpl in *. now rewrite Nat.sub_0_r in Hl.
Qed.

(** ** The loop of [factory] computes [stitch] *)

Lemma skipn_nth_error (A : Type) (l : list A) :
  forall i x, nth_error l i = Some x -> skipn i l = x :: skipn (S i) l.
Proof.
  induction l as [|y l IH]; intros i x H.
  - now destruct i.
  - destruct i as [|i]; simpl in *.
    + now injection H as ->.
    + now apply IH.
Qed.

Lemma extend_emit_token tokens comments token outcome :
  extend (tokens ++ [token]) comments outcome
  = extend tokens comments (emit (TokenEntry token) outcome).
Proof.
  destruct outcome; simpl; [|reflexivity].
  now rewrite <- app_assoc.
Qed.

Lemma extend_emit_comment tokens comments comment outcome :
  extend tokens (comments ++ [comment]) outcome
  = extend tokens comments (emit (CommentEntry comment) outcome).
Proof.
  destruct outcome; simpl; [|reflexivity].
  now rewrite <- app_assoc.
Qed.

(** The loop of [collectWhileContent] stops [k] tokens further, where the
    pass with a pending Start meets the first token that is not Content. *)
Lemma collectWhileContent_loop_stitch flattenedLines family tokenStart :
  forall remaining collectedTokens flatIndex,
  exists k,
    collectWhileContent_loop (contentKind family) remaining collectedTokens flatIndex
    = (collectedTokens ++ firstn k remaining, flatIndex + k)
    /\ Forall (fun token => FlatLineToken.kind token = contentKind family) (firstn k remaining)
    /\ stitch flattenedLines (Some (family, tokenStart)) remaining
       = match nth_error remaining k with
         | None => Throw (unterminated flattenedLines tokenStart family)
         | Some tokenEnd =>
             if LineTokenKind.eqb (FlatLineToken.kind tokenEnd) (endKind family)
             then emit (stitched (FlattenedLines.text flattenedLines) family tokenStart tokenEnd)
                    (stitch flattenedLines None (skipn (S k) remaining))
             else Throw (ThrownInnerCommonError (InvariantError invariantMessage tokenEnd))
         end.
Proof.
  induction remaining as [|token rest IH]; intros collected idx.
  - exists 0. simpl. now rewrite app_nil_r, Nat.add_0_r.
  - cbn [collectWhileContent_loop stitch].
    destruct (LineTokenKind.eqb (FlatLineToken.kind token) (contentKind family)) eqn:E.
    + destruct (IH (collected ++ [token]) (idx + 1)) as (k & Hloop & Hall & Hstitch).
      exists (S k). rewrite Hloop, Hstitch. cbn [firstn nth_error skipn].
      rewrite <- app_assoc. repeat split.
      * f_equal. lia.
      * constructor; [now apply LineTokenKind_eqb_eq | exact Hall].
    + exists 0. cbn [firstn nth_error skipn]. now rewrite app_nil_r, Nat.add_0_r.
Qed.

Lemma readMultilineComment_stitch flattenedLines tokenStart i :
  wellIndexed (FlattenedLines.flatLineTokens flattenedLines) ->
  nth_error (FlattenedLines.flatLineTokens flattenedLines) i = Some tokenStart ->
  match readMultilineComment flattenedLines tokenStart with
  | Throw e =>
      stitch flattenedLines (Some (UnterminatedMultilineTokenKind.MultilineComment, tokenStart))
        (skipn (S i) (FlattenedLines.flatLineTokens flattenedLines)) = Throw e
  | Normal read =>
      ConcatenatedCommentRead.flatIndexEnd read
        < List.length (FlattenedLines.flatLineTokens flattenedLines)
      /\ i < ConcatenatedCommentRead.flatIndexEnd read
      /\ stitch flattenedLines (Some (UnterminatedMultilineTokenKind.MultilineComment, tokenStart))
           (skipn (S i) (FlattenedLines.flatLineTokens flattenedLines))
         = emit (CommentEntry (ConcatenatedCommentRead.comment read))
             (stitch flattenedLines None
                (skipn (S (ConcatenatedCommentRead.flatIndexEnd read))
                   (FlattenedLines.flatLineTokens flattenedLines)))
  end.
Proof.
  intros Hidx Hstart.
  unfold readMultilineComment, collectWhileContent.
  rewrite (Hidx _ _ Hstart), Nat.add_1_r.
  destruct (collectWhileContent_loop_stitch flattenedLines UnterminatedMultilineTokenKind.MultilineComment
              tokenStart (skipn (S i) (FlattenedLines.flatLineTokens flattenedLines)) [] (S i))
    as (k & Hloop & _ & Hstitch).
  cbn [contentKind] in Hloop. rewrite Hloop, Hstitch.
  cbn [fst snd FlatLineCollection.maybeTokenEnd].
  rewrite nth_error_skipn.
  destruct (nth_error (FlattenedLines.flatLineTokens flattenedLines) (S i + k))
    as [tokenEnd|] eqn:Hend; [|reflexivity].
  rewrite skipn_skipn.
  destruct (LineTokenKind.eqb (FlatLineToken.kind tokenEnd)
              (endKind UnterminatedMultilineTokenKind.MultilineComment)) eqn:E.
  - apply LineTokenKind_eqb_eq in E. rewrite E. cbn [endKind].
    cbn [ConcatenatedCommentRead.flatIndexEnd ConcatenatedCommentRead.comment].
    rewrite (Hidx _ _ Hend). repeat split.
    + apply nth_error_Some. congruence.
    + lia.
    + now replace (S k + S i) with (S (S i + k)) by lia.
  - unfold LineTokenKind.eqb in E. other_kind E.
Qed.

Lemma readQuotedIdentifier_stitch flattenedLines tokenStart i :
  wellIndexed (FlattenedLines.flatLineTokens flattenedLines) ->
  nth_error (FlattenedLines.flatLineTokens flattenedLines) i = Some tokenStart ->
  match readQuotedIdentifier flattenedLines tokenStart with
  | Throw e =>
      stitch flattenedLines (Some (UnterminatedMultilineTokenKind.QuotedIdentifier, tokenStart))
        (skipn (S i) (FlattenedLines.flatLineTokens flattenedLines)) = Throw e
  | Normal read =>
      ConcatenatedTokenRead.flatIndexEnd read
        < List.length (FlattenedLines.flatLineTokens flattenedLines)
      /\ i < ConcatenatedTokenRead.flatIndexEnd read
      /\ stitch flattenedLines (Some (UnterminatedMultilineTokenKind.QuotedIdentifier, tokenStart))
           (skipn (S i) (FlattenedLines.flatLineTokens flattenedLines))
         = emit (TokenEntry (ConcatenatedTokenRead.token read))
             (stitch flattenedLines None
                (skipn (S (ConcatenatedTokenRead.flatIndexEnd read))
                   (FlattenedLines.flatLineTokens flattenedLines)))
  end.
Proof.
  intros Hidx Hstart.
  unfold readQuotedIdentifier, collectWhileContent.
  rewrite (Hidx _ _ Hstart), Nat.add_1_r.
  destruct (collectWhileContent_loop_stitch flattenedLines UnterminatedMultilineTokenKind.QuotedIdentifier
              tokenStart (skipn (S i) (FlattenedLines.flatLineTokens flattenedLines)) [] (S i))
    as (k & Hloop & _ & Hstitch).
  cbn [contentKind] in Hloop. rewrite Hloop, Hstitch.
  cbn [fst snd FlatLineCollection.maybeTokenEnd].
  rewrite nth_error_skipn.
  destruct (nth_error (FlattenedLines.flatLineTokens flattenedLines) (S i + k))
    as [tokenEnd|] eqn:Hend; [|reflexivity].
  rewrite skipn_skipn.
  destruct (LineTokenKind.eqb (FlatLineToken.kind tokenEnd)
              (endKind UnterminatedMultilineTokenKind.QuotedIdentifier)) eqn:E.
  - apply LineTokenKind_eqb_eq in E. rewrite E. cbn [endKind].
    cbn [ConcatenatedTokenRead.flatIndexEnd ConcatenatedTokenRead.token].
    rewrite (Hidx _ _ Hend). repeat split.
    + apply nth_error_Some. congruence.
    + lia.
    + now replace (S k + S i) with (S (S i + k)) by lia.
  - unfold LineTokenKind.eqb in E. other_kind E.
Qed.

Lemma readStringLiteral_stitch flattenedLines tokenStart i :
  wellIndexed (FlattenedLines.flatLineTokens flattenedLines) ->
  nth_error (FlattenedLines.flatLineTokens flattenedLines) i = Some tokenStart ->
  match readStringLiteral flattenedLines tokenStart with
  | Throw e =>
      stitch flattenedLines (Some (UnterminatedMultilineTokenKind.String, tokenStart))
        (skipn (S i) (FlattenedLines.flatLineTokens flattenedLines)) = Throw e
  | Normal read =>
      ConcatenatedTokenRead.flatIndexEnd read
        < List.length (FlattenedLines.flatLineTokens flattenedLines)
      /\ i < ConcatenatedTokenRead.flatIndexEnd read
      /\ stitch flattenedLines (Some (UnterminatedMultilineTokenKind.String, tokenStart))
           (skipn (S i) (FlattenedLines.flatLineTokens flattenedLines))
         = emit (TokenEntry (ConcatenatedTokenRead.token read))
             (stitch flattenedLines None
                (skipn (S (ConcatenatedTokenRead.flatIndexEnd read))
                   (FlattenedLines.flatLineTokens flattenedLines)))
  end.
Proof.
  intros Hidx Hstart.
  unfold readStringLiteral, collectWhileContent.
  rewrite (Hidx _ _ Hstart), Nat.add_1_r.
  destruct (collectWhileContent_loop_stitch flattenedLines UnterminatedMultilineTokenKind.String
              tokenStart (skipn (S i) (FlattenedLines.flatLineTokens flattenedLines)) [] (S i))
    as (k & Hloop & _ & Hstitch).
  cbn [contentKind] in Hloop. rewrite Hloop, Hstitch.
  cbn [fst snd FlatLineCollection.maybeTokenEnd].
  rewrite nth_error_skipn.
  destruct (nth_error (FlattenedLines.flatLineTokens flattenedLines) (S i + k))
    as [tokenEnd|] eqn:Hend; [|reflexivity].
  rewrite skipn_skipn.
  destruct (LineTokenKind.eqb (FlatLineToken.kind tokenEnd)
              (endKind UnterminatedMultilineTokenKind.String)) eqn:E.
  - apply LineTokenKind_eqb_eq in E. rewrite E. cbn [endKind].
    cbn [ConcatenatedTokenRead.flatIndexEnd ConcatenatedTokenRead.token].
    rewrite (Hidx _ _ Hend). repeat split.
    + apply nth_error_Some. congruence.
    + lia.
    + now replace (S k + S i) with (S (S i + k)) by lia.
  - unfold LineTokenKind.eqb in E. other_kind E.
Qed.

(** With [flatIndex] fields equal to the indices, [length - flatIndex + 1]
    units of fuel let the loop run to its end, and its result is the pass
    [stitch] over the tokens from [flatIndex] on. *)
Lemma factory_loop_stitch flattenedLines :
  wellIndexed (FlattenedLines.flatLineTokens flattenedLines) ->
  forall fuel flatIndex tokens comments,
    List.length (FlattenedLines.flatLineTokens flattenedLines) - flatIndex < fuel ->
    factory_loop fuel flattenedLines flatIndex tokens comments
    = Some (extend tokens comments
              (stitch flattenedLines None
                 (skipn flatIndex (FlattenedLines.flatLineTokens flattenedLines)))).
Proof.
  intros Hidx. induction fuel as [|fuel IH]; intros i tokens comments Hfuel; [lia|].
  cbn [factory_loop].
  destruct (nth_error (FlattenedLines.flatLineTokens flattenedLines) i)
    as [flatToken|] eqn:Hi.
  - assert (Hlt : i < List.length (FlattenedLines.flatLineTokens flattenedLines))
      by (apply nth_error_Some; congruence).
    rewrite (@skipn_nth_error _ _ _ _ Hi). cbn [stitch]. rewrite Nat.add_1_r.
    pose proof (readMultilineComment_stitch flattenedLines flatToken i Hidx Hi) as Hcomment.
    pose proof (readQuotedIdentifier_stitch flattenedLines flatToken i Hidx Hi) as Hquoted.
    pose proof (readStringLiteral_stitch flattenedLines flatToken i Hidx Hi) as Hstring.
    destruct (FlatLineToken.kind flatToken);
      try (rewrite IH by lia; f_equal; apply extend_emit_token);
      try (rewrite IH by lia; f_equal; apply extend_emit_comment).
    + destruct (readMultilineComment flattenedLines flatToken) as [read|e].
      * destruct Hcomment as (Hlen & Hgt & ->).
        rewrite Nat.add_1_r, IH by lia. f_equal. apply extend_emit_comment.
      * now rewrite Hcomment.
    + destruct (readQuotedIdentifier flattenedLines flatToken) as [read|e].
      * destruct Hquoted as (Hlen & Hgt & ->).
        rewrite Nat.add_1_r, IH by lia. f_equal. apply extend_emit_token.
      * now rewrite Hquoted.
    + destruct (readStringLiteral flattenedLines flatToken) as [read|e].
      * destruct Hstring as (Hlen & Hgt & ->).
        rewrite Nat.add_1_r, IH by lia. f_equal. apply extend_emit_token.
      * now rewrite Hstring.
  - apply nth_error_None in Hi. rewrite skipn_all2 by exact Hi.
    simpl. now rewrite !app_nil_r.
Qed.

(** [tryFrom] never runs out of fuel, and its result is read off [stitch]. *)
Lemma tryFrom_stitch (state : State.t) :
  tryFrom state
  = Some match stitch (flattenLineTokens state) None
                 (FlattenedLines.flatLineTokens (flattenLineTokens state)) with
         | Normal entries => Ok (snapshotOf (flattenLineTokens state) entries)
         | Throw e => Err (catchThrown e)
         end.
Proof.
  unfold tryFrom, tryFrom_fuel, factory.
  rewrite (factory_loop_stitch _ (wellIndexed_flattenLineTokens state)) by lia.
  cbn [skipn].
  destruct (stitch (flattenLineTokens state) None
              (FlattenedLines.flatLineTokens (flattenLineTokens state)));
    reflexivity.
Qed.

(** Any larger amount of fuel gives the same result. *)
Lemma tryFrom_fuel_enough (state : State.t) (fuel : nat) :
  List.length (FlattenedLines.flatLineTokens (flattenLineTokens state)) < fuel ->
  tryFrom_fuel fuel state = tryFrom state.
Proof.
  intros Hfuel. unfold tryFrom, tryFrom_fuel, factory.
  now rewrite !(factory_loop_stitch _ (wellIndexed_flattenLineTokens state)) by lia.
Qed.

(** ** Equations of [stitch] *)

Lemma stitch_whole flattenedLines flatToken rest :
  stitch flattenedLines None (flatToken :: rest)
  = match fragmentRole (FlatLineToken.kind flatToken) with
    | RoleStart family => stitch flattenedLines (Some (family, flatToken)) rest
    | _ => emit (wholeEntry flatToken) (stitch flattenedLines None rest)
    end.
Proof.
  cbn [stitch]. unfold wholeEntry.
  destruct (FlatLineToken.kind flatToken); reflexivity.
Qed.

Lemma fragmentRole_start (kind : LineTokenKind.t) family :
  kind = startKind family -> fragmentRole kind = RoleStart family.
Proof. intros ->. now destruct family. Qed.

Lemma startKind_not_content family family' :
  LineTokenKind.eqb (startKind family) (contentKind family') = false.
Proof. now destruct family, family'. Qed.

Lemma startKind_not_end family family' :
  LineTokenKind.eqb (startKind family) (endKind family') = false.
Proof. now destruct family, family'. Qed.

Lemma fragmentRole_startKind (kind : LineTokenKind.t) family :
  fragmentRole kind = RoleStart family -> kind = startKind family.
Proof. destruct kind; intros H; first [ discriminate H | now injection H as <- ]. Qed.

Lemma stitch_start flattenedLines family tokenStart rest :
  FlatLineToken.kind tokenStart = startKind family ->
  stitch flattenedLines None (tokenStart :: rest)
  = stitch flattenedLines (Some (family, tokenStart)) rest.
Proof.
  intros H. rewrite stitch_whole. now rewrite (fragmentRole_start _ family H).
Qed.

Lemma stitch_content flattenedLines family tokenStart contents rest :
  Forall (fun token => FlatLineToken.kind token = contentKind family) contents ->
  stitch flattenedLines (Some (family, tokenStart)) (contents ++ rest)
  = stitch flattenedLines (Some (family, tokenStart)) rest.
Proof.
  induction 1 as [|token contents Hkind _ IH]; [reflexivity|].
  cbn [app stitch]. now rewrite Hkind, LineTokenKind_eqb_refl.
Qed.

Lemma content_not_end family :
  LineTokenKind.eqb (endKind family) (contentKind family) = false.
Proof. now destruct family. Qed.

(** A run that is closed gives one entry. *)
Lemma stitch_run flattenedLines family tokenStart contents tokenEnd rest :
  FlatLineToken.kind tokenStart = startKind family ->
  Forall (fun token => FlatLineToken.kind token = contentKind family) contents ->
  FlatLineToken.kind tokenEnd = endKind family ->
  stitch flattenedLines None (tokenStart :: contents ++ tokenEnd :: rest)
  = emit (stitched (FlattenedLines.text flattenedLines) family tokenStart tokenEnd)
      (stitch flattenedLines None rest).
Proof.
  intros Hstart Hcontents Hend.
  rewrite (stitch_start _ family _ _ Hstart), (stitch_content _ _ _ _ _ Hcontents).
  cbn [stitch]. now rewrite Hend, content_not_end, LineTokenKind_eqb_refl.
Qed.

(** A run that reaches the end of the tokens throws the lexer error. *)
Lemma stitch_unterminated flattenedLines family tokenStart contents :
  FlatLineToken.kind tokenStart = startKind family ->
  Forall (fun token => FlatLineToken.kind token = contentKind family) contents ->
  stitch flattenedLines None (tokenStart :: contents)
  = Throw (unterminated flattenedLines tokenStart family).
Proof.
  intros Hstart Hcontents.
  rewrite (stitch_start _ family _ _ Hstart).
  rewrite <- (app_nil_r contents), (stitch_content _ _ _ _ _ Hcontents).
  reflexivity.
Qed.

(** A run followed by anything but its End throws the invariant error. *)
Lemma stitch_invariant flattenedLines family tokenStart contents found rest :
  FlatLineToken.kind tokenStart = startKind family ->
  Forall (fun token => FlatLineToken.kind token = contentKind family) contents ->
  FlatLineToken.kind found <> contentKind family ->
  FlatLineToken.kind found <> endKind family ->
  stitch flattenedLines None (tokenStart :: contents ++ found :: rest)
  = Throw (ThrownInnerCommonError (InvariantError invariantMessage found)).
Proof.
  intros Hstart Hcontents Hcontent Hend.
  rewrite (stitch_start _ family _ _ Hstart), (stitch_content _ _ _ _ _ Hcontents).
  cbn [stitch].
  apply LineTokenKind_eqb_neq in Hcontent, Hend.
  now rewrite Hcontent, Hend.
Qed.

Lemma prepend_emit entry entries outcome :
  emit entry (prepend entries outcome) = prepend (entry :: entries) outcome.
Proof. now destruct outcome. Qed.

(** Tokens that pair up are stitched without an exception, whatever follows
    them. *)
Lemma stitch_paired flattenedLines (flatTokens : list FlatLineToken.t) :
  forall pending,
    fragmentsPaired (option_map fst pending) (map FlatLineToken.kind flatTokens) = true ->
    exists entries,
      forall rest,
        stitch flattenedLines pending (flatTokens ++ rest)
        = prepend entries (stitch flattenedLines None rest).
Proof.
  induction flatTokens as [|flatToken flatTokens IH]; intros pending Hpaired.
  - destruct pending as [[family tokenStart]|]; [discriminate Hpaired|].
    exists []. intros rest. simpl. now destruct (stitch flattenedLines None rest).
  - destruct pending as [[family tokenStart]|].
    + cbn [map option_map fst fragmentsPaired] in Hpaired.
      cbn [app stitch].
      destruct (LineTokenKind.eqb (FlatLineToken.kind flatToken) (contentKind family)).
      * apply (IH (Some (family, tokenStart))). exact Hpaired.
      * destruct (LineTokenKind.eqb (FlatLineToken.kind flatToken) (endKind family));
          [|discriminate Hpaired].
        destruct (IH None Hpaired) as [entries Hentries].
        exists (stitched (FlattenedLines.text flattenedLines) family tokenStart flatToken
                :: entries).
        intros rest. now rewrite Hentries, prepend_emit.
    + cbn [map option_map fragmentsPaired] in Hpaired.
      destruct (fragmentRole (FlatLineToken.kind flatToken)) as [family|family|family|] eqn:Hrole.
      * destruct (IH (Some (family, flatToken)) Hpaired) as [entries Hentries].
        exists entries. intros rest.
        cbn [app]. rewrite stitch_whole, Hrole. apply Hentries.
      * destruct (IH None Hpaired) as [entries Hentries].
        exists (wholeEntry flatToken :: entries). intros rest.
        cbn [app]. now rewrite stitch_whole, Hrole, Hentries, prepend_emit.
      * destruct (IH None Hpaired) as [entries Hentries].
        exists (wholeEntry flatToken :: entries). intros rest.
        cbn [app]. now rewrite stitch_whole, Hrole, Hentries, prepend_emit.
      * destruct (IH None Hpaired) as [entries Hentries].
        exists (wholeEntry flatToken :: entries). intros rest.
        cbn [app]. now rewrite stitch_whole, Hrole, Hentries, prepend_emit.
Qed.

(** When the whole pass completes, the tokens before a Start fragment were
    stitched on their own: no run was open when the pass met the Start. *)
Lemma stitch_before_start flattenedLines tokenStart family (before : list FlatLineToken.t) :
  FlatLineToken.kind tokenStart = startKind family ->
  forall pending rest entries,
    stitch flattenedLines pending (before ++ tokenStart :: rest) = Normal entries ->
    exists emitted,
      forall rest',
        stitch flattenedLines pending (before ++ rest')
        = prepend emitted (stitch flattenedLines None rest').
Proof.
  intros Hstart.
  induction before as [|flatToken before IH]; intros pending rest entries Hpass.
  - destruct pending as [[family' tokenStart']|].
    + cbn [app stitch] in Hpass.
      rewrite Hstart, startKind_not_content, startKind_not_end in Hpass.
      discriminate Hpass.
    + exists []. intros rest'. simpl. now destruct (stitch flattenedLines None rest').
  - destruct pending as [[family' tokenStart']|].
    + cbn [app stitch] in Hpass |- *.
      destruct (LineTokenKind.eqb (FlatLineToken.kind flatToken) (contentKind family')).
      * apply (IH _ _ _ Hpass).
      * destruct (LineTokenKind.eqb (FlatLineToken.kind flatToken) (endKind family'));
          [|discriminate Hpass].
        destruct (stitch flattenedLines None (before ++ tokenStart :: rest))
          as [entries'|e] eqn:Hrest; [|discriminate Hpass].
        destruct (IH _ _ _ Hrest) as [emitted Hemitted].
        exists (stitched (FlattenedLines.text flattenedLines) family' tokenStart' flatToken
                :: emitted).
        intros rest'. now rewrite Hemitted, prepend_emit.
    + cbn [app] in Hpass. rewrite stitch_whole in Hpass.
      destruct (fragmentRole (FlatLineToken.kind flatToken)) as [family'|family'|family'|] eqn:Hrole.
      * destruct (IH _ _ _ Hpass) as [emitted Hemitted].
        exists emitted. intros rest'.
        cbn [app]. rewrite stitch_whole, Hrole. apply Hemitted.
      * destruct (stitch flattenedLines None (before ++ tokenStart :: rest))
          as [entries'|e] eqn:Hrest; [|discriminate Hpass].
        destruct (IH _ _ _ Hrest) as [emitted Hemitted].
        exists (wholeEntry flatToken :: emitted). intros rest'.
        cbn [app]. now rewrite stitch_whole, Hrole, Hemitted, prepend_emit.
      * destruct (stitch flattenedLines None (before ++ tokenStart :: rest))
          as [entries'|e] eqn:Hrest; [|discriminate Hpass].
        destruct (IH _ _ _ Hrest) as [emitted Hemitted].
        exists (wholeEntry flatToken :: emitted). intros rest'.
        cbn [app]. now rewrite stitch_whole, Hrole, Hemitted, prepend_emit.
      * destruct (stitch flattenedLines None (before ++ tokenStart :: rest))
          as [entries'|e] eqn:Hrest; [|discriminate Hpass].
        destruct (IH _ _ _ Hrest) as [emitted Hemitted].
        exists (wholeEntry flatToken :: emitted). intros rest'.
        cbn [app]. now rewrite stitch_whole, Hrole, Hemitted, prepend_emit.
Qed.

(** ** One iteration of the loop of [factory] at a closed run *)

Lemma collectWhileContent_loop_run contentKind contents :
  Forall (fun token => FlatLineToken.kind token = contentKind) contents ->
  forall found rest collectedTokens flatIndex,
    FlatLineToken.kind found <> contentKind ->
    collectWhileContent_loop contentKind (contents ++ found :: rest) collectedTokens flatIndex
    = (collectedTokens ++ contents, flatIndex + List.length contents).
Proof.
  induction 1 as [|token contents Hkind _ IH]; intros found rest collected idx Hfound.
  - cbn [app collectWhileContent_loop].
    apply LineTokenKind_eqb_neq in Hfound. rewrite Hfound.
    now rewrite app_nil_r, Nat.add_0_r.
  - cbn [app collectWhileContent_loop].
    rewrite Hkind, LineTokenKind_eqb_refl, (IH found rest) by exact Hfound.
    rewrite <- app_assoc. cbn [List.length app]. f_equal. lia.
Qed.

Lemma endKind_not_content family : endKind family <> contentKind family.
Proof. now destruct family. Qed.

Lemma nth_error_middle (A : Type) (before : list A) (x : A) (rest : list A) :
  nth_error (before ++ x :: rest) (List.length before) = Some x.
Proof.
  rewrite nth_error_app2 by lia. now rewrite Nat.sub_diag.
Qed.

Lemma skipn_middle (A : Type) (before : list A) (x : A) (rest : list A) :
  skipn (S (List.length before)) (before ++ x :: rest) = rest.
Proof.
  induction before as [|y before IH]; [reflexivity|exact IH].
Qed.

(** What [collectWhileContent] returns at the Start of a closed run. *)
Lemma collectWhileContent_run flatTokens before tokenStart family contents tokenEnd rest :
  wellIndexed flatTokens ->
  flatTokens = before ++ tokenStart :: contents ++ tokenEnd :: rest ->
  Forall (fun token => FlatLineToken.kind token = contentKind family) contents ->
  FlatLineToken.kind tokenEnd = endKind family ->
  collectWhileContent flatTokens tokenStart (contentKind family)
  = FlatLineCollection.make tokenStart contents (Some tokenEnd)
    /\ FlatLineToken.flatIndex tokenEnd = List.length before + List.length contents + 1.
Proof.
  intros Hidx Hflat Hcontents Hend.
  assert (Hstart : FlatLineToken.flatIndex tokenStart = List.length before)
    by (apply Hidx; rewrite Hflat; apply nth_error_middle).
  assert (Hfound : nth_error flatTokens (List.length before + 1 + List.length contents)
                   = Some tokenEnd).
  { rewrite Hflat, nth_error_app2 by lia.
    replace (List.length before + 1 + List.length contents - List.length before)
      with (S (List.length contents)) by lia.
    cbn [nth_error]. apply nth_error_middle. }
  split.
  - unfold collectWhileContent. rewrite Hstart.
    replace (skipn (List.length before + 1) flatTokens) with (contents ++ tokenEnd :: rest)
      by (rewrite Hflat, Nat.add_1_r; symmetry; apply skipn_middle).
    rewrite (collectWhileContent_loop_run _ _ Hcontents)
      by (rewrite Hend; apply endKind_not_content).
    cbn [fst snd app]. now rewrite Hfound.
  - rewrite (Hidx _ _ Hfound). lia.
Qed.

(** At the Start of a closed run one iteration pushes the stitched entry and
    moves the counter past the End fragment. *)
Lemma factory_loop_run flattenedLines before tokenStart family contents tokenEnd rest :
  wellIndexed (FlattenedLines.flatLineTokens flattenedLines) ->
  FlattenedLines.flatLineTokens flattenedLines
  = before ++ tokenStart :: contents ++ tokenEnd :: rest ->
  FlatLineToken.kind tokenStart = startKind family ->
  Forall (fun token => FlatLineToken.kind token = contentKind family) contents ->
  FlatLineToken.kind tokenEnd = endKind family ->
  forall fuel tokens comments,
    factory_loop (S fuel) flattenedLines (List.length before) tokens comments
    = factory_loop fuel flattenedLines (List.length before + List.length contents + 2)
        (fst (pushEntry tokens comments
                (stitched (FlattenedLines.text flattenedLines) family tokenStart tokenEnd)))
        (snd (pushEntry tokens comments
                (stitched (FlattenedLines.text flattenedLines) family tokenStart tokenEnd))).
Proof.
  intros Hidx Hflat Hstart Hcontents Hend fuel tokens comments.
  destruct (collectWhileContent_run _ before tokenStart family contents tokenEnd rest
              Hidx Hflat Hcontents Hend) as [Hcollect Hindex].
  assert (Hnth : nth_error (FlattenedLines.flatLineTokens flattenedLines) (List.length before)
                 = Some tokenStart)
    by (rewrite Hflat; apply nth_error_middle).
  cbn [factory_loop]. rewrite Hnth, Hstart.
  replace (List.length before + List.length contents + 2)
    with (FlatLineToken.flatIndex tokenEnd + 1) by lia.
  destruct family; cbn [startKind contentKind endKind] in *.
  - unfold readMultilineComment. rewrite Hcollect.
    cbn [FlatLineCollection.maybeTokenEnd]. rewrite Hend. reflexivity.
  - unfold readQuotedIdentifier. rewrite Hcollect.
    cbn [FlatLineCollection.maybeTokenEnd]. rewrite Hend. reflexivity.
  - unfold readStringLiteral. rewrite Hcollect.
    cbn [FlatLineCollection.maybeTokenEnd]. rewrite Hend. reflexivity.
Qed.

Lemma joinLines_clearLine (lines : list TLine.t) :
  joinLines (map clearLine lines) = joinLines lines.
Proof.
  induction lines as [|line rest IH]; [reflexivity|].
  destruct rest as [|next rest']; [reflexivity|].
  change (joinLines (map clearLine (line :: next :: rest')))
    with (String.append (TLine.text line)
            (String.append (TLine.lineTerminator line)
               (joinLines (map clearLine (next :: rest'))))).
  now rewrite IH.
Qed.

Lemma lineTerminatorsFrom_clearLine (lines : list TLine.t) :
  forall lineTextOffset,
    lineTerminatorsFrom lineTextOffset (map clearLine lines)
    = lineTerminatorsFrom lineTextOffset lines.
Proof.
  induction lines as [|line rest IH]; intros off; [reflexivity|].
  cbn [map lineTerminatorsFrom]. now rewrite IH.
Qed.

Lemma flatTokensFrom_clearLine (lines : list TLine.t) :
  forall lineTextOffset lineNumber flatIndex,
    flatTokensFrom lineTextOffset lineNumber flatIndex (map clearLine lines)
    = flatTokensFrom lineTextOffset lineNumber flatIndex lines.
Proof.
  induction lines as [|line rest IH]; intros off ln idx; [reflexivity|].
  cbn [map flatTokensFrom]. now rewrite IH.
Qed.

Lemma flattenLineTokens_clearStatus (state : State.t) :
  flattenLineTokens (clearStatus state) = flattenLineTokens state.
Proof.
  rewrite !flattenLineTokens_closed. unfold clearStatus; cbn [State.lines].
  now rewrite joinLines_clearLine, lineTerminatorsFrom_clearLine, flatTokensFrom_clearLine.
Qed.

Lemma stateKinds_clearStatus (state : State.t) :
  stateKinds (clearStatus state) = stateKinds state.
Proof.
  rewrite <- !kinds_flattenLineTokens. now rewrite flattenLineTokens_clearStatus.
Qed.

(** ** Order of the entries *)

Lemma separatedFrom_weaken (spans : list (nat * nat)) (lowerBound lowerBound' : nat) :
  lowerBound' <= lowerBound ->
  separatedFrom lowerBound spans -> separatedFrom lowerBound' spans.
Proof.
  destruct spans as [|[spanStart spanEnd] rest]; simpl; [trivial|].
  intros Hle (Hlo & Hne & Hrest). repeat split; [lia|exact Hne|exact Hrest].
Qed.

Lemma separatedFrom_app (spans : list (nat * nat)) :
  forall lowerBound upperBound spans',
    separatedFrom lowerBound spans ->
    Forall (fun span => snd span <= upperBound) spans ->
    lowerBound <= upperBound ->
    separatedFrom upperBound spans' ->
    separatedFrom lowerBound (spans ++ spans').
Proof.
  induction spans as [|[spanStart spanEnd] rest IH];
    intros lo hi spans' Hsep Hends Hle Hsep'.
  - now apply (separatedFrom_weaken _ hi).
  - destruct Hsep as (Hlo & Hne & Hrest). inversion Hends as [|? ? Hend Hends']; subst.
    simpl in Hend. cbn [app separatedFrom]. repeat split; [exact Hlo|exact Hne|].
    now apply (IH spanEnd hi).
Qed.

Lemma separatedFrom_starts (spans : list (nat * nat)) :
  forall lowerBound,
    separatedFrom lowerBound spans ->
    Forall (fun span => lowerBound <= fst span) spans.
Proof.
  induction spans as [|[spanStart spanEnd] rest IH]; intros lo Hsep; [constructor|].
  destruct Hsep as (Hlo & Hne & Hrest). constructor; [exact Hlo|].
  apply IH in Hrest. revert Hrest. apply Forall_impl. intros span. lia.
Qed.

Lemma separatedFrom_sorted (spans : list (nat * nat)) :
  forall lowerBound,
    separatedFrom lowerBound spans -> StronglySorted lt (map fst spans).
Proof.
  induction spans as [|[spanStart spanEnd] rest IH]; intros lo Hsep; [constructor|].
  destruct Hsep as (Hlo & Hne & Hrest). cbn [map fst]. constructor.
  - now apply (IH spanEnd).
  - apply separatedFrom_starts in Hrest. apply Forall_map.
    revert Hrest. apply Forall_impl. intros span. lia.
Qed.

Lemma separated_flattenTokens (lineTextOffset lineNumber : nat)
    (lineTokens : list LineToken.t) :
  forall lowerBound flatIndex,
    separatedFrom lowerBound (map lineSpan lineTokens) ->
    separatedFrom (lineTextOffset + lowerBound)
      (map flatSpan (flattenTokens lineTextOffset lineNumber flatIndex lineTokens)).
Proof.
  induction lineTokens as [|lineToken rest IH]; intros lo idx Hsep; [exact I|].
  destruct Hsep as (Hlo & Hne & Hrest).
  cbn [flattenTokens map separatedFrom flatSpan flatten
       FlatLineToken.positionStart FlatLineToken.positionEnd TokenPosition.codeUnit].
  repeat split; [lia|lia|]. now apply IH.
Qed.

Lemma ends_flattenTokens (lineTextOffset lineNumber bound : nat)
    (lineTokens : list LineToken.t) :
  forall flatIndex,
    Forall (fun lineToken => LineToken.positionEnd lineToken <= bound) lineTokens ->
    Forall (fun span => snd span <= lineTextOffset + bound)
      (map flatSpan (flattenTokens lineTextOffset lineNumber flatIndex lineTokens)).
Proof.
  induction lineTokens as [|lineToken rest IH]; intros idx Hends; [constructor|].
  inversion Hends as [|? ? Hend Hends']; subst.
  cbn [flattenTokens map]. constructor; [simpl; lia|]. now apply IH.
Qed.

Lemma separated_lineTokens (lineTokens : list LineToken.t) :
  endsBeforeNext lineTokens ->
  Forall (fun lineToken =>
            LineToken.positionStart lineToken < LineToken.positionEnd lineToken)
    lineTokens ->
  forall lowerBound,
    (forall lineToken, hd_error lineTokens = Some lineToken ->
                       lowerBound <= LineToken.positionStart lineToken) ->
    separatedFrom lowerBound (map lineSpan lineTokens).
Proof.
  induction lineTokens as [|lineToken rest IH]; intros Hnext Hne lo Hlo; [exact I|].
  inversion Hne as [|? ? Hhead Hrest]; subst.
  cbn [map separatedFrom lineSpan]. repeat split.
  - now apply Hlo.
  - exact Hhead.
  - destruct rest as [|next rest']; [exact I|].
    destruct Hnext as [Hle Hnext]. apply IH; [exact Hnext|exact Hrest|].
    intros first Hfirst. injection Hfirst as <-. exact Hle.
Qed.

(** The flat tokens of lines that keep their invariants do not overlap and
    come in increasing order. *)
Lemma separated_flatTokensFrom (lines : list TLine.t) :
  Forall lineInvariant lines ->
  forall lineTextOffset lineNumber flatIndex,
    separatedFrom lineTextOffset
      (map flatSpan (flatTokensFrom lineTextOffset lineNumber flatIndex lines)).
Proof.
  induction 1 as [|line rest (Hnext & Hne & Hends) _ IH]; intros off ln idx; [exact I|].
  assert (Hsep : separatedFrom 0 (map lineSpan (TLine.tokens line)))
    by (apply separated_lineTokens; [exact Hnext|exact Hne|intros; lia]).
  cbn [flatTokensFrom]. rewrite map_app.
  apply (separatedFrom_app _ off (off + lineLength line)).
  - rewrite <- (Nat.add_0_r off) at 1. now apply separated_flattenTokens.
  - apply (ends_flattenTokens off ln (String.length (TLine.text line))) with (flatIndex := idx)
      in Hends.
    revert Hends. apply Forall_impl. intros span. unfold lineLength. lia.
  - lia.
  - apply IH.
Qed.

Lemma entrySpan_wholeEntry (flatToken : FlatLineToken.t) :
  entrySpan (wholeEntry flatToken) = flatSpan flatToken.
Proof.
  unfold wholeEntry. now destruct (FlatLineToken.kind flatToken).
Qed.

Lemma entrySpan_stitched text family tokenStart tokenEnd :
  entrySpan (stitched text family tokenStart tokenEnd)
  = (fst (flatSpan tokenStart), snd (flatSpan tokenEnd)).
Proof. now destruct family. Qed.

(** The entries of a completed pass over separated flat tokens are separated;
    while a run is open, the next entry begins where the pending Start
    begins. *)
Lemma stitch_separated flattenedLines (flatTokens : list FlatLineToken.t) :
  forall pending lowerBound entries,
    separatedFrom lowerBound (map flatSpan flatTokens) ->
    stitch flattenedLines pending flatTokens = Normal entries ->
    match pending with
    | None => separatedFrom lowerBound (map entrySpan entries)
    | Some (_, tokenStart) =>
        fst (flatSpan tokenStart) < lowerBound ->
        separatedFrom (fst (flatSpan tokenStart)) (map entrySpan entries)
    end.
Proof.
  induction flatTokens as [|flatToken flatTokens IH]; intros pending lo entries Hsep Hpass.
  - destruct pending as [[family tokenStart]|]; [discriminate Hpass|].
    injection Hpass as <-. exact I.
  - cbn [map separatedFrom] in Hsep.
    destruct (flatSpan flatToken) as [spanStart spanEnd] eqn:Hspan.
    destruct Hsep as (Hlo & Hne & Hrest).
    destruct pending as [[family tokenStart]|].
    + intros Hopen. cbn [stitch] in Hpass.
      destruct (LineTokenKind.eqb (FlatLineToken.kind flatToken) (contentKind family)).
      * apply (IH (Some (family, tokenStart)) spanEnd entries Hrest Hpass). lia.
      * destruct (LineTokenKind.eqb (FlatLineToken.kind flatToken) (endKind family));
          [|discriminate Hpass].
        destruct (stitch flattenedLines None flatTokens) as [entries'|e] eqn:Hrest';
          [|discriminate Hpass].
        injection Hpass as <-.
        cbn [map separatedFrom]. rewrite entrySpan_stitched, Hspan. cbn [snd].
        repeat split; [lia|lia|].
        apply (IH None spanEnd entries' Hrest Hrest').
    + rewrite stitch_whole in Hpass.
      assert (Hwhole :
                emit (wholeEntry flatToken) (stitch flattenedLines None flatTokens)
                = Normal entries ->
                separatedFrom lo (map entrySpan entries)).
      { intros Hemit.
        destruct (stitch flattenedLines None flatTokens) as [entries'|e] eqn:Hrest';
          [|discriminate Hemit].
        injection Hemit as <-.
        cbn [map separatedFrom]. rewrite entrySpan_wholeEntry, Hspan.
        repeat split; [exact Hlo|exact Hne|].
        apply (IH None spanEnd entries' Hrest Hrest'). }
      destruct (fragmentRole (FlatLineToken.kind flatToken)); try (now apply Hwhole).
      apply (separatedFrom_weaken _ spanStart); [exact Hlo|].
      pose proof (IH (Some (family, flatToken)) spanEnd entries Hrest Hpass) as Hrun.
      cbn beta iota in Hrun. rewrite Hspan in Hrun. apply Hrun. simpl. exact Hne.
Qed.

Lemma mergeByStart_nil_l (comments : list Comment.t) :
  mergeByStart [] comments = map CommentEntry comments.
Proof. now destruct comments. Qed.

Lemma mergeByStart_nil_r (tokens : list Token.t) :
  mergeByStart tokens [] = map TokenEntry tokens.
Proof. now destruct tokens. Qed.

Lemma mergeByStart_cons token tokens comment comments :
  mergeByStart (token :: tokens) (comment :: comments)
  = if entryStart (TokenEntry token) <=? entryStart (CommentEntry comment)
    then TokenEntry token :: mergeByStart tokens (comment :: comments)
    else CommentEntry comment :: mergeByStart (token :: tokens) comments.
Proof. reflexivity. Qed.

Lemma In_tokensOf token entries :
  In token (tokensOf entries) -> In (TokenEntry token) entries.
Proof.
  induction entries as [|[token'|comment'] entries IH]; simpl; [tauto| |tauto].
  intros [->|H]; [now left|right; now apply IH].
Qed.

Lemma In_commentsOf comment entries :
  In comment (commentsOf entries) -> In (CommentEntry comment) entries.
Proof.
  induction entries as [|[token'|comment'] entries IH]; simpl; [tauto|tauto|].
  intros [->|H]; [now left|right; now apply IH].
Qed.

(** Merging the tokens and the comments of separated entries by their start
    gives the entries back, in the order of emission. *)
Lemma mergeByStart_entries (entries : list Entry) :
  forall lowerBound,
    separatedFrom lowerBound (map entrySpan entries) ->
    mergeByStart (tokensOf entries) (commentsOf entries) = entries.
Proof.
  induction entries as [|entry entries IH]; intros lo Hsep; [reflexivity|].
  cbn [map separatedFrom entrySpan] in Hsep. destruct Hsep as (Hlo & Hne & Hrest).
  pose proof (IH _ Hrest) as Hmerge.
  apply separatedFrom_starts in Hrest. rewrite Forall_forall in Hrest.
  destruct entry as [token|comment]; cbn [tokensOf commentsOf].
  - destruct (commentsOf entries) as [|comment comments] eqn:Hcomments.
    + rewrite mergeByStart_nil_r in *. cbn [map]. now rewrite Hmerge.
    + rewrite mergeByStart_cons.
      assert (Hle : entryEnd (TokenEntry token) <= entryStart (CommentEntry comment)).
      { apply (Hrest (entrySpan (CommentEntry comment))), in_map, In_commentsOf.
        rewrite Hcomments. now left. }
      replace (entryStart (TokenEntry token) <=? entryStart (CommentEntry comment))
        with true by (symmetry; apply Nat.leb_le; lia).
      now rewrite Hmerge.
  - destruct (tokensOf entries) as [|token tokens] eqn:Htokens.
    + rewrite mergeByStart_nil_l in *. cbn [map]. now rewrite Hmerge.
    + rewrite mergeByStart_cons.
      assert (Hle : entryEnd (CommentEntry comment) <= entryStart (TokenEntry token)).
      { apply (Hrest (entrySpan (TokenEntry token))), in_map, In_tokensOf.
        rewrite Htokens. now left. }
      replace (entryStart (TokenEntry token) <=? entryStart (CommentEntry comment))
        with false by (symmetry; apply Nat.leb_gt; lia).
      now rewrite Hmerge.
Qed.

Lemma separated_tokensOf (entries : list Entry) :
  forall lowerBound,
    separatedFrom lowerBound (map entrySpan entries) ->
    separatedFrom lowerBound (map entrySpan (map TokenEntry (tokensOf entries))).
Proof.
  induction entries as [|entry entries IH]; intros lo Hsep; [exact I|].
  cbn [map separatedFrom entrySpan] in Hsep. destruct Hsep as (Hlo & Hne & Hrest).
  apply IH in Hrest.
  destruct entry as [token|comment]; cbn [tokensOf map separatedFrom entrySpan].
  - now repeat split.
  - apply (separatedFrom_weaken _ (entryEnd (CommentEntry comment))); [lia|exact Hrest].
Qed.

Lemma separated_commentsOf (entries : list Entry) :
  forall lowerBound,
    separatedFrom lowerBound (map entrySpan entries) ->
    separatedFrom lowerBound (map entrySpan (map CommentEntry (commentsOf entries))).
Proof.
  induction entries as [|entry entries IH]; intros lo Hsep; [exact I|].
  cbn [map separatedFrom entrySpan] in Hsep. destruct Hsep as (Hlo & Hne & Hrest).
  apply IH in Hrest.
  destruct entry as [token|comment]; cbn [commentsOf map separatedFrom entrySpan].
  - apply (separatedFrom_weaken _ (entryEnd (TokenEntry token))); [lia|exact Hrest].
  - now repeat split.
Qed.

(** ** The substring [graphemePositionStartFrom] selects *)




(** The flattened text splits around the part that belongs to line [n]. *)
Lemma joinLines_split (lines : list TLine.t) :
  forall n line,
    nth_error lines n = Some line ->
    exists before after,
      joinLines lines
      = String.append before (String.append (lineWithTerminator lines n line) after)
      /\ String.length before = lineTextOffsetAt lines n
      /\ (S n = List.length lines -> after = EmptyString).
Proof.
  induction lines as [|first rest IH]; intros n line Hline; [now destruct n|].
  destruct n as [|n]; cbn [nth_error] in Hline.
  - injection Hline as ->. exists EmptyString. unfold lineWithTerminator.
    destruct rest as [|next rest'].
    + exists EmptyString. cbn. now rewrite append_empty_r.
    + exists (joinLines (next :: rest')).
      change (joinLines (line :: next :: rest'))
        with (String.append (TLine.text line)
                (String.append (TLine.lineTerminator line) (joinLines (next :: rest')))).
      cbn [List.length Nat.eqb String.append lineTextOffsetAt String.length].
      rewrite append_assoc. repeat split. discriminate.
  - destruct rest as [|next rest']; [now destruct n|].
    destruct (IH n line Hline) as (before & after & Hjoin & Hlen & Hafter).
    exists (String.append (TLine.text first) (String.append (TLine.lineTerminator first) before)),
      after.
    change (joinLines (first :: next :: rest'))
      with (String.append (TLine.text first)
              (String.append (TLine.lineTerminator first) (joinLines (next :: rest')))).
    rewrite Hjoin, !append_assoc, !length_append, Hlen.
    cbn [lineTextOffsetAt]. unfold lineLength, lineWithTerminator in *.
    repeat split; [lia|].
    intros Hlast. apply Hafter. cbn [List.length] in *. lia.
Qed.

Lemma length_lineWithTerminator (lines : list TLine.t) (n : nat) (line : TLine.t) :
  String.length (lineWithTerminator lines n line)
  <= String.length (TLine.text line) + String.length (TLine.lineTerminator line).
Proof.
  unfold lineWithTerminator. destruct (S n =? List.length lines);
    [|rewrite length_append]; lia.
Qed.


(** ** Kinds of the tokens of a snapshot *)

Lemma tokensOf_cons (entry : Entry) (entries : list Entry) :
  tokensOf (entry :: entries) = tokensOf [entry] ++ tokensOf entries.
Proof. now destruct entry. Qed.

Lemma wholeEntry_sound (flatToken : FlatLineToken.t) :
  fragmentRole (FlatLineToken.kind flatToken) = RoleWhole ->
  Forall soundToken (tokensOf [wholeEntry flatToken]).
Proof.
  intros Hrole.
  assert (Hcast : singleLineTokenKind (FlatLineToken.kind flatToken) = true ->
                  Forall soundToken [castToken flatToken]).
  { intros Hsingle. apply Forall_cons; [|apply Forall_nil]. split.
    - now apply singleLineTokenKind_valid.
    - left. now exists flatToken. }
  unfold wholeEntry.
  destruct (FlatLineToken.kind flatToken); try discriminate Hrole;
    first [ apply Forall_nil | apply Hcast; reflexivity ].
Qed.

Lemma stitched_sound text family tokenStart tokenEnd :
  Forall soundToken (tokensOf [stitched text family tokenStart tokenEnd]).
Proof.
  destruct family; cbn [stitched tokensOf]; [apply Forall_nil| |].
  - apply Forall_cons; [|apply Forall_nil]. split; [exact eq_refl|]. right.
    unfold stitchedFromRun. do 3 eexists. left. reflexivity.
  - apply Forall_cons; [|apply Forall_nil]. split; [exact eq_refl|]. right.
    unfold stitchedFromRun. do 3 eexists. right. reflexivity.
Qed.

(** With no Content or End fragment outside a run, a completed pass emits
    sound tokens only. *)
Lemma stitch_sound flattenedLines (flatTokens : list FlatLineToken.t) :
  forall pending entries,
    fragmentsInsideRuns (option_map fst pending) (map FlatLineToken.kind flatTokens) = true ->
    stitch flattenedLines pending flatTokens = Normal entries ->
    Forall soundToken (tokensOf entries).
Proof.
  induction flatTokens as [|flatToken flatTokens IH]; intros pending entries Hruns Hpass.
  - destruct pending as [[family tokenStart]|]; [discriminate Hpass|].
    injection Hpass as <-. constructor.
  - destruct pending as [[family tokenStart]|].
    + cbn [map option_map fst fragmentsInsideRuns] in Hruns. cbn [stitch] in Hpass.
      destruct (LineTokenKind.eqb (FlatLineToken.kind flatToken) (contentKind family)).
      * now apply (IH (Some (family, tokenStart))).
      * destruct (LineTokenKind.eqb (FlatLineToken.kind flatToken) (endKind family));
          [|discriminate Hpass].
        destruct (stitch flattenedLines None flatTokens) as [entries'|e] eqn:Hrest;
          [|discriminate Hpass].
        injection Hpass as <-. rewrite tokensOf_cons. apply Forall_app. split.
        -- apply stitched_sound.
        -- now apply (IH None).
    + cbn [map option_map fragmentsInsideRuns] in Hruns. rewrite stitch_whole in Hpass.
      destruct (fragmentRole (FlatLineToken.kind flatToken)) as [family|family|family|] eqn:Hrole;
        try discriminate Hruns.
      * now apply (IH (Some (family, flatToken))).
      * destruct (stitch flattenedLines None flatTokens) as [entries'|e] eqn:Hrest;
          [|discriminate Hpass].
        injection Hpass as <-. rewrite tokensOf_cons. apply Forall_app. split.
        -- now apply wholeEntry_sound.
        -- now apply (IH None).
Qed.

(** * The properties of the specification *)

(** ** Flattening *)

(** C7.  Flattening gives the [j]-th token of line [n] the absolute positions
    obtained by adding to its line-relative offsets the lengths of text and
    terminator accumulated over the preceding lines, keeps the line-relative
    offsets as [lineCodeUnit] and [n] as [lineNumber], records the terminator
    of line [n] at the absolute offset of the end of the text of that line,
    and numbers the flat tokens consecutively from 0 in the order of
    emission. *)
Theorem flattenLineTokens_positions (state : State.t) :
  let lines := State.lines state in
  let flattened := flattenLineTokens state in
  (forall n line j lineToken,
      nth_error lines n = Some line ->
      nth_error (TLine.tokens line) j = Some lineToken ->
      nth_error (FlattenedLines.flatLineTokens flattened) (flatIndexAt lines n + j)
      = Some (FlatLineToken.make (LineToken.kind lineToken) (LineToken.data lineToken)
                (TokenPosition.make
                   (lineTextOffsetAt lines n + LineToken.positionStart lineToken)
                   (LineToken.positionStart lineToken) n)
                (TokenPosition.make
                   (lineTextOffsetAt lines n + LineToken.positionEnd lineToken)
                   (LineToken.positionEnd lineToken) n)
                (flatIndexAt lines n + j)))
  /\ (forall n line,
        nth_error lines n = Some line ->
        nth_error (FlattenedLines.lineTerminators flattened) n
        = Some (LineTerminator.make
                  (lineTextOffsetAt lines n + String.length (TLine.text line))
                  (TLine.lineTerminator line)))
  /\ (forall k flatToken,
        nth_error (FlattenedLines.flatLineTokens flattened) k = Some flatToken ->
        FlatLineToken.flatIndex flatToken = k)
  /\ List.length (FlattenedLines.flatLineTokens flattened)
     = flatIndexAt lines (List.length lines)
  /\ List.length (FlattenedLines.lineTerminators flattened) = List.length lines.
Proof.
  intros lines flattened. subst flattened lines.
  rewrite flattenLineTokens_closed.
  cbn [FlattenedLines.flatLineTokens FlattenedLines.lineTerminators].
  repeat split.
  - intros n line j lineToken Hline Htoken.
    now rewrite (nth_error_flatTokensFrom _ 0 0 0 _ _ _ _ Hline Htoken).
  - intros n line Hline.
    now rewrite (nth_error_lineTerminatorsFrom _ 0 _ _ Hline).
  - intros k flatToken H. now apply wellIndexed_flatTokensFrom in H.
  - apply length_flatTokensFrom.
  - apply length_lineTerminatorsFrom.
Qed.

(** C3.  When the terminator of the last line is the empty string, the text of
    the flattened lines, and with it the text of the snapshot [tryFrom]
    returns, is the concatenation over every line, in order, of its text
    followed by its terminator. *)
Theorem snapshot_text_is_concatenation (state : State.t) :
  (forall line,
      lastLine (State.lines state) = Some line ->
      TLine.lineTerminator line = EmptyString) ->
  FlattenedLines.text (flattenLineTokens state) = concatLines (State.lines state)
  /\ forall snapshot,
       tryFrom state = Some (Ok snapshot) ->
       LexerSnapshot.text snapshot = concatLines (State.lines state).
Proof.
  intros Hlast.
  assert (Htext : FlattenedLines.text (flattenLineTokens state)
                  = concatLines (State.lines state))
    by (rewrite flattenLineTokens_closed; apply joinLines_concatLines, Hlast).
  split; [exact Htext|].
  intros snapshot Htry. rewrite tryFrom_stitch in Htry.
  destruct (stitch (flattenLineTokens state) None
              (FlattenedLines.flatLineTokens (flattenLineTokens state)));
    [|discriminate Htry].
  injection Htry as <-. exact Htext.
Qed.

(** ** The envelope of [tryFrom] *)

(** C6.  For every state [tryFrom] returns a [Result]: the loop of [factory]
    ends, and the outcome is [Ok] with a snapshot or [Err] with a lexer error;
    whatever is thrown is caught. *)
Theorem tryFrom_total (state : State.t) :
  (exists snapshot, tryFrom state = Some (Ok snapshot))
  \/ (exists error, tryFrom state = Some (Err error)).
Proof.
  rewrite tryFrom_stitch.
  destruct (stitch (flattenLineTokens state) None
              (FlattenedLines.flatLineTokens (flattenLineTokens state))) as [entries|e].
  - left. now exists (snapshotOf (flattenLineTokens state) entries).
  - right. now exists (catchThrown e).
Qed.

(** Every flat token that is not a fragment is answered by the entry made of
    it alone, whenever the pass completes. *)
Lemma stitch_whole_members flattenedLines (flatTokens : list FlatLineToken.t) :
  forall pending entries flatToken,
    stitch flattenedLines pending flatTokens = Normal entries ->
    In flatToken flatTokens ->
    fragmentRole (FlatLineToken.kind flatToken) = RoleWhole ->
    In (wholeEntry flatToken) entries.
Proof.
  induction flatTokens as [|head flatTokens IH];
    intros pending entries flatToken Hpass Hin Hwhole; [destruct Hin|].
  destruct pending as [[family tokenStart]|].
  - cbn [stitch] in Hpass.
    destruct (LineTokenKind.eqb (FlatLineToken.kind head) (contentKind family)) eqn:Hcontent.
    + destruct Hin as [<-|Hin]; [|apply (IH _ _ _ Hpass Hin Hwhole)].
      apply LineTokenKind_eqb_eq in Hcontent. rewrite Hcontent in Hwhole.
      destruct family; discriminate Hwhole.
    + destruct (LineTokenKind.eqb (FlatLineToken.kind head) (endKind family)) eqn:Hend;
        [|discriminate Hpass].
      destruct (stitch flattenedLines None flatTokens) as [entries'|e] eqn:Hrest;
        [|discriminate Hpass].
      injection Hpass as <-.
      destruct Hin as [<-|Hin]; [|right; apply (IH _ _ _ Hrest Hin Hwhole)].
      apply LineTokenKind_eqb_eq in Hend. rewrite Hend in Hwhole.
      destruct family; discriminate Hwhole.
  - rewrite stitch_whole in Hpass.
    destruct (fragmentRole (FlatLineToken.kind head)) as [family|family|family|] eqn:Hrole.
    + destruct Hin as [<-|Hin]; [congruence | apply (IH _ _ _ Hpass Hin Hwhole)].
    + destruct (stitch flattenedLines None flatTokens) as [entries'|e] eqn:Hrest;
        [|discriminate Hpass].
      injection Hpass as <-.
      destruct Hin as [<-|Hin]; [now left | right; apply (IH _ _ _ Hrest Hin Hwhole)].
    + destruct (stitch flattenedLines None flatTokens) as [entries'|e] eqn:Hrest;
        [|discriminate Hpass].
      injection Hpass as <-.
      destruct Hin as [<-|Hin]; [now left | right; apply (IH _ _ _ Hrest Hin Hwhole)].
    + destruct (stitch flattenedLines None flatTokens) as [entries'|e] eqn:Hrest;
        [|discriminate Hpass].
      injection Hpass as <-.
      destruct Hin as [<-|Hin]; [now left | right; apply (IH _ _ _ Hrest Hin Hwhole)].
Qed.

(** C1, as amended.  [tryFrom] does not read the status of the lines: its
    result for a state, with or without lines of status [Error] or
    [TouchedWithError], is its result for the same lines with every status
    cleared; and whenever the fragments among the line tokens pair up, it
    returns [Ok] with the snapshot of the tokens the lines hold: its text is
    the text of the lines joined by their terminators, its line terminators
    are those of the lines, its tokens and its comments are the entries the
    flat tokens of the lines stitch into, and every line token that is not a
    fragment is among these entries, as the token or the comment made of it
    with its data and its flattened positions. *)
Theorem tryFrom_ignores_line_status (state : State.t) :
  let lines := State.lines state in
  let flattened := flattenLineTokens state in
  tryFrom state = tryFrom (clearStatus state)
  /\ (fragmentsPaired None (stateKinds state) = true ->
      exists entries,
        stitch flattened None (FlattenedLines.flatLineTokens flattened) = Normal entries
        /\ tryFrom state
           = Some (Ok (LexerSnapshot.make (joinLines lines) (tokensOf entries)
                         (commentsOf entries) (lineTerminatorsFrom 0 lines)))
        /\ (forall n line j lineToken,
               nth_error lines n = Some line ->
               nth_error (TLine.tokens line) j = Some lineToken ->
               fragmentRole (LineToken.kind lineToken) = RoleWhole ->
               In (wholeEntry
                     (flatten (lineTextOffsetAt lines n) n (flatIndexAt lines n + j)
                        lineToken))
                 entries)).
Proof.
  intros lines flattened. subst lines flattened. split.
  - unfold tryFrom, tryFrom_fuel, factory.
    now rewrite flattenLineTokens_clearStatus.
  - intros Hpaired. rewrite <- kinds_flattenLineTokens in Hpaired.
    destruct (stitch_paired (flattenLineTokens state) _ None Hpaired) as [entries Hpass].
    specialize (Hpass []). rewrite app_nil_r in Hpass. cbn [stitch prepend] in Hpass.
    rewrite app_nil_r in Hpass.
    exists entries. split; [exact Hpass|]. split.
    + rewrite tryFrom_stitch, Hpass. unfold snapshotOf.
      now rewrite flattenLineTokens_closed.
    + intros n line j lineToken Hline Htoken Hwhole.
      apply (stitch_whole_members (flattenLineTokens state)
               (FlattenedLines.flatLineTokens (flattenLineTokens state)) None);
        [exact Hpass| |exact Hwhole].
      rewrite flattenLineTokens_closed. cbn [FlattenedLines.flatLineTokens].
      apply (nth_error_In _ (flatIndexAt (State.lines state) n + j)).
      now rewrite (nth_error_flatTokensFrom (State.lines state) 0 0 0 n line j lineToken
                     Hline Htoken).
Qed.

(** C2, as amended.  When the tokens before a Start fragment pair up and the
    first token after its Content fragments is not the End of the construct,
    the invariant error thrown by the stitching is caught by [tryFrom] and
    returned as an [Err] that carries it in a [CommonError]. *)
Theorem invariant_error_returned_as_err (state : State.t)
    (before : list FlatLineToken.t) (tokenStart : FlatLineToken.t)
    (family : UnterminatedMultilineTokenKind.t)
    (contents : list FlatLineToken.t) (found : FlatLineToken.t)
    (rest : list FlatLineToken.t) :
  FlattenedLines.flatLineTokens (flattenLineTokens state)
  = before ++ tokenStart :: contents ++ found :: rest ->
  fragmentsPaired None (map FlatLineToken.kind before) = true ->
  FlatLineToken.kind tokenStart = startKind family ->
  Forall (fun token => FlatLineToken.kind token = contentKind family) contents ->
  FlatLineToken.kind found <> contentKind family ->
  FlatLineToken.kind found <> endKind family ->
  tryFrom state = Some (Err (CommonError (InvariantError invariantMessage found))).
Proof.
  intros Hflat Hbefore Hstart Hcontents Hcontent Hend.
  rewrite tryFrom_stitch, Hflat.
  destruct (stitch_paired (flattenLineTokens state) before None Hbefore) as [entries ->].
  now rewrite (stitch_invariant _ family _ _ _ _ Hstart Hcontents Hcontent Hend).
Qed.

(** C4, as amended.  When the tokens before a Start fragment pair up and the
    Start is followed by Content fragments of its construct up to the end of
    the flat tokens, [tryFrom] returns [Err] with the lexer error
    [UnterminatedMultilineTokenError] of that construct, at the grapheme
    position of the Start fragment. *)
Theorem unterminated_run_error (state : State.t)
    (before : list FlatLineToken.t) (tokenStart : FlatLineToken.t)
    (family : UnterminatedMultilineTokenKind.t) (contents : list FlatLineToken.t) :
  FlattenedLines.flatLineTokens (flattenLineTokens state)
  = before ++ tokenStart :: contents ->
  fragmentsPaired None (map FlatLineToken.kind before) = true ->
  FlatLineToken.kind tokenStart = startKind family ->
  Forall (fun token => FlatLineToken.kind token = contentKind family) contents ->
  tryFrom state
  = Some (Err (LexerError
                 (UnterminatedMultilineTokenError
                    (graphemePositionStartFrom
                       (FlattenedLines.text (flattenLineTokens state))
                       (FlattenedLines.lineTerminators (flattenLineTokens state))
                       (OfFlatLineToken tokenStart))
                    family))).
Proof.
  intros Hflat Hbefore Hstart Hcontents.
  rewrite tryFrom_stitch, Hflat.
  destruct (stitch_paired (flattenLineTokens state) before None Hbefore) as [entries ->].
  now rewrite (stitch_unterminated _ family _ _ Hstart Hcontents).
Qed.

(** C5.  At a Start fragment followed by Content fragments of its construct
    and by the End fragment of that construct, one iteration of the loop of
    [factory] pushes exactly one entry and resumes after the End fragment.
    The entry is a multiline comment for [MultilineCommentStart], a token of
    kind [StringLiteral] for [StringLiteralStart] and a token of kind
    [Identifier] for [QuotedIdentifierStart]; its data is the substring of the
    flattened text from the code unit where the Start begins to the code unit
    where the End ends.  In the snapshot [tryFrom] returns, this entry stands
    between what the tokens before the run and the tokens after it give. *)
Theorem closed_run_one_entry (state : State.t)
    (before : list FlatLineToken.t) (tokenStart : FlatLineToken.t)
    (family : UnterminatedMultilineTokenKind.t)
    (contents : list FlatLineToken.t) (tokenEnd : FlatLineToken.t)
    (rest : list FlatLineToken.t) :
  let flattened := flattenLineTokens state in
  let positionStart := FlatLineToken.positionStart tokenStart in
  let positionEnd := FlatLineToken.positionEnd tokenEnd in
  let data :=
    Js.substring (FlattenedLines.text flattened)
      (TokenPosition.codeUnit positionStart) (TokenPosition.codeUnit positionEnd) in
  let entry :=
    match family with
    | UnterminatedMultilineTokenKind.MultilineComment =>
        CommentEntry
          (Comment.make CommentKind.Multiline data
             (negb (TokenPosition.lineNumber positionStart
                    =? TokenPosition.lineNumber positionEnd))
             positionStart positionEnd)
    | UnterminatedMultilineTokenKind.String =>
        TokenEntry
          (Token.make (TokenKind.value TokenKind.StringLiteral) data positionStart positionEnd)
    | UnterminatedMultilineTokenKind.QuotedIdentifier =>
        TokenEntry
          (Token.make (TokenKind.value TokenKind.Identifier) data positionStart positionEnd)
    end in
  FlattenedLines.flatLineTokens flattened
  = before ++ tokenStart :: contents ++ tokenEnd :: rest ->
  FlatLineToken.kind tokenStart = startKind family ->
  Forall (fun token => FlatLineToken.kind token = contentKind family) contents ->
  FlatLineToken.kind tokenEnd = endKind family ->
  (forall fuel tokens comments,
      factory_loop (S fuel) flattened (List.length before) tokens comments
      = factory_loop fuel flattened (List.length before + List.length contents + 2)
          (fst (pushEntry tokens comments entry))
          (snd (pushEntry tokens comments entry)))
  /\ (forall snapshot,
        tryFrom state = Some (Ok snapshot) ->
        exists emittedBefore emittedAfter,
          stitch flattened None before = Normal emittedBefore
          /\ stitch flattened None rest = Normal emittedAfter
          /\ LexerSnapshot.tokens snapshot
             = tokensOf (emittedBefore ++ entry :: emittedAfter)
          /\ LexerSnapshot.comments snapshot
             = commentsOf (emittedBefore ++ entry :: emittedAfter)).
Proof.
  intros flattened positionStart positionEnd data entry Hflat Hstart Hcontents Hend.
  assert (Hentry : entry = stitched (FlattenedLines.text flattened) family tokenStart tokenEnd)
    by (subst entry; now destruct family).
  rewrite Hentry. split.
  - apply (factory_loop_run flattened before tokenStart family contents tokenEnd rest
             (wellIndexed_flattenLineTokens state) Hflat Hstart Hcontents Hend).
  - intros snapshot Htry. rewrite tryFrom_stitch in Htry. fold flattened in Htry.
    destruct (stitch flattened None (FlattenedLines.flatLineTokens flattened))
      as [entries|e] eqn:Hpass; [|discriminate Htry].
    injection Htry as <-. rewrite Hflat in Hpass.
    destruct (stitch_before_start flattened tokenStart family before Hstart None _ _ Hpass)
      as [emittedBefore Hbefore].
    rewrite Hbefore, (stitch_run _ family _ _ _ _ Hstart Hcontents Hend) in Hpass.
    destruct (stitch flattened None rest) as [emittedAfter|e] eqn:Hrest;
      [|discriminate Hpass].
    cbn [emit prepend] in Hpass. injection Hpass as <-.
    exists emittedBefore, emittedAfter. repeat split.
    specialize (Hbefore []). rewrite app_nil_r in Hbefore.
    rewrite Hbefore. cbn [stitch prepend]. now rewrite app_nil_r.
Qed.

(** ** Order and kinds in a snapshot *)

(** C8, as amended.  For every state whose lines keep their invariants (each
    token of a line ends before the next begins, no token is empty, and every
    token ends within the text of its line) and whose fragments pair up,
    [tryFrom] returns a snapshot; its tokens and its comments are each in
    strictly increasing order of [positionStart.codeUnit], and merged by
    [positionStart.codeUnit] they form a sequence of spans that do not overlap
    and begin in strictly increasing order. *)
Theorem snapshot_entries_ordered (state : State.t) :
  Forall lineInvariant (State.lines state) ->
  fragmentsPaired None (stateKinds state) = true ->
  exists snapshot,
    tryFrom state = Some (Ok snapshot)
    /\ StronglySorted lt (map tokenStart (LexerSnapshot.tokens snapshot))
    /\ StronglySorted lt (map commentStart (LexerSnapshot.comments snapshot))
    /\ separatedFrom 0
         (map entrySpan
            (mergeByStart (LexerSnapshot.tokens snapshot) (LexerSnapshot.comments snapshot)))
    /\ StronglySorted lt
         (map entryStart
            (mergeByStart (LexerSnapshot.tokens snapshot) (LexerSnapshot.comments snapshot))).
Proof.
  intros Hlines Hpaired.
  rewrite <- kinds_flattenLineTokens in Hpaired.
  destruct (stitch_paired (flattenLineTokens state) _ None Hpaired) as [entries Hpass].
  specialize (Hpass []). rewrite app_nil_r in Hpass. cbn [stitch prepend] in Hpass.
  rewrite app_nil_r in Hpass.
  exists (snapshotOf (flattenLineTokens state) entries).
  rewrite tryFrom_stitch, Hpass. split; [reflexivity|].
  assert (Hsep : separatedFrom 0 (map entrySpan entries)).
  { apply (stitch_separated (flattenLineTokens state)
             (FlattenedLines.flatLineTokens (flattenLineTokens state)) None 0 entries);
      [|exact Hpass].
    rewrite flattenLineTokens_closed. cbn [FlattenedLines.flatLineTokens].
    now apply separated_flatTokensFrom. }
  cbn [snapshotOf LexerSnapshot.tokens LexerSnapshot.comments].
  rewrite (mergeByStart_entries entries 0 Hsep).
  repeat split.
  - apply separated_tokensOf, separatedFrom_sorted in Hsep.
    now rewrite !map_map in Hsep.
  - apply separated_commentsOf, separatedFrom_sorted in Hsep.
    now rewrite !map_map in Hsep.
  - exact Hsep.
  - apply separatedFrom_sorted in Hsep. now rewrite map_map in Hsep.
Qed.

(** C10.  When no Content or End fragment stands outside a run begun by the
    Start fragment of its construct, every token of the snapshot [tryFrom]
    returns carries a kind of [TokenKind]: it was stitched from a run, or the
    [default] branch of [factory] cast it from a flat token whose kind is a
    single-line kind, which [TokenKind] has under the same value. *)
Theorem cast_tokens_valid (state : State.t) (snapshot : LexerSnapshot.t) :
  fragmentsInsideRuns None (stateKinds state) = true ->
  tryFrom state = Some (Ok snapshot) ->
  Forall (fun token =>
            Token.validKind token = true
            /\ (castOfSingleLineKind token \/ stitchedFromRun token))
    (LexerSnapshot.tokens snapshot).
Proof.
  intros Hruns Htry.
  rewrite <- kinds_flattenLineTokens in Hruns. rewrite tryFrom_stitch in Htry.
  destruct (stitch (flattenLineTokens state) None
              (FlattenedLines.flatLineTokens (flattenLineTokens state)))
    as [entries|e] eqn:Hpass; [|discriminate Htry].
  injection Htry as <-.
  apply (stitch_sound (flattenLineTokens state) _ None entries Hruns Hpass).
Qed.

(** ** Grapheme positions *)


(** * Further properties of the snapshot builder *)

(** ** When [tryFrom] returns [Ok] *)

Lemma stitch_normal_paired flattenedLines (flatTokens : list FlatLineToken.t) :
  forall pending entries,
    stitch flattenedLines pending flatTokens = Normal entries ->
    fragmentsPaired (option_map fst pending) (map FlatLineToken.kind flatTokens) = true.
Proof.
  induction flatTokens as [|flatToken flatTokens IH]; intros pending entries Hpass.
  - destruct pending as [[family tokenStart]|]; [discriminate Hpass|reflexivity].
  - destruct pending as [[family tokenStart]|].
    + cbn [map option_map fst fragmentsPaired]. cbn [stitch] in Hpass.
      destruct (LineTokenKind.eqb (FlatLineToken.kind flatToken) (contentKind family)).
      * apply (IH (Some (family, tokenStart)) entries Hpass).
      * destruct (LineTokenKind.eqb (FlatLineToken.kind flatToken) (endKind family));
          [|discriminate Hpass].
        destruct (stitch flattenedLines None flatTokens) as [entries'|e] eqn:Hrest;
          [|discriminate Hpass].
        apply (IH None entries' Hrest).
    + cbn [map option_map fragmentsPaired]. rewrite stitch_whole in Hpass.
      destruct (fragmentRole (FlatLineToken.kind flatToken)) as [family|family|family|];
        try (destruct (stitch flattenedLines None flatTokens) as [entries'|e] eqn:Hrest;
             [apply (IH None entries' Hrest)|discriminate Hpass]).
      apply (IH (Some (family, flatToken)) entries Hpass).
Qed.

Lemma tryFrom_ok_iff_paired_kinds (state : State.t) :
  (exists snapshot, tryFrom state = Some (Ok snapshot))
  <-> fragmentsPaired None (stateKinds state) = true.
Proof.
  rewrite <- kinds_flattenLineTokens, tryFrom_stitch. split.
  - intros [snapshot Htry].
    destruct (stitch (flattenLineTokens state) None
                (FlattenedLines.flatLineTokens (flattenLineTokens state)))
      as [entries|e] eqn:Hpass; [|discriminate Htry].
    apply (stitch_normal_paired _ _ None entries Hpass).
  - intros Hpaired.
    destruct (stitch_paired (flattenLineTokens state) _ None Hpaired) as [entries Hpass].
    specialize (Hpass []). rewrite app_nil_r in Hpass. cbn [stitch prepend] in Hpass.
    rewrite Hpass. now eexists.
Qed.

(** X1.  [tryFrom] returns [Ok] exactly for the states whose fragments pair
    up: every Start fragment is followed by Content fragments of its construct
    only and then by the End fragment of that construct. *)
Theorem tryFrom_ok_iff_paired (state : State.t) :
  (exists snapshot, tryFrom state = Some (Ok snapshot))
  <-> fragmentsPaired None (stateKinds state) = true.
Proof. exact (tryFrom_ok_iff_paired_kinds state). Qed.

(** ** What [factory] throws *)

(** Whenever the loop of [factory] returns, with whatever fuel, it returns
    what the pass over the remaining tokens gives. *)
Lemma factory_loop_result flattenedLines :
  wellIndexed (FlattenedLines.flatLineTokens flattenedLines) ->
  forall fuel flatIndex tokens comments result,
    factory_loop fuel flattenedLines flatIndex tokens comments = Some result ->
    result
    = extend tokens comments
        (stitch flattenedLines None
           (skipn flatIndex (FlattenedLines.flatLineTokens flattenedLines))).
Proof.
  intros Hidx. induction fuel as [|fuel IH]; intros i tokens comments result Hloop;
    [discriminate Hloop|].
  cbn [factory_loop] in Hloop.
  destruct (nth_error (FlattenedLines.flatLineTokens flattenedLines) i)
    as [flatToken|] eqn:Hi.
  - rewrite (@skipn_nth_error _ _ _ _ Hi). cbn [stitch].
    rewrite Nat.add_1_r in Hloop.
    pose proof (readMultilineComment_stitch flattenedLines flatToken i Hidx Hi) as Hcomment.
    pose proof (readQuotedIdentifier_stitch flattenedLines flatToken i Hidx Hi) as Hquoted.
    pose proof (readStringLiteral_stitch flattenedLines flatToken i Hidx Hi) as Hstring.
    destruct (FlatLineToken.kind flatToken);
      try (apply IH in Hloop; rewrite Hloop; apply extend_emit_token);
      try (apply IH in Hloop; rewrite Hloop; apply extend_emit_comment).
    + destruct (readMultilineComment flattenedLines flatToken) as [read|e].
      * destruct Hcomment as (_ & _ & ->). rewrite Nat.add_1_r in Hloop.
        apply IH in Hloop. rewrite Hloop. apply extend_emit_comment.
      * rewrite Hcomment. now injection Hloop as <-.
    + destruct (readQuotedIdentifier flattenedLines flatToken) as [read|e].
      * destruct Hquoted as (_ & _ & ->). rewrite Nat.add_1_r in Hloop.
        apply IH in Hloop. rewrite Hloop. apply extend_emit_token.
      * rewrite Hquoted. now injection Hloop as <-.
    + destruct (readStringLiteral flattenedLines flatToken) as [read|e].
      * destruct Hstring as (_ & _ & ->). rewrite Nat.add_1_r in Hloop.
        apply IH in Hloop. rewrite Hloop. apply extend_emit_token.
      * rewrite Hstring. now injection Hloop as <-.
  - injection Hloop as <-.
    apply nth_error_None in Hi. rewrite skipn_all2 by exact Hi.
    simpl. now rewrite !app_nil_r.
Qed.

Lemma Forall_content_cons family (token : FlatLineToken.t) (contents : list FlatLineToken.t) :
  LineTokenKind.eqb (FlatLineToken.kind token) (contentKind family) = true ->
  Forall (fun token => FlatLineToken.kind token = contentKind family) contents ->
  Forall (fun token => FlatLineToken.kind token = contentKind family) (token :: contents).
Proof.
  intros Hkind Hcontents. constructor; [now apply LineTokenKind_eqb_eq|exact Hcontents].
Qed.

(** With a run open, the pass throws because the run reaches the end of the
    tokens, because a token that is neither Content nor End of the construct
    follows, or, the run being closed, because the tokens after it throw. *)
Lemma stitch_pending_throw flattenedLines family tokenStart
    (flatTokens : list FlatLineToken.t) :
  forall e,
    stitch flattenedLines (Some (family, tokenStart)) flatTokens = Throw e ->
    (Forall (fun token => FlatLineToken.kind token = contentKind family) flatTokens
     /\ e = unterminated flattenedLines tokenStart family)
    \/ (exists contents found rest,
           flatTokens = contents ++ found :: rest
           /\ Forall (fun token => FlatLineToken.kind token = contentKind family) contents
           /\ FlatLineToken.kind found <> contentKind family
           /\ FlatLineToken.kind found <> endKind family
           /\ e = ThrownInnerCommonError (InvariantError invariantMessage found))
    \/ (exists contents tokenEnd rest,
           flatTokens = contents ++ tokenEnd :: rest
           /\ Forall (fun token => FlatLineToken.kind token = contentKind family) contents
           /\ FlatLineToken.kind tokenEnd = endKind family
           /\ stitch flattenedLines None rest = Throw e).
Proof.
  induction flatTokens as [|flatToken flatTokens IH]; intros e Hpass.
  - left. split; [constructor|]. now injection Hpass as <-.
  - cbn [stitch] in Hpass.
    destruct (LineTokenKind.eqb (FlatLineToken.kind flatToken) (contentKind family)) eqn:Hcontent.
    + destruct (IH e Hpass)
        as [[Hall ->]
           |[(contents & found & rest & -> & Hall & Hfound1 & Hfound2 & ->)
            |(contents & tokenEnd & rest & -> & Hall & Hend & Hrest)]].
      * left. split; [now apply Forall_content_cons|reflexivity].
      * right. left. exists (flatToken :: contents), found, rest.
        repeat split; try assumption. now apply Forall_content_cons.
      * right. right. exists (flatToken :: contents), tokenEnd, rest.
        repeat split; try assumption. now apply Forall_content_cons.
    + destruct (LineTokenKind.eqb (FlatLineToken.kind flatToken) (endKind family)) eqn:Hend.
      * right. right. exists [], flatToken, flatTokens.
        repeat split; [constructor|now apply LineTokenKind_eqb_eq|].
        now destruct (stitch flattenedLines None flatTokens).
      * right. left. exists [], flatToken, flatTokens.
        repeat split; [constructor| | |now injection Hpass as <-];
          now apply LineTokenKind_eqb_neq.
Qed.

Lemma fragmentsPaired_run family (tokenStart : FlatLineToken.t)
    (contents : list FlatLineToken.t) (tokenEnd : FlatLineToken.t)
    (rest : list FlatLineToken.t) :
  FlatLineToken.kind tokenStart = startKind family ->
  Forall (fun token => FlatLineToken.kind token = contentKind family) contents ->
  FlatLineToken.kind tokenEnd = endKind family ->
  fragmentsPaired None
    (map FlatLineToken.kind (tokenStart :: contents ++ tokenEnd :: rest))
  = fragmentsPaired None (map FlatLineToken.kind rest).
Proof.
  intros Hstart Hcontents Hend.
  cbn [map fragmentsPaired]. rewrite (fragmentRole_start _ family Hstart).
  induction Hcontents as [|token contents Hkind _ IH].
  - cbn [app map fragmentsPaired].
    now rewrite Hend, content_not_end, LineTokenKind_eqb_refl.
  - cbn [app map fragmentsPaired]. now rewrite Hkind, LineTokenKind_eqb_refl.
Qed.

(** The pass throws at the first run that is not closed; the tokens before
    that run pair up. *)
Lemma stitch_throw flattenedLines :
  forall n (flatTokens : list FlatLineToken.t) e,
    List.length flatTokens <= n ->
    stitch flattenedLines None flatTokens = Throw e ->
    exists before tokenStart family rest,
      flatTokens = before ++ tokenStart :: rest
      /\ fragmentsPaired None (map FlatLineToken.kind before) = true
      /\ FlatLineToken.kind tokenStart = startKind family
      /\ ((Forall (fun token => FlatLineToken.kind token = contentKind family) rest
           /\ e = unterminated flattenedLines tokenStart family)
          \/ (exists contents found rest',
                 rest = contents ++ found :: rest'
                 /\ Forall (fun token => FlatLineToken.kind token = contentKind family)
                      contents
                 /\ FlatLineToken.kind found <> contentKind family
                 /\ FlatLineToken.kind found <> endKind family
                 /\ e = ThrownInnerCommonError (InvariantError invariantMessage found))).
Proof.
  induction n as [|n IH]; intros flatTokens e Hlen Hpass.
  - destruct flatTokens; [discriminate Hpass|simpl in Hlen; lia].
  - destruct flatTokens as [|flatToken flatTokens]; [discriminate Hpass|].
    cbn [List.length] in Hlen. rewrite stitch_whole in Hpass.
    assert (Hwhole :
              fragmentRole (FlatLineToken.kind flatToken) <> RoleStart
                UnterminatedMultilineTokenKind.MultilineComment ->
              fragmentRole (FlatLineToken.kind flatToken) <> RoleStart
                UnterminatedMultilineTokenKind.QuotedIdentifier ->
              fragmentRole (FlatLineToken.kind flatToken) <> RoleStart
                UnterminatedMultilineTokenKind.String ->
              stitch flattenedLines None flatTokens = Throw e ->
              exists before tokenStart family rest,
                flatToken :: flatTokens = before ++ tokenStart :: rest
                /\ fragmentsPaired None (map FlatLineToken.kind before) = true
                /\ FlatLineToken.kind tokenStart = startKind family
                /\ ((Forall (fun token => FlatLineToken.kind token = contentKind family) rest
                     /\ e = unterminated flattenedLines tokenStart family)
                    \/ (exists contents found rest',
                           rest = contents ++ found :: rest'
                           /\ Forall (fun token =>
                                        FlatLineToken.kind token = contentKind family)
                                contents
                           /\ FlatLineToken.kind found <> contentKind family
                           /\ FlatLineToken.kind found <> endKind family
                           /\ e = ThrownInnerCommonError
                                    (InvariantError invariantMessage found)))).
    { intros H1 H2 H3 Hrest.
      destruct (IH flatTokens e ltac:(lia) Hrest)
        as (before & tokenStart & family & rest & -> & Hpaired & Hstart & Hcases).
      exists (flatToken :: before), tokenStart, family, rest.
      repeat split; try assumption.
      cbn [map fragmentsPaired].
      destruct (fragmentRole (FlatLineToken.kind flatToken)) as [[]| | |];
        solve [ exact Hpaired | congruence ]. }
    destruct (fragmentRole (FlatLineToken.kind flatToken)) as [family|family|family|] eqn:Hrole;
      try (apply Hwhole; try discriminate;
           now destruct (stitch flattenedLines None flatTokens)).
    apply fragmentRole_startKind in Hrole.
    destruct (stitch_pending_throw _ _ _ _ _ Hpass)
      as [[Hall ->]
         |[(contents & found & rest & -> & Hall & Hfound1 & Hfound2 & ->)
          |(contents & tokenEnd & rest & -> & Hall & Hend & Hrest)]].
    + exists [], flatToken, family, flatTokens. repeat split; try assumption. now left.
    + exists [], flatToken, family, (contents ++ found :: rest).
      repeat split; try assumption. right. now exists contents, found, rest.
    + rewrite length_app in Hlen. cbn [List.length] in Hlen.
      destruct (IH rest e ltac:(lia) Hrest)
        as (before & tokenStart & family' & rest' & -> & Hpaired & Hstart & Hcases).
      exists (flatToken :: contents ++ tokenEnd :: before), tokenStart, family', rest'.
      repeat split; try assumption.
      * cbn [app]. now rewrite <- app_assoc.
      * now rewrite (fragmentsPaired_run family _ _ _ _ Hrole Hall Hend).
Qed.

(** X2.  Whatever [factory] throws comes from the first run that is not
    closed, the tokens before it pairing up: the lexer error of an
    unterminated token, at the Start fragment of a run that reaches the end of
    the flat tokens, or the invariant error, carrying the first token after
    the Start and its Content fragments when that token is not the End of the
    construct. *)
Theorem factory_throws (fuel : nat) (state : State.t) (e : Thrown) :
  factory fuel state = Some (Throw e) ->
  exists before tokenStart family rest,
    FlattenedLines.flatLineTokens (flattenLineTokens state)
    = before ++ tokenStart :: rest
    /\ fragmentsPaired None (map FlatLineToken.kind before) = true
    /\ FlatLineToken.kind tokenStart = startKind family
    /\ ((Forall (fun token => FlatLineToken.kind token = contentKind family) rest
         /\ e = ThrownInnerLexerError
                  (UnterminatedMultilineTokenError
                     (graphemePositionStartFrom
                        (FlattenedLines.text (flattenLineTokens state))
                        (FlattenedLines.lineTerminators (flattenLineTokens state))
                        (OfFlatLineToken tokenStart))
                     family))
        \/ (exists contents found rest',
               rest = contents ++ found :: rest'
               /\ Forall (fun token => FlatLineToken.kind token = contentKind family)
                    contents
               /\ FlatLineToken.kind found <> contentKind family
               /\ FlatLineToken.kind found <> endKind family
               /\ e = ThrownInnerCommonError (InvariantError invariantMessage found))).
Proof.
  unfold factory. intros Hthrow.
  destruct (factory_loop fuel (flattenLineTokens state) 0 [] []) as [result|] eqn:Hloop;
    [|discriminate Hthrow].
  apply (factory_loop_result _ (wellIndexed_flattenLineTokens state)) in Hloop.
  cbn [skipn] in Hloop. subst result.
  destruct (stitch (flattenLineTokens state) None
              (FlattenedLines.flatLineTokens (flattenLineTokens state)))
    as [entries|e'] eqn:Hpass; [discriminate Hthrow|].
  cbn [extend] in Hthrow. injection Hthrow as <-.
  apply (stitch_throw _ _ _ _ (le_n _) Hpass).
Qed.

(** ** How many entries a snapshot has *)

Lemma isCommentKind_content family : isCommentKind (contentKind family) = false.
Proof. now destruct family. Qed.

Lemma isCommentKind_end family : isCommentKind (endKind family) = false.
Proof. now destruct family. Qed.

Lemma continuesRun_content family : continuesRun (contentKind family) = true.
Proof. now destruct family. Qed.

Lemma continuesRun_end family : continuesRun (endKind family) = true.
Proof. now destruct family. Qed.

Lemma wholeEntry_cases (flatToken : FlatLineToken.t) :
  isStartKind (FlatLineToken.kind flatToken) = false ->
  (isCommentKind (FlatLineToken.kind flatToken) = true
   /\ wholeEntry flatToken = CommentEntry (readWholeComment flatToken))
  \/ (isCommentKind (FlatLineToken.kind flatToken) = false
      /\ wholeEntry flatToken = TokenEntry (castToken flatToken)).
Proof.
  unfold wholeEntry, readWholeComment, isStartKind.
  destruct (FlatLineToken.kind flatToken); intros H;
    first [ discriminate H | left; split; reflexivity | right; split; reflexivity ].
Qed.

Lemma isStartKind_role (kind : LineTokenKind.t) :
  isStartKind kind = match fragmentRole kind with RoleStart _ => true | _ => false end.
Proof. reflexivity. Qed.

Lemma length_entries (entries : list Entry) :
  List.length (tokensOf entries) + List.length (commentsOf entries) = List.length entries.
Proof.
  induction entries as [|[token|comment] entries IH]; simpl; lia.
Qed.

Lemma stitch_length flattenedLines (flatTokens : list FlatLineToken.t) :
  forall pending entries,
    stitch flattenedLines pending flatTokens = Normal entries ->
    List.length entries
    + match pending with Some _ => 1 | None => 0 end
    <= List.length flatTokens + match pending with Some _ => 1 | None => 0 end
    /\ (pending <> None -> List.length entries <= List.length flatTokens).
Proof.
  induction flatTokens as [|flatToken flatTokens IH]; intros pending entries Hpass.
  - destruct pending as [[family tokenStart]|]; [discriminate Hpass|].
    injection Hpass as <-. simpl. split; [lia|congruence].
  - destruct pending as [[family tokenStart]|].
    + cbn [stitch] in Hpass.
      destruct (LineTokenKind.eqb (FlatLineToken.kind flatToken) (contentKind family)).
      * destruct (IH _ _ Hpass) as [_ H]. specialize (H ltac:(discriminate)).
        cbn [List.length]. split; intros; lia.
      * destruct (LineTokenKind.eqb (FlatLineToken.kind flatToken) (endKind family));
          [|discriminate Hpass].
        destruct (stitch flattenedLines None flatTokens) as [entries'|e] eqn:Hrest;
          [|discriminate Hpass].
        injection Hpass as <-. destruct (IH _ _ Hrest) as [H _].
        cbn [List.length] in *. split; intros; lia.
    + rewrite stitch_whole in Hpass.
      destruct (fragmentRole (FlatLineToken.kind flatToken)) as [family|family|family|];
        try (destruct (stitch flattenedLines None flatTokens) as [entries'|e] eqn:Hrest;
             [|discriminate Hpass];
             injection Hpass as <-; destruct (IH _ _ Hrest) as [H _];
             cbn [List.length] in *; split; [lia|congruence]).
      destruct (IH _ _ Hpass) as [_ H]. specialize (H ltac:(discriminate)).
      cbn [List.length]. split; [lia|congruence].
Qed.

Lemma stitch_comment_count flattenedLines (flatTokens : list FlatLineToken.t) :
  forall pending entries,
    stitch flattenedLines pending flatTokens = Normal entries ->
    List.length (commentsOf entries)
    = pendingComments pending
      + List.length (filter isCommentKind (map FlatLineToken.kind flatTokens)).
Proof.
  induction flatTokens as [|flatToken flatTokens IH]; intros pending entries Hpass.
  - destruct pending as [[family tokenStart]|]; [discriminate Hpass|].
    now injection Hpass as <-.
  - destruct pending as [[family tokenStart]|].
    + cbn [stitch] in Hpass. cbn [map filter].
      destruct (LineTokenKind.eqb (FlatLineToken.kind flatToken) (contentKind family)) eqn:Hc.
      * apply LineTokenKind_eqb_eq in Hc. rewrite Hc, isCommentKind_content.
        apply (IH _ _ Hpass).
      * destruct (LineTokenKind.eqb (FlatLineToken.kind flatToken) (endKind family)) eqn:He;
          [|discriminate Hpass].
        apply LineTokenKind_eqb_eq in He. rewrite He, isCommentKind_end.
        destruct (stitch flattenedLines None flatTokens) as [entries'|e] eqn:Hrest;
          [|discriminate Hpass].
        injection Hpass as <-. pose proof (IH _ _ Hrest) as Hcount.
        cbn [pendingComments] in Hcount.
        destruct family; cbn [stitched commentsOf pendingComments List.length]; lia.
    + rewrite stitch_whole in Hpass. cbn [map filter pendingComments].
      destruct (fragmentRole (FlatLineToken.kind flatToken)) as [family|family|family|] eqn:Hrole.
      * apply fragmentRole_startKind in Hrole. rewrite Hrole.
        pose proof (IH _ _ Hpass) as Hcount.
        destruct family; cbn [startKind isCommentKind pendingComments List.length] in *; lia.
      * destruct (stitch flattenedLines None flatTokens) as [entries'|e] eqn:Hrest;
          [|discriminate Hpass].
        injection Hpass as <-. pose proof (IH _ _ Hrest) as Hcount.
        destruct (wholeEntry_cases flatToken) as [[-> ->]|[-> ->]];
          [unfold isStartKind; now rewrite Hrole| |];
          cbn [commentsOf pendingComments List.length] in *; lia.
      * destruct (stitch flattenedLines None flatTokens) as [entries'|e] eqn:Hrest;
          [|discriminate Hpass].
        injection Hpass as <-. pose proof (IH _ _ Hrest) as Hcount.
        destruct (wholeEntry_cases flatToken) as [[-> ->]|[-> ->]];
          [unfold isStartKind; now rewrite Hrole| |];
          cbn [commentsOf pendingComments List.length] in *; lia.
      * destruct (stitch flattenedLines None flatTokens) as [entries'|e] eqn:Hrest;
          [|discriminate Hpass].
        injection Hpass as <-. pose proof (IH _ _ Hrest) as Hcount.
        destruct (wholeEntry_cases flatToken) as [[-> ->]|[-> ->]];
          [unfold isStartKind; now rewrite Hrole| |];
          cbn [commentsOf pendingComments List.length] in *; lia.
Qed.

Lemma stitch_token_count flattenedLines (flatTokens : list FlatLineToken.t) :
  forall pending entries,
    fragmentsInsideRuns (option_map fst pending) (map FlatLineToken.kind flatTokens) = true ->
    stitch flattenedLines pending flatTokens = Normal entries ->
    List.length (tokensOf entries)
    = pendingTokens pending
      + List.length (filter isTokenHead (map FlatLineToken.kind flatTokens)).
Proof.
  induction flatTokens as [|flatToken flatTokens IH]; intros pending entries Hruns Hpass.
  - destruct pending as [[family tokenStart]|]; [discriminate Hpass|].
    now injection Hpass as <-.
  - destruct pending as [[family tokenStart]|].
    + cbn [stitch] in Hpass. cbn [map filter].
      cbn [map option_map fst fragmentsInsideRuns] in Hruns.
      destruct (LineTokenKind.eqb (FlatLineToken.kind flatToken) (contentKind family)) eqn:Hc.
      * apply LineTokenKind_eqb_eq in Hc. unfold isTokenHead at 1.
        rewrite Hc, continuesRun_content, andb_false_r.
        apply (IH (Some (family, tokenStart)) _ Hruns Hpass).
      * destruct (LineTokenKind.eqb (FlatLineToken.kind flatToken) (endKind family)) eqn:He;
          [|discriminate Hpass].
        apply LineTokenKind_eqb_eq in He. unfold isTokenHead at 1.
        rewrite He, continuesRun_end, andb_false_r.
        destruct (stitch flattenedLines None flatTokens) as [entries'|e] eqn:Hrest;
          [|discriminate Hpass].
        injection Hpass as <-. pose proof (IH None _ Hruns Hrest) as Hcount.
        cbn [pendingTokens] in Hcount.
        destruct family; cbn [stitched tokensOf pendingTokens List.length]; lia.
    + rewrite stitch_whole in Hpass. cbn [map filter pendingTokens].
      cbn [map option_map fragmentsInsideRuns] in Hruns.
      destruct (fragmentRole (FlatLineToken.kind flatToken)) as [family|family|family|] eqn:Hrole;
        try discriminate Hruns.
      * apply fragmentRole_startKind in Hrole.
        pose proof (IH (Some (family, flatToken)) _ Hruns Hpass) as Hcount. rewrite Hrole.
        destruct family; cbn [pendingTokens List.length] in *;
          [change (isTokenHead (startKind UnterminatedMultilineTokenKind.MultilineComment))
             with false
          |change (isTokenHead (startKind UnterminatedMultilineTokenKind.QuotedIdentifier))
             with true
          |change (isTokenHead (startKind UnterminatedMultilineTokenKind.String))
             with true];
          cbn [List.length]; lia.
      * destruct (stitch flattenedLines None flatTokens) as [entries'|e] eqn:Hrest;
          [|discriminate Hpass].
        injection Hpass as <-. pose proof (IH None _ Hruns Hrest) as Hcount.
        assert (Hcontinues : continuesRun (FlatLineToken.kind flatToken) = false)
          by (unfold continuesRun; now rewrite Hrole).
        unfold isTokenHead at 1. rewrite Hcontinues, andb_true_r.
        destruct (wholeEntry_cases flatToken) as [[-> ->]|[-> ->]];
          [unfold isStartKind; now rewrite Hrole| |];
          cbn [tokensOf pendingTokens List.length negb] in *; lia.
Qed.

(** X3.  In the snapshot [tryFrom] returns there is one comment for each line
    token of kind [LineComment], [MultilineComment] or
    [MultilineCommentStart], and tokens and comments together are never more
    than the line tokens.  When no Content or End fragment stands outside a
    run, there is one token for each line token that is neither a comment nor
    a Content or End fragment. *)
Theorem snapshot_entry_counts (state : State.t) (snapshot : LexerSnapshot.t) :
  tryFrom state = Some (Ok snapshot) ->
  List.length (LexerSnapshot.comments snapshot)
  = List.length (filter isCommentKind (stateKinds state))
  /\ List.length (LexerSnapshot.tokens snapshot) + List.length (LexerSnapshot.comments snapshot)
     <= List.length (stateKinds state)
  /\ (fragmentsInsideRuns None (stateKinds state) = true ->
      List.length (LexerSnapshot.tokens snapshot)
      = List.length (filter isTokenHead (stateKinds state))).
Proof.
  intros Htry. rewrite tryFrom_stitch in Htry.
  destruct (stitch (flattenLineTokens state) None
              (FlattenedLines.flatLineTokens (flattenLineTokens state)))
    as [entries|e] eqn:Hpass; [|discriminate Htry].
  injection Htry as <-. cbn [snapshotOf LexerSnapshot.tokens LexerSnapshot.comments].
  rewrite <- kinds_flattenLineTokens. repeat split.
  - apply (stitch_comment_count _ _ None entries Hpass).
  - rewrite length_entries, length_map.
    destruct (stitch_length _ _ None entries Hpass) as [H _]. lia.
  - intros Hruns. apply (stitch_token_count _ _ None entries Hruns Hpass).
Qed.

(** ** States without fragments *)

Lemma stitch_fragment_free flattenedLines (flatTokens : list FlatLineToken.t) :
  forallb (fun kind => negb (isStartKind kind)) (map FlatLineToken.kind flatTokens) = true ->
  stitch flattenedLines None flatTokens = Normal (map wholeEntry flatTokens).
Proof.
  induction flatTokens as [|flatToken flatTokens IH]; intros Hfree; [reflexivity|].
  cbn [map forallb] in Hfree. apply andb_prop in Hfree as [Hhead Hrest].
  rewrite stitch_whole, (IH Hrest). rewrite isStartKind_role in Hhead.
  now destruct (fragmentRole (FlatLineToken.kind flatToken)).
Qed.

Lemma entries_fragment_free (flatTokens : list FlatLineToken.t) :
  forallb (fun kind => negb (isStartKind kind)) (map FlatLineToken.kind flatTokens) = true ->
  tokensOf (map wholeEntry flatTokens)
  = map castToken
      (filter (fun flatToken => negb (isCommentKind (FlatLineToken.kind flatToken))) flatTokens)
  /\ commentsOf (map wholeEntry flatTokens)
     = map readWholeComment
         (filter (fun flatToken => isCommentKind (FlatLineToken.kind flatToken)) flatTokens).
Proof.
  induction flatTokens as [|flatToken flatTokens IH]; intros Hfree; [now split|].
  cbn [map forallb] in Hfree. apply andb_prop in Hfree as [Hhead Hrest].
  destruct (IH Hrest) as [Htokens Hcomments].
  apply negb_true_iff in Hhead. cbn [map filter].
  destruct (wholeEntry_cases flatToken Hhead) as [[-> ->]|[-> ->]];
    cbn [tokensOf commentsOf negb map]; rewrite Htokens, Hcomments; now split.
Qed.

(** X4.  When no line token of the state is the Start fragment of a
    multiline construct, [tryFrom] answers Ok, whatever Content or End
    fragments there are: every flat token of kind [LineComment] or
    [MultilineComment] becomes a comment, every other flat token is cast to a
    token, each list in the order of the flat tokens. *)
Theorem tryFrom_without_start_fragment (state : State.t) :
  forallb (fun kind => negb (isStartKind kind)) (stateKinds state) = true ->
  let flattened := flattenLineTokens state in
  tryFrom state
  = Some (Ok (LexerSnapshot.make (FlattenedLines.text flattened)
                (map castToken
                   (filter (fun flatToken => negb (isCommentKind (FlatLineToken.kind flatToken)))
                      (FlattenedLines.flatLineTokens flattened)))
                (map readWholeComment
                   (filter (fun flatToken => isCommentKind (FlatLineToken.kind flatToken))
                      (FlattenedLines.flatLineTokens flattened)))
                (FlattenedLines.lineTerminators flattened))).
Proof.
  intros Hfree flattened. subst flattened.
  rewrite <- kinds_flattenLineTokens in Hfree.
  rewrite tryFrom_stitch, (stitch_fragment_free _ _ Hfree).
  unfold snapshotOf. destruct (entries_fragment_free _ Hfree) as [-> ->]. reflexivity.
Qed.

(** ** The newline flag of a comment *)

Lemma sameLine_flattenTokens (lineTextOffset lineNumber : nat) (lineTokens : list LineToken.t) :
  forall flatIndex,
    Forall sameLine (flattenTokens lineTextOffset lineNumber flatIndex lineTokens).
Proof.
  induction lineTokens as [|lineToken rest IH]; intros idx; simpl; constructor;
    [reflexivity | apply IH].
Qed.

Lemma sameLine_flatTokensFrom (lines : list TLine.t) :
  forall lineTextOffset lineNumber flatIndex,
    Forall sameLine (flatTokensFrom lineTextOffset lineNumber flatIndex lines).
Proof.
  induction lines as [|line rest IH]; intros off ln idx; simpl; [constructor|].
  apply Forall_app. split; [apply sameLine_flattenTokens | apply IH].
Qed.

Lemma stitch_newline flattenedLines (flatTokens : list FlatLineToken.t) :
  forall pending entries,
    Forall sameLine flatTokens ->
    stitch flattenedLines pending flatTokens = Normal entries ->
    Forall newlineFlagged (commentsOf entries).
Proof.
  induction flatTokens as [|flatToken flatTokens IH]; intros pending entries Hsame Hpass.
  - destruct pending as [[family tokenStart]|]; [discriminate Hpass|].
    injection Hpass as <-. constructor.
  - apply Forall_cons_iff in Hsame as [Hhead Hsame].
    destruct pending as [[family tokenStart]|].
    + cbn [stitch] in Hpass.
      destruct (LineTokenKind.eqb (FlatLineToken.kind flatToken) (contentKind family)).
      * apply (IH _ _ Hsame Hpass).
      * destruct (LineTokenKind.eqb (FlatLineToken.kind flatToken) (endKind family));
          [|discriminate Hpass].
        destruct (stitch flattenedLines None flatTokens) as [entries'|e] eqn:Hrest;
          [|discriminate Hpass].
        injection Hpass as <-. pose proof (IH _ _ Hsame Hrest) as Hcomments.
        destruct family; cbn [stitched commentsOf]; try exact Hcomments.
        constructor; [reflexivity | exact Hcomments].
    + rewrite stitch_whole in Hpass.
      destruct (fragmentRole (FlatLineToken.kind flatToken)) as [family|family|family|] eqn:Hrole;
        [apply (IH _ _ Hsame Hpass)| | |];
        (destruct (stitch flattenedLines None flatTokens) as [entries'|e] eqn:Hrest;
         [|discriminate Hpass];
         injection Hpass as <-; pose proof (IH _ _ Hsame Hrest) as Hcomments;
         unfold wholeEntry;
         destruct (FlatLineToken.kind flatToken); cbn [commentsOf]; try exact Hcomments;
         constructor; try exact Hcomments;
         [split; [reflexivity | exact Hhead] | reflexivity]).
Qed.

(** X5.  In a snapshot [tryFrom] returns, a comment of kind [Line] lies on
    one line and has [containsNewline] true all the same, and a comment of
    kind [Multiline] has [containsNewline] true exactly when it ends on another
    line than it starts on. *)
Theorem snapshot_comment_newline (state : State.t) (snapshot : LexerSnapshot.t) :
  tryFrom state = Some (Ok snapshot) ->
  Forall newlineFlagged (LexerSnapshot.comments snapshot).
Proof.
  intros Htry. rewrite tryFrom_stitch in Htry.
  destruct (stitch (flattenLineTokens state) None
              (FlattenedLines.flatLineTokens (flattenLineTokens state)))
    as [entries|e] eqn:Hpass; [|discriminate Htry].
  injection Htry as <-. cbn [snapshotOf LexerSnapshot.comments].
  apply (stitch_newline (flattenLineTokens state)
           (FlattenedLines.flatLineTokens (flattenLineTokens state)) None entries);
    [|exact Hpass].
  rewrite flattenLineTokens_closed. apply sameLine_flatTokensFrom.
Qed.

(** ** Positions stay within the text *)

Lemma length_joinLines_cons (line : TLine.t) (rest : list TLine.t) :
  String.length (TLine.text line) <= String.length (joinLines (line :: rest))
  /\ (rest <> [] ->
      String.length (joinLines (line :: rest))
      = lineLength line + String.length (joinLines rest)).
Proof.
  destruct rest as [|next rest'].
  - split; [apply Nat.le_refl | congruence].
  - change (joinLines (line :: next :: rest'))
      with (String.append (TLine.text line)
              (String.append (TLine.lineTerminator line) (joinLines (next :: rest')))).
    rewrite !length_append. unfold lineLength. split; intros; lia.
Qed.

Lemma within_flattenTokens (bound lineTextOffset lineNumber : nat) (line : TLine.t)
    (lineTokens : list LineToken.t) :
  lineTextOffset + String.length (TLine.text line) <= bound ->
  Forall (fun lineToken => spanWithin (String.length (TLine.text line)) (lineSpan lineToken))
    lineTokens ->
  forall flatIndex,
    Forall (fun flatToken => spanWithin bound (flatSpan flatToken))
      (flattenTokens lineTextOffset lineNumber flatIndex lineTokens).
Proof.
  intros Hbound Hline.
  induction Hline as [|lineToken rest [Hstart Hend] _ IH]; intros idx; simpl; constructor.
  - unfold spanWithin, flatSpan, flatten, lineSpan in *. simpl in *. lia.
  - apply IH.
Qed.

Lemma within_flatTokensFrom (lines : list TLine.t) :
  Forall tokensWithinLine lines ->
  forall lineTextOffset lineNumber flatIndex,
    Forall (fun flatToken =>
              spanWithin (lineTextOffset + String.length (joinLines lines)) (flatSpan flatToken))
      (flatTokensFrom lineTextOffset lineNumber flatIndex lines).
Proof.
  induction 1 as [|line rest Hline _ IH]; intros off ln idx; [constructor|].
  destruct (length_joinLines_cons line rest) as [Htext Hlength].
  cbn [flatTokensFrom]. apply Forall_app. split.
  - apply (within_flattenTokens _ _ _ line); [lia | exact Hline].
  - destruct rest as [|next rest']; [constructor|].
    rewrite (Hlength ltac:(discriminate)), Nat.add_assoc. apply IH.
Qed.

Lemma stitch_within flattenedLines (bound : nat) (flatTokens : list FlatLineToken.t) :
  forall pending entries,
    Forall (fun flatToken => spanWithin bound (flatSpan flatToken)) flatTokens ->
    (forall family tokenStart,
        pending = Some (family, tokenStart) -> spanWithin bound (flatSpan tokenStart)) ->
    stitch flattenedLines pending flatTokens = Normal entries ->
    Forall (fun entry => spanWithin bound (entrySpan entry)) entries.
Proof.
  induction flatTokens as [|flatToken flatTokens IH]; intros pending entries Hall Hpending Hpass.
  - destruct pending as [[family tokenStart]|]; [discriminate Hpass|].
    injection Hpass as <-. constructor.
  - apply Forall_cons_iff in Hall as [Hhead Hall].
    assert (Hnone : forall family tokenStart,
               @None (UnterminatedMultilineTokenKind.t * FlatLineToken.t)
               = Some (family, tokenStart) -> spanWithin bound (flatSpan tokenStart))
      by discriminate.
    destruct pending as [[family tokenStart]|].
    + cbn [stitch] in Hpass.
      destruct (LineTokenKind.eqb (FlatLineToken.kind flatToken) (contentKind family)).
      * apply (IH _ _ Hall Hpending Hpass).
      * destruct (LineTokenKind.eqb (FlatLineToken.kind flatToken) (endKind family));
          [|discriminate Hpass].
        destruct (stitch flattenedLines None flatTokens) as [entries'|e] eqn:Hrest;
          [|discriminate Hpass].
        injection Hpass as <-. constructor; [|apply (IH _ _ Hall Hnone Hrest)].
        rewrite entrySpan_stitched.
        destruct (Hpending family tokenStart eq_refl) as [Hstart _].
        destruct Hhead as [_ Hend]. split; [exact Hstart | exact Hend].
    + rewrite stitch_whole in Hpass.
      destruct (fragmentRole (FlatLineToken.kind flatToken)) as [family|family|family|];
        try (destruct (stitch flattenedLines None flatTokens) as [entries'|e] eqn:Hrest;
             [|discriminate Hpass];
             injection Hpass as <-; constructor; [|apply (IH _ _ Hall Hnone Hrest)];
             rewrite entrySpan_wholeEntry; exact Hhead).
      apply (IH (Some (family, flatToken)) _ Hall); [|exact Hpass].
      intros family' tokenStart' Heq. injection Heq as _ <-. exact Hhead.
Qed.

Lemma within_tokensOf (bound : nat) (entries : list Entry) :
  Forall (fun entry => spanWithin bound (entrySpan entry)) entries ->
  Forall (fun token =>
            TokenPosition.codeUnit (Token.positionStart token) <= bound
            /\ TokenPosition.codeUnit (Token.positionEnd token) <= bound)
    (tokensOf entries)
  /\ Forall (fun comment =>
               TokenPosition.codeUnit (Comment.positionStart comment) <= bound
               /\ TokenPosition.codeUnit (Comment.positionEnd comment) <= bound)
       (commentsOf entries).
Proof.
  induction 1 as [|[token|comment] entries Hhead _ [IHtokens IHcomments]]; cbn [tokensOf commentsOf].
  - split; constructor.
  - split; [constructor; [exact Hhead | exact IHtokens] | exact IHcomments].
  - split; [exact IHtokens | constructor; [exact Hhead | exact IHcomments]].
Qed.

(** X6.  When every line token starts and ends within the text of its line,
    every token and every comment of the snapshot [tryFrom] returns starts and
    ends within the text of the snapshot: no [codeUnit] is greater than
    [text.length]. *)
Theorem snapshot_positions_within_text (state : State.t) (snapshot : LexerSnapshot.t) :
  Forall tokensWithinLine (State.lines state) ->
  tryFrom state = Some (Ok snapshot) ->
  Forall (fun token =>
            TokenPosition.codeUnit (Token.positionStart token)
            <= String.length (LexerSnapshot.text snapshot)
            /\ TokenPosition.codeUnit (Token.positionEnd token)
               <= String.length (LexerSnapshot.text snapshot))
    (LexerSnapshot.tokens snapshot)
  /\ Forall (fun comment =>
               TokenPosition.codeUnit (Comment.positionStart comment)
               <= String.length (LexerSnapshot.text snapshot)
               /\ TokenPosition.codeUnit (Comment.positionEnd comment)
                  <= String.length (LexerSnapshot.text snapshot))
       (LexerSnapshot.comments snapshot).
Proof.
  intros Hlines Htry. rewrite tryFrom_stitch in Htry.
  destruct (stitch (flattenLineTokens state) None
              (FlattenedLines.flatLineTokens (flattenLineTokens state)))
    as [entries|e] eqn:Hpass; [|discriminate Htry].
  injection Htry as <-.
  cbn [snapshotOf LexerSnapshot.tokens LexerSnapshot.comments LexerSnapshot.text].
  apply within_tokensOf.
  apply (stitch_within (flattenLineTokens state) _
           (FlattenedLines.flatLineTokens (flattenLineTokens state)) None entries);
    [|discriminate|exact Hpass].
  rewrite flattenLineTokens_closed.
  cbn [FlattenedLines.text FlattenedLines.flatLineTokens].
  apply (within_flatTokensFrom _ Hlines 0 0 0).
Qed.

(** ** The line terminators of the flattened lines *)

Lemma length_joinLines (lines : list TLine.t) (line : TLine.t) :
  lastLine lines = Some line ->
  String.length (joinLines lines)
  = lineTextOffsetAt lines (List.length lines - 1) + String.length (TLine.text line).
Proof.
  unfold lastLine. intros Hlast.
  assert (Hlength : S (List.length lines - 1) = List.length lines).
  { destruct lines as [|first rest]; [discriminate Hlast|]. simpl. lia. }
  destruct (joinLines_split lines _ line Hlast) as (before & after & -> & <- & Hafter).
  rewrite (Hafter Hlength), append_empty_r, length_append.
  unfold lineWithTerminator. rewrite Hlength, Nat.eqb_refl. reflexivity.
Qed.

Lemma lineTerminatorsFrom_ordered (lines : list TLine.t) :
  forall lineTextOffset,
    StronglySorted terminatorBefore (lineTerminatorsFrom lineTextOffset lines)
    /\ Forall (fun lineTerminator =>
                 lineTextOffset <= LineTerminator.codeUnit lineTerminator
                 /\ LineTerminator.codeUnit lineTerminator
                    <= lineTextOffset + String.length (joinLines lines))
         (lineTerminatorsFrom lineTextOffset lines).
Proof.
  induction lines as [|line rest IH]; intros off.
  - split; constructor.
  - destruct (length_joinLines_cons line rest) as [Htext Hlength].
    destruct (IH (off + lineLength line)) as [IHsorted IHbounds].
    cbn [lineTerminatorsFrom]. split.
    + constructor; [exact IHsorted|].
      apply (Forall_impl _ (P := fun lineTerminator =>
               off + lineLength line <= LineTerminator.codeUnit lineTerminator
               /\ LineTerminator.codeUnit lineTerminator
                  <= off + lineLength line + String.length (joinLines rest)));
        [|exact IHbounds].
      intros next [Hlow _]. unfold terminatorBefore, lineLength in *. simpl. lia.
    + constructor; [cbn [LineTerminator.codeUnit]; lia|].
      destruct rest as [|next rest']; [constructor|].
      rewrite (Hlength ltac:(discriminate)).
      apply (Forall_impl _ (P := fun lineTerminator =>
               off + lineLength line <= LineTerminator.codeUnit lineTerminator
               /\ LineTerminator.codeUnit lineTerminator
                  <= off + lineLength line + String.length (joinLines (next :: rest'))));
        [|exact IHbounds].
      intros lineTerminator [Hlow Hhigh]. lia.
Qed.

(** X7.  Each line terminator [flattenLineTokens] records ends before the
    next one begins, and none begins beyond the end of the text; the
    terminator of the last line is recorded at [text.length], where the text
    of the flattened lines ends. *)
Theorem flattenLineTokens_lineTerminators (state : State.t) :
  let flattened := flattenLineTokens state in
  StronglySorted terminatorBefore (FlattenedLines.lineTerminators flattened)
  /\ Forall (fun lineTerminator =>
               LineTerminator.codeUnit lineTerminator
               <= String.length (FlattenedLines.text flattened))
       (FlattenedLines.lineTerminators flattened)
  /\ (forall line,
         lastLine (State.lines state) = Some line ->
         nth_error (FlattenedLines.lineTerminators flattened)
           (List.length (State.lines state) - 1)
         = Some (LineTerminator.make (String.length (FlattenedLines.text flattened))
                   (TLine.lineTerminator line))).
Proof.
  intros flattened. subst flattened. rewrite flattenLineTokens_closed.
  cbn [FlattenedLines.text FlattenedLines.lineTerminators].
  destruct (lineTerminatorsFrom_ordered (State.lines state) 0) as [Hsorted Hbounds].
  repeat split.
  - exact Hsorted.
  - apply (Forall_impl _ (P := fun lineTerminator =>
             0 <= LineTerminator.codeUnit lineTerminator
             /\ LineTerminator.codeUnit lineTerminator
                <= 0 + String.length (joinLines (State.lines state))));
      [|exact Hbounds].
    intros lineTerminator [_ Hhigh]. exact Hhigh.
  - intros line Hlast. rewrite (length_joinLines _ _ Hlast).
    apply (nth_error_lineTerminatorsFrom _ 0 _ _ Hlast).
Qed.

(** ** Flattening more lines *)

Lemma flatTokensFrom_app (lines more : list TLine.t) :
  forall lineTextOffset lineNumber flatIndex,
    flatTokensFrom lineTextOffset lineNumber flatIndex (lines ++ more)
    = flatTokensFrom lineTextOffset lineNumber flatIndex lines
      ++ flatTokensFrom (lineTextOffset + lineTextOffsetAt lines (List.length lines))
           (lineNumber + List.length lines)
           (flatIndex + flatIndexAt lines (List.length lines)) more.
Proof.
  induction lines as [|line rest IH]; intros off ln idx.
  - cbn [app flatTokensFrom List.length lineTextOffsetAt flatIndexAt].
    now rewrite !Nat.add_0_r.
  - cbn [app flatTokensFrom List.length lineTextOffsetAt flatIndexAt].
    rewrite IH, <- app_assoc. do 2 f_equal. f_equal; lia.
Qed.

Lemma lineTerminatorsFrom_app (lines more : list TLine.t) :
  forall lineTextOffset,
    lineTerminatorsFrom lineTextOffset (lines ++ more)
    = lineTerminatorsFrom lineTextOffset lines
      ++ lineTerminatorsFrom (lineTextOffset + lineTextOffsetAt lines (List.length lines)) more.
Proof.
  induction lines as [|line rest IH]; intros off.
  - cbn [app lineTerminatorsFrom List.length lineTextOffsetAt]. now rewrite Nat.add_0_r.
  - cbn [app lineTerminatorsFrom List.length lineTextOffsetAt].
    rewrite IH. do 2 f_equal. f_equal. lia.
Qed.

Lemma joinLines_app (lines more : list TLine.t) :
  exists suffix,
    joinLines (lines ++ more) = String.append (joinLines lines) suffix
    /\ (forall line,
           lastLine lines = Some line -> more <> [] ->
           suffix = String.append (TLine.lineTerminator line) (joinLines more)).
Proof.
  induction lines as [|line rest IH].
  - exists (joinLines more). split; [reflexivity|]. intros line Hlast. discriminate Hlast.
  - destruct rest as [|next rest'].
    + destruct more as [|another more'].
      * exists EmptyString. split; [now rewrite append_empty_r|]. intros ? _ H. now elim H.
      * exists (String.append (TLine.lineTerminator line) (joinLines (another :: more'))).
        split; [reflexivity|]. intros last Hlast _. now injection Hlast as <-.
    + destruct IH as (suffix & Hjoin & Hlast).
      exists suffix. split.
      * change (joinLines ((line :: next :: rest') ++ more))
          with (String.append (TLine.text line)
                  (String.append (TLine.lineTerminator line)
                     (joinLines ((next :: rest') ++ more)))).
        change (joinLines (line :: next :: rest'))
          with (String.append (TLine.text line)
                  (String.append (TLine.lineTerminator line) (joinLines (next :: rest')))).
        now rewrite Hjoin, !append_assoc.
      * intros last Hl. apply Hlast. unfold lastLine in *.
        cbn [List.length] in *.
        replace (S (S (List.length rest')) - 1) with (S (S (List.length rest') - 1)) in Hl
          by lia.
        exact Hl.
Qed.

(** X8.  Flattening is stable under adding lines at the end: the flat tokens
    and the line terminators of the lines so far are kept as they are, with
    the same positions and indexes, and those of the added lines follow them;
    the text so far is kept as a prefix, and when lines are added it is
    followed by the terminator of what was the last line and by the text of
    the added lines. *)
Theorem flattenLineTokens_append (lines more : list TLine.t) :
  let flattened := flattenLineTokens (State.make lines) in
  let extended := flattenLineTokens (State.make (lines ++ more)) in
  FlattenedLines.flatLineTokens extended
  = FlattenedLines.flatLineTokens flattened
    ++ flatTokensFrom (lineTextOffsetAt lines (List.length lines)) (List.length lines)
         (flatIndexAt lines (List.length lines)) more
  /\ FlattenedLines.lineTerminators extended
     = FlattenedLines.lineTerminators flattened
       ++ lineTerminatorsFrom (lineTextOffsetAt lines (List.length lines)) more
  /\ exists suffix,
       FlattenedLines.text extended = String.append (FlattenedLines.text flattened) suffix
       /\ (forall line,
              lastLine lines = Some line -> more <> [] ->
              suffix = String.append (TLine.lineTerminator line)
                         (FlattenedLines.text (flattenLineTokens (State.make more)))).
Proof.
  intros flattened extended. subst flattened extended.
  rewrite !flattenLineTokens_closed.
  cbn [State.lines FlattenedLines.flatLineTokens FlattenedLines.lineTerminators
       FlattenedLines.text].
  split; [apply (flatTokensFrom_app lines more 0 0 0)|].
  split; [apply (lineTerminatorsFrom_app lines more 0)|].
  apply joinLines_app.
Qed.

(** ** The contract of [collectWhileContent] *)

Lemma collectWhileContent_loop_spec (contentKind : LineTokenKind.t) :
  forall remaining collectedTokens flatIndex,
  exists k,
    collectWhileContent_loop contentKind remaining collectedTokens flatIndex
    = (collectedTokens ++ firstn k remaining, flatIndex + k)
    /\ k <= List.length remaining
    /\ Forall (fun token => FlatLineToken.kind token = contentKind) (firstn k remaining)
    /\ (forall token,
           nth_error remaining k = Some token -> FlatLineToken.kind token <> contentKind).
Proof.
  induction remaining as [|token rest IH]; intros collected idx.
  - exists 0. cbn [collectWhileContent_loop firstn List.length].
    rewrite app_nil_r, Nat.add_0_r.
    split; [reflexivity|]. split; [apply Nat.le_refl|]. split; [apply Forall_nil|].
    intros ? H. discriminate H.
  - cbn [collectWhileContent_loop].
    destruct (LineTokenKind.eqb (FlatLineToken.kind token) contentKind) eqn:Hkind.
    + destruct (IH (collected ++ [token]) (idx + 1)) as (k & Hloop & Hk & Hcontents & Hend).
      exists (S k). rewrite Hloop, <- app_assoc. cbn [firstn app List.length nth_error].
      split; [f_equal; lia|]. split; [lia|]. split; [|exact Hend].
      apply Forall_cons; [now apply LineTokenKind_eqb_eq | exact Hcontents].
    + exists 0. cbn [firstn nth_error List.length]. rewrite app_nil_r, Nat.add_0_r.
      split; [reflexivity|]. split; [lia|]. split; [apply Forall_nil|].
      intros found Hfound Heq. injection Hfound as <-.
      rewrite Heq, LineTokenKind_eqb_refl in Hkind. discriminate Hkind.
Qed.

(** X9.  [collectWhileContent] collects the longest stretch of tokens of
    kind [contentKind] that directly follows [tokenStart] in the array: the
    collected tokens are the array's tokens from index [tokenStart.flatIndex +
    1] on, as many as were collected, all of kind [contentKind]; the token
    that follows them is [maybeTokenEnd], which is not of kind [contentKind]
    and is undefined exactly when the array ends there. *)
Theorem collectWhileContent_longest_stretch (flatTokens : list FlatLineToken.t)
    (tokenStart : FlatLineToken.t) (contentKind : LineTokenKind.t) :
  let collection := collectWhileContent flatTokens tokenStart contentKind in
  let first := FlatLineToken.flatIndex tokenStart + 1 in
  let count := List.length (FlatLineCollection.collectedTokens collection) in
  FlatLineCollection.tokenStart collection = tokenStart
  /\ FlatLineCollection.collectedTokens collection = firstn count (skipn first flatTokens)
  /\ Forall (fun token => FlatLineToken.kind token = contentKind)
       (FlatLineCollection.collectedTokens collection)
  /\ FlatLineCollection.maybeTokenEnd collection = nth_error flatTokens (first + count)
  /\ (forall tokenEnd,
         FlatLineCollection.maybeTokenEnd collection = Some tokenEnd ->
         FlatLineToken.kind tokenEnd <> contentKind)
  /\ (FlatLineCollection.maybeTokenEnd collection = None
      <-> List.length flatTokens <= first + count).
Proof.
  intros collection first count. subst collection first count.
  unfold collectWhileContent.
  destruct (collectWhileContent_loop_spec contentKind
              (skipn (FlatLineToken.flatIndex tokenStart + 1) flatTokens) []
              (FlatLineToken.flatIndex tokenStart + 1))
    as (k & -> & Hk & Hcontents & Hend).
  cbn [FlatLineCollection.tokenStart FlatLineCollection.collectedTokens
       FlatLineCollection.maybeTokenEnd fst snd app].
  assert (Hcount : List.length
                     (firstn k (skipn (FlatLineToken.flatIndex tokenStart + 1) flatTokens)) = k)
    by (rewrite length_firstn; lia).
  rewrite Hcount. split; [reflexivity|]. split; [reflexivity|].
  split; [exact Hcontents|]. split; [reflexivity|]. split.
  - intros tokenEnd Hfound. apply Hend. now rewrite nth_error_skipn.
  - apply nth_error_None.
Qed.

(** ** The column of a token *)


(** ** Data as slices of the text *)

Lemma substring_append_within (a b : string) :
  forall m n,
    m + n <= String.length a ->
    String.substring m n (String.append a b) = String.substring m n a.
Proof.
  induction a as [|ch a IH]; intros m n Hlength.
  - cbn in Hlength. assert (m = 0) as -> by lia. assert (n = 0) as -> by lia.
    cbn. now destruct b.
  - destruct m as [|m].
    + destruct n as [|n]; [reflexivity|].
      cbn. f_equal. apply IH. cbn in Hlength. lia.
    + cbn. apply IH. cbn in Hlength. lia.
Qed.

Lemma js_substring_append (a b : string) (s e : nat) :
  s <= String.length a ->
  e <= String.length a ->
  Js.substring (String.append a b) s e = Js.substring a s e.
Proof.
  intros Hs He. unfold Js.substring. rewrite length_append.
  rewrite (Nat.min_l s (String.length a + String.length b)) by lia.
  rewrite (Nat.min_l e (String.length a + String.length b)) by lia.
  rewrite (Nat.min_l s (String.length a)) by lia.
  rewrite (Nat.min_l e (String.length a)) by lia.
  apply substring_append_within. lia.
Qed.

Lemma js_substring_shift (a b : string) (s e : nat) :
  Js.substring (String.append a b) (String.length a + s) (String.length a + e)
  = Js.substring b s e.
Proof.
  unfold Js.substring. rewrite length_append.
  rewrite !Nat.add_min_distr_l, Nat.add_max_distr_l.
  replace (String.length a
           + Nat.max (Nat.min s (String.length b)) (Nat.min e (String.length b))
           - (String.length a
              + Nat.min (Nat.min s (String.length b)) (Nat.min e (String.length b))))
    with (Nat.max (Nat.min s (String.length b)) (Nat.min e (String.length b))
          - Nat.min (Nat.min s (String.length b)) (Nat.min e (String.length b)))
    by lia.
  apply substring_skip.
Qed.

Lemma joinLines_cons_text (line : TLine.t) (rest : list TLine.t) :
  exists tail, joinLines (line :: rest) = String.append (TLine.text line) tail.
Proof.
  destruct rest as [|next rest'].
  - exists EmptyString. cbn. now rewrite append_empty_r.
  - exists (String.append (TLine.lineTerminator line) (joinLines (next :: rest'))).
    reflexivity.
Qed.

Lemma sliced_flattenTokens (prefix tail : string) (lineNumber : nat) (line : TLine.t)
    (lineTokens : list LineToken.t) :
  Forall (fun lineToken =>
            spanWithin (String.length (TLine.text line)) (lineSpan lineToken)
            /\ LineToken.data lineToken
               = Js.substring (TLine.text line) (LineToken.positionStart lineToken)
                   (LineToken.positionEnd lineToken))
    lineTokens ->
  forall flatIndex,
    Forall (slicedFlat (String.append prefix (String.append (TLine.text line) tail)))
      (flattenTokens (String.length prefix) lineNumber flatIndex lineTokens).
Proof.
  induction 1 as [|lineToken rest [[Hstart Hend] Hdata] _ IH]; intros idx;
    cbn [flattenTokens]; constructor; [|apply IH].
  unfold slicedFlat, flatSpan, flatten.
  cbn [FlatLineToken.data FlatLineToken.positionStart FlatLineToken.positionEnd
       TokenPosition.codeUnit fst snd].
  rewrite js_substring_shift, js_substring_append; [exact Hdata | exact Hstart | exact Hend].
Qed.

Lemma sliced_flatTokensFrom (lines : list TLine.t) :
  Forall slicedLine lines ->
  forall prefix lineNumber flatIndex,
    Forall (slicedFlat (String.append prefix (joinLines lines)))
      (flatTokensFrom (String.length prefix) lineNumber flatIndex lines).
Proof.
  induction 1 as [|line rest Hline _ IH]; intros prefix ln idx; [constructor|].
  cbn [flatTokensFrom]. apply Forall_app. split.
  - destruct (joinLines_cons_text line rest) as (tail & ->).
    apply (sliced_flattenTokens prefix tail ln line _ Hline).
  - destruct rest as [|next rest']; [constructor|].
    change (joinLines (line :: next :: rest'))
      with (String.append (TLine.text line)
              (String.append (TLine.lineTerminator line) (joinLines (next :: rest')))).
    rewrite <- !append_assoc.
    replace (String.length prefix + lineLength line)
      with (String.length
              (String.append (String.append prefix (TLine.text line))
                 (TLine.lineTerminator line)))
      by (rewrite !length_append; unfold lineLength; lia).
    apply IH.
Qed.

Lemma slicedEntry_wholeEntry (text : string) (flatToken : FlatLineToken.t) :
  slicedFlat text flatToken -> slicedEntry text (wholeEntry flatToken).
Proof.
  unfold slicedFlat, wholeEntry, flatSpan. intros Hdata.
  destruct (FlatLineToken.kind flatToken); exact Hdata.
Qed.

Lemma stitch_sliced flattenedLines (flatTokens : list FlatLineToken.t) :
  forall pending entries,
    Forall (slicedFlat (FlattenedLines.text flattenedLines)) flatTokens ->
    stitch flattenedLines pending flatTokens = Normal entries ->
    Forall (slicedEntry (FlattenedLines.text flattenedLines)) entries.
Proof.
  induction flatTokens as [|flatToken flatTokens IH]; intros pending entries Hall Hpass.
  - destruct pending as [[family tokenStart]|]; [discriminate Hpass|].
    injection Hpass as <-. constructor.
  - apply Forall_cons_iff in Hall as [Hhead Hall].
    destruct pending as [[family tokenStart]|].
    + cbn [stitch] in Hpass.
      destruct (LineTokenKind.eqb (FlatLineToken.kind flatToken) (contentKind family)).
      * apply (IH _ _ Hall Hpass).
      * destruct (LineTokenKind.eqb (FlatLineToken.kind flatToken) (endKind family));
          [|discriminate Hpass].
        destruct (stitch flattenedLines None flatTokens) as [entries'|e] eqn:Hrest;
          [|discriminate Hpass].
        injection Hpass as <-. constructor; [|apply (IH _ _ Hall Hrest)].
        now destruct family.
    + rewrite stitch_whole in Hpass.
      destruct (fragmentRole (FlatLineToken.kind flatToken)) as [family|family|family|];
        try (destruct (stitch flattenedLines None flatTokens) as [entries'|e] eqn:Hrest;
             [|discriminate Hpass];
             injection Hpass as <-; constructor; [|apply (IH _ _ Hall Hrest)];
             apply slicedEntry_wholeEntry; exact Hhead).
      apply (IH _ _ Hall Hpass).
Qed.

Lemma sliced_entries (text : string) (entries : list Entry) :
  Forall (slicedEntry text) entries ->
  Forall (fun token => slicedEntry text (TokenEntry token)) (tokensOf entries)
  /\ Forall (fun comment => slicedEntry text (CommentEntry comment)) (commentsOf entries).
Proof.
  induction 1 as [|[token|comment] entries Hhead _ [IHtokens IHcomments]];
    cbn [tokensOf commentsOf].
  - split; constructor.
  - split; [constructor; [exact Hhead | exact IHtokens] | exact IHcomments].
  - split; [exact IHtokens | constructor; [exact Hhead | exact IHcomments]].
Qed.

(** X17.  When the data of every line token is the slice of the text of its
    line that the token spans, the data of every token and of every comment of
    the snapshot [tryFrom] returns is the slice of the text of the snapshot
    from its [positionStart.codeUnit] to its [positionEnd.codeUnit]. *)
Theorem snapshot_data_is_text_slice (state : State.t) (snapshot : LexerSnapshot.t) :
  Forall slicedLine (State.lines state) ->
  tryFrom state = Some (Ok snapshot) ->
  Forall (fun token =>
            Token.data token
            = Js.substring (LexerSnapshot.text snapshot)
                (TokenPosition.codeUnit (Token.positionStart token))
                (TokenPosition.codeUnit (Token.positionEnd token)))
    (LexerSnapshot.tokens snapshot)
  /\ Forall (fun comment =>
               Comment.data comment
               = Js.substring (LexerSnapshot.text snapshot)
                   (TokenPosition.codeUnit (Comment.positionStart comment))
                   (TokenPosition.codeUnit (Comment.positionEnd comment)))
       (LexerSnapshot.comments snapshot).
Proof.
  intros Hlines Htry. rewrite tryFrom_stitch in Htry.
  destruct (stitch (flattenLineTokens state) None
              (FlattenedLines.flatLineTokens (flattenLineTokens state)))
    as [entries|e] eqn:Hpass; [|discriminate Htry].
  injection Htry as <-.
  cbn [snapshotOf LexerSnapshot.tokens LexerSnapshot.comments LexerSnapshot.text].
  apply (sliced_entries (FlattenedLines.text (flattenLineTokens state)) entries).
  apply (stitch_sliced (flattenLineTokens state)
           (FlattenedLines.flatLineTokens (flattenLineTokens state)) None entries);
    [|exact Hpass].
  rewrite flattenLineTokens_closed.
  cbn [FlattenedLines.text FlattenedLines.flatLineTokens].
  apply (sliced_flatTokensFrom _ Hlines EmptyString 0 0).
Qed.

(** ** Snapshots of more lines *)

Lemma fragmentsPaired_app (kinds more : list LineTokenKind.t) :
  forall openRun,
    fragmentsPaired openRun kinds = true ->
    fragmentsPaired openRun (kinds ++ more) = fragmentsPaired None more.
Proof.
  induction kinds as [|kind kinds IH]; intros openRun Hpaired.
  - destruct openRun; [discriminate Hpaired | reflexivity].
  - cbn [app fragmentsPaired] in *.
    destruct openRun as [family|].
    + destruct (LineTokenKind.eqb kind (contentKind family)); [now apply IH|].
      destruct (LineTokenKind.eqb kind (endKind family)); [now apply IH | discriminate Hpaired].
    + destruct (fragmentRole kind); now apply IH.
Qed.

Lemma stitch_longer_text flattenedLines extended (suffix : string)
    (flatTokens : list FlatLineToken.t) :
  FlattenedLines.text extended
  = String.append (FlattenedLines.text flattenedLines) suffix ->
  forall pending entries,
    Forall (fun flatToken =>
              spanWithin (String.length (FlattenedLines.text flattenedLines))
                (flatSpan flatToken))
      flatTokens ->
    (forall family tokenStart,
        pending = Some (family, tokenStart) ->
        spanWithin (String.length (FlattenedLines.text flattenedLines))
          (flatSpan tokenStart)) ->
    stitch flattenedLines pending flatTokens = Normal entries ->
    stitch extended pending flatTokens = Normal entries.
Proof.
  intros Htext.
  induction flatTokens as [|flatToken flatTokens IH]; intros pending entries Hall Hpending Hpass.
  - destruct pending as [[family tokenStart]|]; [discriminate Hpass | exact Hpass].
  - apply Forall_cons_iff in Hall as [Hhead Hall].
    assert (Hnone : forall family tokenStart,
               @None (UnterminatedMultilineTokenKind.t * FlatLineToken.t)
               = Some (family, tokenStart) ->
               spanWithin (String.length (FlattenedLines.text flattenedLines))
                 (flatSpan tokenStart))
      by discriminate.
    destruct pending as [[family tokenStart]|].
    + cbn [stitch] in *.
      destruct (LineTokenKind.eqb (FlatLineToken.kind flatToken) (contentKind family)).
      * apply (IH _ _ Hall Hpending Hpass).
      * destruct (LineTokenKind.eqb (FlatLineToken.kind flatToken) (endKind family));
          [|discriminate Hpass].
        destruct (stitch flattenedLines None flatTokens) as [entries'|e] eqn:Hrest;
          [|discriminate Hpass].
        rewrite (IH _ _ Hall Hnone Hrest). cbn [emit] in *. rewrite <- Hpass.
        destruct (Hpending family tokenStart eq_refl) as [Hstart _].
        destruct Hhead as [_ Hend]. unfold flatSpan in Hstart, Hend. cbn [fst snd] in *.
        unfold stitched. rewrite Htext, (js_substring_append _ _ _ _ Hstart Hend).
        reflexivity.
    + rewrite stitch_whole in *.
      destruct (fragmentRole (FlatLineToken.kind flatToken)) as [family|family|family|];
        try (destruct (stitch flattenedLines None flatTokens) as [entries'|e] eqn:Hrest;
             [|discriminate Hpass];
             rewrite (IH _ _ Hall Hnone Hrest); exact Hpass).
      apply (IH (Some (family, flatToken)) _ Hall); [|exact Hpass].
      intros family' tokenStart' Heq. injection Heq as _ <-. exact Hhead.
Qed.

Lemma tokensOf_app (entries more : list Entry) :
  tokensOf (entries ++ more) = tokensOf entries ++ tokensOf more
  /\ commentsOf (entries ++ more) = commentsOf entries ++ commentsOf more.
Proof.
  induction entries as [|[token|comment] entries [IHtokens IHcomments]];
    cbn [app tokensOf commentsOf]; [split; reflexivity| |];
    rewrite IHtokens, IHcomments; split; reflexivity.
Qed.

(** X18.  Once the lines so far give a snapshot, lines added at the end give
    a snapshot exactly when they do on their own; and when every token of the
    lines so far lies within the text of its line, the tokens and the comments
    of the snapshot so far are kept as they are, data and positions included,
    at the head of the tokens and of the comments of the longer snapshot. *)
Theorem tryFrom_append (lines more : list TLine.t) (snapshot : LexerSnapshot.t) :
  tryFrom (State.make lines) = Some (Ok snapshot) ->
  ((exists added, tryFrom (State.make more) = Some (Ok added))
   <-> (exists extended, tryFrom (State.make (lines ++ more)) = Some (Ok extended)))
  /\ (Forall tokensWithinLine lines ->
      forall extended,
        tryFrom (State.make (lines ++ more)) = Some (Ok extended) ->
        exists moreTokens moreComments,
          LexerSnapshot.tokens extended = LexerSnapshot.tokens snapshot ++ moreTokens
          /\ LexerSnapshot.comments extended
             = LexerSnapshot.comments snapshot ++ moreComments).
Proof.
  intros Htry. split.
  - rewrite !tryFrom_ok_iff_paired_kinds.
    assert (Hpaired : fragmentsPaired None (stateKinds (State.make lines)) = true)
      by (apply tryFrom_ok_iff_paired_kinds; now exists snapshot).
    unfold stateKinds in *. cbn [State.lines] in *.
    rewrite flat_map_app, (fragmentsPaired_app _ _ None Hpaired). reflexivity.
  - intros Hlines extended Hextended.
    rewrite tryFrom_stitch in Htry, Hextended.
    destruct (stitch (flattenLineTokens (State.make lines)) None
                (FlattenedLines.flatLineTokens (flattenLineTokens (State.make lines))))
      as [entries|e] eqn:Hpass; [|discriminate Htry].
    injection Htry as <-.
    destruct (stitch (flattenLineTokens (State.make (lines ++ more))) None
                (FlattenedLines.flatLineTokens
                   (flattenLineTokens (State.make (lines ++ more)))))
      as [entries'|e] eqn:Hpass'; [|discriminate Hextended].
    injection Hextended as <-.
    cbn [snapshotOf LexerSnapshot.tokens LexerSnapshot.comments].
    assert (Hflat :
              FlattenedLines.flatLineTokens (flattenLineTokens (State.make (lines ++ more)))
              = FlattenedLines.flatLineTokens (flattenLineTokens (State.make lines))
                ++ flatTokensFrom (lineTextOffsetAt lines (List.length lines))
                     (List.length lines) (flatIndexAt lines (List.length lines)) more).
    { rewrite !flattenLineTokens_closed.
      apply (flatTokensFrom_app lines more 0 0 0). }
    destruct (joinLines_app lines more) as (suffix & Hjoin & _).
    assert (Htext :
              FlattenedLines.text (flattenLineTokens (State.make (lines ++ more)))
              = String.append (FlattenedLines.text (flattenLineTokens (State.make lines)))
                  suffix).
    { rewrite !flattenLineTokens_closed. exact Hjoin. }
    assert (Hwithin :
              Forall (fun flatToken =>
                        spanWithin
                          (String.length
                             (FlattenedLines.text (flattenLineTokens (State.make lines))))
                          (flatSpan flatToken))
                (FlattenedLines.flatLineTokens (flattenLineTokens (State.make lines)))).
    { rewrite flattenLineTokens_closed.
      cbn [FlattenedLines.text FlattenedLines.flatLineTokens State.lines].
      apply (within_flatTokensFrom _ Hlines 0 0 0). }
    pose proof (stitch_longer_text (flattenLineTokens (State.make lines))
                  (flattenLineTokens (State.make (lines ++ more))) suffix _ Htext
                  None entries Hwithin ltac:(discriminate) Hpass) as Hsame.
    destruct (stitch_paired (flattenLineTokens (State.make (lines ++ more)))
                (FlattenedLines.flatLineTokens (flattenLineTokens (State.make lines)))
                None
                (stitch_normal_paired _ _ None entries Hpass))
      as (emitted & Hemitted).
    pose proof (Hemitted []) as Hnil. rewrite app_nil_r, Hsame in Hnil.
    cbn [stitch prepend] in Hnil. rewrite app_nil_r in Hnil. injection Hnil as <-.
    rewrite Hflat, Hemitted in Hpass'.
    destruct (stitch (flattenLineTokens (State.make (lines ++ more))) None
                (flatTokensFrom (lineTextOffsetAt lines (List.length lines))
                   (List.length lines) (flatIndexAt lines (List.length lines)) more))
      as [added|e]; [|discriminate Hpass'].
    cbn [prepend] in Hpass'. injection Hpass' as <-.
    destruct (tokensOf_app entries added) as [-> ->].
    exists (tokensOf added), (commentsOf added). split; reflexivity.
Qed.

End Snapshot.

(** * The properties at the example states *)

(** C7 at [identifierThenComment]: the Content fragment of the second line is
    the flat token of index 2, at code units 8 to 9. *)
Lemma flattenLineTokens_positions_witness :
  nth_error (State.lines identifierThenComment) 1
  = Some (TLine.make LineKind.Untouched "X" LF
            [ LineToken.make LineTokenKind.MultilineCommentContent "X" 0 1 ]
            LexMode.Comment LexMode.Comment)
  /\ nth_error (FlattenedLines.flatLineTokens (flattenLineTokens identifierThenComment)) 2
     = Some (FlatLineToken.make LineTokenKind.MultilineCommentContent "X"
               (TokenPosition.make 8 0 1) (TokenPosition.make 9 1 1) 2)
  /\ nth_error (FlattenedLines.lineTerminators (flattenLineTokens identifierThenComment)) 1
     = Some (LineTerminator.make 9 LF).
Proof.
  split; [reflexivity|]. split.
  - exact (proj1 (flattenLineTokens_positions identifierThenComment)
             1 _ 0 _ eq_refl eq_refl).
  - exact (proj1 (proj2 (flattenLineTokens_positions identifierThenComment))
             1 _ eq_refl).
Defined.

(** C3 at [identifierThenComment], whose last line has no terminator. *)
Lemma snapshot_text_is_concatenation_witness :
  (forall line,
      lastLine (State.lines identifierThenComment) = Some line ->
      TLine.lineTerminator line = EmptyString)
  /\ FlattenedLines.text (flattenLineTokens identifierThenComment)
     = concatLines (State.lines identifierThenComment)
  /\ forall snapshot,
       tryFrom splitCodeUnits identifierThenComment = Some (Ok snapshot) ->
       LexerSnapshot.text snapshot = concatLines (State.lines identifierThenComment).
Proof.
  assert (Hlast : forall line,
             lastLine (State.lines identifierThenComment) = Some line ->
             TLine.lineTerminator line = EmptyString)
    by (intros line H; injection H as <-; reflexivity).
  split; [exact Hlast|].
  exact (snapshot_text_is_concatenation splitCodeUnits identifierThenComment Hlast).
Defined.

(** C1: a line of status [TouchedWithError] whose tokens stitch is answered
    [Ok], with the snapshot of those tokens. *)
Lemma error_line_answered_ok :
  hasErrorLine lineWithError = true
  /\ tryFrom splitCodeUnits lineWithError
     = Some (Ok (LexerSnapshot.make "1 ~"
                   [ Token.make "NumericLiteral" "1"
                       (TokenPosition.make 0 0 0) (TokenPosition.make 1 1 0) ]
                   []
                   [ LineTerminator.make 3 EmptyString ])).
Proof. split; vm_compute; reflexivity. Qed.

(** C1, as amended, at [lineWithError]: the number read on the line is the
    token of the snapshot. *)
Lemma tryFrom_ignores_line_status_witness :
  hasErrorLine lineWithError = true
  /\ fragmentsPaired None (stateKinds lineWithError) = true
  /\ tryFrom splitCodeUnits lineWithError
     = tryFrom splitCodeUnits (clearStatus lineWithError)
  /\ tryFrom splitCodeUnits lineWithError
     = Some (Ok (LexerSnapshot.make "1 ~"
                   [ Token.make "NumericLiteral" "1"
                       (TokenPosition.make 0 0 0) (TokenPosition.make 1 1 0) ]
                   []
                   [ LineTerminator.make 3 EmptyString ])).
Proof.
  split; [reflexivity|]. split; [reflexivity|]. split.
  - exact (proj1 (tryFrom_ignores_line_status splitCodeUnits lineWithError)).
  - destruct (proj2 (tryFrom_ignores_line_status splitCodeUnits lineWithError) eq_refl)
      as (entries & Hpass & Htry & _).
    injection Hpass as <-. exact Htry.
Defined.

(** C2: the invariant error met at [commentThenIdentifier], a Start fragment
    followed by an identifier, comes back as an ordinary [Err]. *)
Lemma invariant_error_is_enveloped :
  map FlatLineToken.kind
    (FlattenedLines.flatLineTokens (flattenLineTokens commentThenIdentifier))
  = [ LineTokenKind.MultilineCommentStart; LineTokenKind.Identifier ]
  /\ tryFrom splitCodeUnits commentThenIdentifier
     = Some (Err (CommonError
                    (InvariantError invariantMessage
                       (FlatLineToken.make LineTokenKind.Identifier "abc"
                          (TokenPosition.make 3 0 1) (TokenPosition.make 6 3 1) 1)))).
Proof. split; vm_compute; reflexivity. Qed.

(** C2, as amended, at [commentThenIdentifier]. *)
Lemma invariant_error_returned_as_err_witness :
  tryFrom splitCodeUnits commentThenIdentifier
  = Some (Err (CommonError
                 (InvariantError invariantMessage
                    (FlatLineToken.make LineTokenKind.Identifier "abc"
                       (TokenPosition.make 3 0 1) (TokenPosition.make 6 3 1) 1)))).
Proof.
  apply (invariant_error_returned_as_err splitCodeUnits commentThenIdentifier []
           (FlatLineToken.make LineTokenKind.MultilineCommentStart "/*"
              (TokenPosition.make 0 0 0) (TokenPosition.make 2 2 0) 0)
           UnterminatedMultilineTokenKind.MultilineComment []
           (FlatLineToken.make LineTokenKind.Identifier "abc"
              (TokenPosition.make 3 0 1) (TokenPosition.make 6 3 1) 1)
           []).
  - reflexivity.
  - reflexivity.
  - reflexivity.
  - apply Forall_nil.
  - discriminate.
  - discriminate.
Defined.

(** C4: the flat tokens of [stringThenComment] end with a
    [MultilineCommentStart] that nothing follows, and [tryFrom] returns the
    invariant error of the text literal opened before it, not the error of an
    unterminated comment. *)
Lemma unterminated_run_after_broken_run :
  map FlatLineToken.kind
    (FlattenedLines.flatLineTokens (flattenLineTokens stringThenComment))
  = [ LineTokenKind.StringLiteralStart; LineTokenKind.MultilineCommentStart ]
  /\ tryFrom splitCodeUnits stringThenComment
     = Some (Err (CommonError
                    (InvariantError invariantMessage
                       (FlatLineToken.make LineTokenKind.MultilineCommentStart "/*"
                          (TokenPosition.make 3 0 1) (TokenPosition.make 5 2 1) 1))))
  /\ forall graphemePosition,
       tryFrom splitCodeUnits stringThenComment
       <> Some (Err (LexerError
                       (UnterminatedMultilineTokenError graphemePosition
                          UnterminatedMultilineTokenKind.MultilineComment))).
Proof.
  split; [vm_compute; reflexivity|]. split; [vm_compute; reflexivity|].
  intros graphemePosition. vm_compute. discriminate.
Qed.

(** C4, as amended, at [unterminatedComment]. *)
Lemma unterminated_run_error_witness :
  tryFrom splitCodeUnits unterminatedComment
  = Some (Err (LexerError
                 (UnterminatedMultilineTokenError
                    (GraphemePosition.make 0 0 0 (Some 2))
                    UnterminatedMultilineTokenKind.MultilineComment))).
Proof.
  apply (unterminated_run_error splitCodeUnits unterminatedComment []
           (FlatLineToken.make LineTokenKind.MultilineCommentStart "/*"
              (TokenPosition.make 0 0 0) (TokenPosition.make 2 2 0) 0)
           UnterminatedMultilineTokenKind.MultilineComment
           [ FlatLineToken.make LineTokenKind.MultilineCommentContent "foobar"
               (TokenPosition.make 3 0 1) (TokenPosition.make 9 6 1) 1 ]).
  - reflexivity.
  - reflexivity.
  - reflexivity.
  - apply Forall_cons; [reflexivity | apply Forall_nil].
Defined.

(** C5 at [identifierThenComment]: the iteration at index 1 pushes the comment
    of the three lines and resumes at index 4, past the last flat token. *)
Lemma closed_run_one_entry_witness :
  factory_loop splitCodeUnits 2 (flattenLineTokens identifierThenComment) 1 [] []
  = Some (Normal
            ([],
             [ Comment.make CommentKind.Multiline
                 (String.append "/*X"
                    (String.append LF (String.append "X" (String.append LF "X*/"))))
                 true (TokenPosition.make 4 4 0) (TokenPosition.make 13 3 2) ])).
Proof.
  refine (eq_trans
            (proj1 (closed_run_one_entry splitCodeUnits identifierThenComment
                      [ FlatLineToken.make LineTokenKind.Identifier "abc"
                          (TokenPosition.make 0 0 0) (TokenPosition.make 3 3 0) 0 ]
                      (FlatLineToken.make LineTokenKind.MultilineCommentStart "/*X"
                         (TokenPosition.make 4 4 0) (TokenPosition.make 7 7 0) 1)
                      UnterminatedMultilineTokenKind.MultilineComment
                      [ FlatLineToken.make LineTokenKind.MultilineCommentContent "X"
                          (TokenPosition.make 8 0 1) (TokenPosition.make 9 1 1) 2 ]
                      (FlatLineToken.make LineTokenKind.MultilineCommentEnd "X*/"
                         (TokenPosition.make 10 0 2) (TokenPosition.make 13 3 2) 3)
                      []
                      eq_refl eq_refl _ eq_refl)
               1 [] [])
            eq_refl).
  apply Forall_cons; [reflexivity | apply Forall_nil].
Defined.

(** C8: in [emptyFirstToken] each token ends before the next begins and lies
    within the text of the line, and there is no fragment; the two tokens of
    the snapshot begin at the same code unit. *)
Lemma empty_token_breaks_order :
  Forall (fun line =>
            endsBeforeNext (TLine.tokens line)
            /\ Forall (fun lineToken =>
                         LineToken.positionEnd lineToken <= String.length (TLine.text line))
                 (TLine.tokens line))
    (State.lines emptyFirstToken)
  /\ fragmentsPaired None (stateKinds emptyFirstToken) = true
  /\ exists snapshot,
       tryFrom splitCodeUnits emptyFirstToken = Some (Ok snapshot)
       /\ map entryStart
            (mergeByStart (LexerSnapshot.tokens snapshot) (LexerSnapshot.comments snapshot))
          = [0; 0]
       /\ ~ StronglySorted lt
              (map entryStart
                 (mergeByStart (LexerSnapshot.tokens snapshot)
                    (LexerSnapshot.comments snapshot))).
Proof.
  split.
  { repeat first [ apply Forall_cons | apply Forall_nil | split ];
      simpl; first [ lia | exact I ]. }
  split; [reflexivity|].
  eexists. split; [vm_compute; reflexivity|].
  split; [reflexivity|].
  intros Hsorted. inversion Hsorted as [|? ? _ Hhead]; subst.
  inversion Hhead as [|? ? Hlt _]; subst. lia.
Qed.

(** C8, as amended, at [identifierThenComment]. *)
Lemma snapshot_entries_ordered_witness :
  Forall lineInvariant (State.lines identifierThenComment)
  /\ fragmentsPaired None (stateKinds identifierThenComment) = true
  /\ exists snapshot,
       tryFrom splitCodeUnits identifierThenComment = Some (Ok snapshot)
       /\ StronglySorted lt (map tokenStart (LexerSnapshot.tokens snapshot))
       /\ StronglySorted lt (map commentStart (LexerSnapshot.comments snapshot))
       /\ separatedFrom 0
            (map entrySpan
               (mergeByStart (LexerSnapshot.tokens snapshot)
                  (LexerSnapshot.comments snapshot)))
       /\ StronglySorted lt
            (map entryStart
               (mergeByStart (LexerSnapshot.tokens snapshot)
                  (LexerSnapshot.comments snapshot))).
Proof.
  assert (Hlines : Forall lineInvariant (State.lines identifierThenComment)).
  { repeat first [ apply Forall_cons | apply Forall_nil | split ];
      simpl; first [ lia | exact I ]. }
  split; [exact Hlines|]. split; [reflexivity|].
  exact (snapshot_entries_ordered splitCodeUnits identifierThenComment Hlines eq_refl).
Defined.

(** C10 at [identifierThenComment]. *)
Lemma cast_tokens_valid_witness :
  fragmentsInsideRuns None (stateKinds identifierThenComment) = true
  /\ exists snapshot,
       tryFrom splitCodeUnits identifierThenComment = Some (Ok snapshot)
       /\ Forall (fun token =>
                    Token.validKind token = true
                    /\ (castOfSingleLineKind token \/ stitchedFromRun token))
            (LexerSnapshot.tokens snapshot).
Proof.
  split; [reflexivity|].
  eexists. split; [vm_compute; reflexivity|].
  apply (cast_tokens_valid splitCodeUnits identifierThenComment);
    [reflexivity | vm_compute; reflexivity].
Defined.



(** ** What the hypotheses are for *)

(** The text of the flattened lines leaves out the terminator of the last
    line: when that terminator is not empty, the text is not the
    concatenation of every line with its terminator. *)
Remark last_terminator_left_out :
  FlattenedLines.text (flattenLineTokens terminatedLastLine) = "a"%string
  /\ concatLines (State.lines terminatedLastLine) = String.append "a" LF.
Proof. split; reflexivity. Qed.

(** An End fragment outside a run reaches the [default] branch, and the kind
    of the token it becomes is not a member of [TokenKind]. *)
Remark stray_fragment_kind :
  fragmentsInsideRuns None (stateKinds strayCommentEnd) = false
  /\ exists snapshot,
       tryFrom splitCodeUnits strayCommentEnd = Some (Ok snapshot)
       /\ map Token.validKind (LexerSnapshot.tokens snapshot) = [false].
Proof.
  split; [reflexivity|]. eexists. split; vm_compute; reflexivity.
Qed.

(** ** The model on the examples of the tests *)

(** [abc /*X], [X], [X*/]: one identifier and one comment of three lines. *)
Example snapshot_identifier_then_comment :
  abridgedTokens (tryFrom splitCodeUnits identifierThenComment)
  = [ (TokenKind.value TokenKind.Identifier, "abc"%string) ]
  /\ abridgedComments (tryFrom splitCodeUnits identifierThenComment)
     = [ (CommentKind.Multiline,
          String.append "/*X"
            (String.append LF (String.append "X" (String.append LF "X*/")))) ].
Proof. split; vm_compute; reflexivity. Qed.

(** A quoted identifier on three lines is one token of kind [Identifier]. *)
Example snapshot_quoted_identifier :
  abridgedTokens (tryFrom splitCodeUnits quotedIdentifierOnThreeLines)
  = [ (TokenKind.value TokenKind.Identifier,
       String.append "#"
         (String.append DQ
            (String.append LF (String.append "foobar" (String.append LF DQ))))) ]
  /\ abridgedComments (tryFrom splitCodeUnits quotedIdentifierOnThreeLines) = [].
Proof. split; vm_compute; reflexivity. Qed.

(** A text literal on two lines is one token of kind [StringLiteral]. *)
Example snapshot_two_line_string :
  abridgedTokens (tryFrom splitCodeUnits twoLineString)
  = [ (TokenKind.value TokenKind.StringLiteral,
       String.append DQ
         (String.append "a" (String.append LF (String.append "b" DQ)))) ].
Proof. vm_compute; reflexivity. Qed.

(** * Further properties: the grapheme splitter *)

Lemma stitch_any_splitter (split1 split2 : string -> list string)
    (flattenedLines : FlattenedLines.t) (flatTokens : list FlatLineToken.t) :
  forall pending entries,
    stitch split1 flattenedLines pending flatTokens = Normal entries ->
    stitch split2 flattenedLines pending flatTokens = Normal entries.
Proof.
  induction flatTokens as [|flatToken flatTokens IH]; intros pending entries Hpass.
  - destruct pending as [[family tokenStart]|]; [discriminate Hpass | exact Hpass].
  - destruct pending as [[family tokenStart]|].
    + cbn [stitch] in *.
      destruct (LineTokenKind.eqb (FlatLineToken.kind flatToken) (contentKind family)).
      * apply (IH _ _ Hpass).
      * destruct (LineTokenKind.eqb (FlatLineToken.kind flatToken) (endKind family));
          [|discriminate Hpass].
        destruct (stitch split1 flattenedLines None flatTokens) as [entries'|e] eqn:Hrest;
          [|discriminate Hpass].
        now rewrite (IH _ _ Hrest).
    + rewrite stitch_whole in *.
      destruct (fragmentRole (FlatLineToken.kind flatToken)) as [family|family|family|];
        try (destruct (stitch split1 flattenedLines None flatTokens) as [entries'|e] eqn:Hrest;
             [|discriminate Hpass];
             now rewrite (IH _ _ Hrest)).
      apply (IH _ _ Hpass).
Qed.

(** X11.  The grapheme splitter matters to the errors only: a snapshot
    [tryFrom] returns with one splitter is returned with any other. *)
Theorem tryFrom_ok_any_splitter (split1 split2 : string -> list string)
    (state : State.t) (snapshot : LexerSnapshot.t) :
  tryFrom split1 state = Some (Ok snapshot) ->
  tryFrom split2 state = Some (Ok snapshot).
Proof.
  rewrite !tryFrom_stitch. intros Htry.
  destruct (stitch split1 (flattenLineTokens state) None
              (FlattenedLines.flatLineTokens (flattenLineTokens state)))
    as [entries|e] eqn:Hpass; [|discriminate Htry].
  now rewrite (stitch_any_splitter split1 split2 _ _ _ _ Hpass).
Qed.

(** * Further properties at example states *)

Lemma tryFrom_ok_iff_paired_witness :
  exists snapshot, tryFrom splitCodeUnits identifierThenComment = Some (Ok snapshot).
Proof.
  apply (proj2 (tryFrom_ok_iff_paired splitCodeUnits identifierThenComment)).
  reflexivity.
Defined.

Lemma factory_throws_witness :
  exists e,
    factory splitCodeUnits 4 commentThenIdentifier = Some (Throw e)
    /\ exists before tokenStart family rest,
         FlattenedLines.flatLineTokens (flattenLineTokens commentThenIdentifier)
         = before ++ tokenStart :: rest
         /\ fragmentsPaired None (map FlatLineToken.kind before) = true
         /\ FlatLineToken.kind tokenStart = startKind family
         /\ ((Forall (fun token => FlatLineToken.kind token = contentKind family) rest
              /\ e = ThrownInnerLexerError
                       (UnterminatedMultilineTokenError
                          (graphemePositionStartFrom splitCodeUnits
                             (FlattenedLines.text (flattenLineTokens commentThenIdentifier))
                             (FlattenedLines.lineTerminators
                                (flattenLineTokens commentThenIdentifier))
                             (OfFlatLineToken tokenStart))
                          family))
             \/ (exists contents found rest',
                    rest = contents ++ found :: rest'
                    /\ Forall (fun token => FlatLineToken.kind token = contentKind family)
                         contents
                    /\ FlatLineToken.kind found <> contentKind family
                    /\ FlatLineToken.kind found <> endKind family
                    /\ e = ThrownInnerCommonError (InvariantError invariantMessage found))).
Proof.
  eexists. split; [reflexivity|].
  apply (factory_throws splitCodeUnits 4 commentThenIdentifier _ eq_refl).
Defined.

Lemma snapshot_entry_counts_witness :
  exists snapshot,
    tryFrom splitCodeUnits identifierThenComment = Some (Ok snapshot)
    /\ List.length (LexerSnapshot.comments snapshot) = 1
    /\ List.length (LexerSnapshot.tokens snapshot) = 1.
Proof.
  eexists. split; [reflexivity|].
  destruct (snapshot_entry_counts splitCodeUnits identifierThenComment _ eq_refl)
    as (Hcomments & _ & Htokens).
  split; [exact Hcomments | exact (Htokens eq_refl)].
Defined.

Lemma tryFrom_without_start_fragment_witness :
  abridgedTokens (tryFrom splitCodeUnits commentsOnTheirLines)
  = [ ("NumericLiteral"%string, "1"%string); ("Identifier"%string, "abc"%string) ]
  /\ abridgedComments (tryFrom splitCodeUnits commentsOnTheirLines)
     = [ (CommentKind.Line, "// x"%string); (CommentKind.Multiline, "/*c*/"%string) ].
Proof.
  rewrite (tryFrom_without_start_fragment splitCodeUnits commentsOnTheirLines eq_refl).
  split; reflexivity.
Defined.

Lemma snapshot_comment_newline_witness :
  exists snapshot,
    tryFrom splitCodeUnits identifierThenComment = Some (Ok snapshot)
    /\ Forall newlineFlagged (LexerSnapshot.comments snapshot).
Proof.
  eexists. split; [reflexivity|].
  apply (snapshot_comment_newline splitCodeUnits identifierThenComment _ eq_refl).
Defined.

Lemma snapshot_positions_within_text_witness :
  exists snapshot,
    tryFrom splitCodeUnits identifierThenComment = Some (Ok snapshot)
    /\ String.length (LexerSnapshot.text snapshot) = 13
    /\ Forall (fun token =>
                 TokenPosition.codeUnit (Token.positionStart token)
                 <= String.length (LexerSnapshot.text snapshot)
                 /\ TokenPosition.codeUnit (Token.positionEnd token)
                    <= String.length (LexerSnapshot.text snapshot))
         (LexerSnapshot.tokens snapshot)
    /\ Forall (fun comment =>
                 TokenPosition.codeUnit (Comment.positionStart comment)
                 <= String.length (LexerSnapshot.text snapshot)
                 /\ TokenPosition.codeUnit (Comment.positionEnd comment)
                    <= String.length (LexerSnapshot.text snapshot))
         (LexerSnapshot.comments snapshot).
Proof.
  eexists. split; [reflexivity|]. split; [reflexivity|].
  apply (snapshot_positions_within_text splitCodeUnits identifierThenComment _);
    [|reflexivity].
  apply Forall_cons;
    [apply Forall_cons; [split; simpl; lia|];
     apply Forall_cons; [split; simpl; lia | apply Forall_nil]|].
  apply Forall_cons; [apply Forall_cons; [split; simpl; lia | apply Forall_nil]|].
  apply Forall_cons; [apply Forall_cons; [split; simpl; lia | apply Forall_nil]|].
  apply Forall_nil.
Defined.

Lemma flattenLineTokens_lineTerminators_witness :
  nth_error (FlattenedLines.lineTerminators (flattenLineTokens terminatedLastLine)) 0
  = Some (LineTerminator.make 1 LF).
Proof.
  exact (proj2 (proj2 (flattenLineTokens_lineTerminators terminatedLastLine))
           (TLine.make LineKind.Untouched "a" LF [] LexMode.Default LexMode.Default)
           eq_refl).
Defined.

Lemma flattenLineTokens_append_witness :
  exists suffix,
    FlattenedLines.text (flattenLineTokens twoLineString)
    = String.append (String.append DQ "a") suffix
    /\ suffix = String.append LF (String.append "b" DQ).
Proof.
  destruct (flattenLineTokens_append
              [ TLine.make LineKind.Untouched (String.append DQ "a") LF
                  [ LineToken.make LineTokenKind.StringLiteralStart (String.append DQ "a") 0 2 ]
                  LexMode.Default LexMode.Text ]
              [ TLine.make LineKind.Untouched (String.append "b" DQ) EmptyString
                  [ LineToken.make LineTokenKind.StringLiteralEnd (String.append "b" DQ) 0 2 ]
                  LexMode.Text LexMode.Default ])
    as (_ & _ & suffix & Htext & Hsuffix).
  exists suffix. split; [exact Htext|].
  apply (Hsuffix _ eq_refl). discriminate.
Defined.

Lemma collectWhileContent_longest_stretch_witness :
  Forall (fun token => FlatLineToken.kind token = LineTokenKind.MultilineCommentContent)
    (FlatLineCollection.collectedTokens
       (collectWhileContent
          (FlattenedLines.flatLineTokens (flattenLineTokens identifierThenComment))
          (FlatLineToken.make LineTokenKind.MultilineCommentStart "/*X"
             (TokenPosition.make 4 4 0) (TokenPosition.make 7 7 0) 1)
          LineTokenKind.MultilineCommentContent))
  /\ FlatLineCollection.maybeTokenEnd
       (collectWhileContent
          (FlattenedLines.flatLineTokens (flattenLineTokens identifierThenComment))
          (FlatLineToken.make LineTokenKind.MultilineCommentStart "/*X"
             (TokenPosition.make 4 4 0) (TokenPosition.make 7 7 0) 1)
          LineTokenKind.MultilineCommentContent)
     = nth_error (FlattenedLines.flatLineTokens (flattenLineTokens identifierThenComment)) 3.
Proof.
  destruct (collectWhileContent_longest_stretch
              (FlattenedLines.flatLineTokens (flattenLineTokens identifierThenComment))
              (FlatLineToken.make LineTokenKind.MultilineCommentStart "/*X"
                 (TokenPosition.make 4 4 0) (TokenPosition.make 7 7 0) 1)
              LineTokenKind.MultilineCommentContent)
    as (_ & _ & Hcontents & Hend & _).
  split; [exact Hcontents | exact Hend].
Defined.


Lemma tryFrom_ok_any_splitter_witness :
  exists snapshot, tryFrom splitNothing identifierThenComment = Some (Ok snapshot).
Proof.
  eexists.
  apply (tryFrom_ok_any_splitter splitCodeUnits splitNothing identifierThenComment _ eq_refl).
Defined.

Lemma snapshot_data_is_text_slice_witness :
  exists snapshot,
    tryFrom splitCodeUnits identifierThenComment = Some (Ok snapshot)
    /\ Forall (fun token =>
                 Token.data token
                 = Js.substring (LexerSnapshot.text snapshot)
                     (TokenPosition.codeUnit (Token.positionStart token))
                     (TokenPosition.codeUnit (Token.positionEnd token)))
         (LexerSnapshot.tokens snapshot)
    /\ Forall (fun comment =>
                 Comment.data comment
                 = Js.substring (LexerSnapshot.text snapshot)
                     (TokenPosition.codeUnit (Comment.positionStart comment))
                     (TokenPosition.codeUnit (Comment.positionEnd comment)))
         (LexerSnapshot.comments snapshot).
Proof.
  eexists. split; [reflexivity|].
  apply (snapshot_data_is_text_slice splitCodeUnits identifierThenComment _);
    [|reflexivity].
  apply Forall_cons;
    [apply Forall_cons; [split; [split; simpl; lia | reflexivity]|];
     apply Forall_cons; [split; [split; simpl; lia | reflexivity] | apply Forall_nil]|].
  apply Forall_cons;
    [apply Forall_cons; [split; [split; simpl; lia | reflexivity] | apply Forall_nil]|].
  apply Forall_cons;
    [apply Forall_cons; [split; [split; simpl; lia | reflexivity] | apply Forall_nil]|].
  apply Forall_nil.
Defined.

Lemma tryFrom_append_witness :
  exists extended,
    tryFrom splitCodeUnits
      (State.make (State.lines commentsOnTheirLines ++ State.lines identifierThenComment))
    = Some (Ok extended).
Proof.
  apply (proj1 (proj1 (tryFrom_append splitCodeUnits (State.lines commentsOnTheirLines)
                         (State.lines identifierThenComment) _ eq_refl))).
  eexists. reflexivity.
Defined.

(** * Properties of the type checks *)

Section TypeCheckProperties.

Variable PowerQueryType : Type.
Variable FunctionParameter : Type.
Variable ListType : Type.
Variable itemType : ListType -> PowerQueryType.
Variable asPowerQueryType : ListType -> PowerQueryType.
Variable isCompatible : PowerQueryType -> PowerQueryType -> option bool.
Variable isCompatibleWithFunctionParameter : option PowerQueryType -> FunctionParameter -> bool.
Variable range : nat -> nat -> list nat.

Lemma StronglySorted_lt_cons (index : nat) (indices : list nat) :
  StronglySorted lt indices ->
  Forall (fun i => S index <= i) indices ->
  StronglySorted lt (index :: indices).
Proof.
  intros Hsorted Hlow. constructor; [exact Hsorted|].
  apply (Forall_impl _ (P := fun i => S index <= i)); [|exact Hlow].
  intros i Hi. exact Hi.
Qed.

Lemma Forall_le_S (index : nat) (indices : list nat) :
  Forall (fun i => S index <= i) indices -> Forall (fun i => index <= i) indices.
Proof.
  apply Forall_impl. intros i Hi. lia.
Qed.

(** ** [typeCheckGenericNumber] *)

Lemma typeCheckGenericNumber_loop_acc {Value Schema : Type}
    (valueCmpFn : Value -> Schema -> option bool) (valueElements : list Value) :
  forall schemaItemTypes index validIndices mismatches,
    typeCheckGenericNumber_loop valueCmpFn index valueElements schemaItemTypes
      validIndices mismatches
    = (validIndices
       ++ fst (typeCheckGenericNumber_loop valueCmpFn index valueElements schemaItemTypes
                 [] []),
       mismatches
       ++ snd (typeCheckGenericNumber_loop valueCmpFn index valueElements schemaItemTypes
                 [] [])).
Proof.
  induction valueElements as [|element elements IH];
    intros schemaItemTypes index validIndices mismatches.
  - cbn. now rewrite !app_nil_r.
  - destruct schemaItemTypes as [|schemaItemType rest]; [cbn; now rewrite !app_nil_r|].
    cbn [typeCheckGenericNumber_loop].
    destruct (truthy (valueCmpFn element schemaItemType)).
    + rewrite (IH rest (S index) (validIndices ++ [index]) mismatches).
      rewrite (IH rest (S index) ([] ++ [index]) []).
      cbn [fst snd app]. now rewrite <- app_assoc.
    + rewrite (IH rest (S index) validIndices
                 (mismatches ++ [Mismatch.make index schemaItemType element])).
      rewrite (IH rest (S index) []
                 ([] ++ [Mismatch.make index schemaItemType element])).
      cbn [fst snd app]. now rewrite <- app_assoc.
Qed.

Lemma typeCheckGenericNumber_loop_cons {Value Schema : Type}
    (valueCmpFn : Value -> Schema -> option bool) (index : nat)
    (element : Value) (elements : list Value)
    (schemaItemType : Schema) (rest : list Schema) :
  typeCheckGenericNumber_loop valueCmpFn index (element :: elements)
    (schemaItemType :: rest) [] []
  = let looped := typeCheckGenericNumber_loop valueCmpFn (S index) elements rest [] [] in
    if truthy (valueCmpFn element schemaItemType)
    then (index :: fst looped, snd looped)
    else (fst looped, Mismatch.make index schemaItemType element :: snd looped).
Proof.
  cbn [typeCheckGenericNumber_loop].
  destruct (truthy (valueCmpFn element schemaItemType));
    rewrite typeCheckGenericNumber_loop_acc; reflexivity.
Qed.

Lemma typeCheckGenericNumber_loop_valid {Value Schema : Type}
    (valueCmpFn : Value -> Schema -> option bool) (valueElements : list Value) :
  forall schemaItemTypes index i,
    In i (fst (typeCheckGenericNumber_loop valueCmpFn index valueElements schemaItemTypes
                 [] []))
    <-> exists j element schemaItemType,
          i = index + j
          /\ nth_error valueElements j = Some element
          /\ nth_error schemaItemTypes j = Some schemaItemType
          /\ truthy (valueCmpFn element schemaItemType) = true.
Proof.
  induction valueElements as [|element elements IH]; intros schemaItemTypes index i.
  - cbn. split; [intros []|]. intros ([|j] & ? & ? & _ & H & _); discriminate H.
  - destruct schemaItemTypes as [|schemaItemType rest].
    + cbn. split; [intros []|]. intros ([|j] & ? & ? & _ & _ & H & _); discriminate H.
    + rewrite typeCheckGenericNumber_loop_cons. cbv zeta.
      destruct (truthy (valueCmpFn element schemaItemType)) eqn:Hcmp; cbn [fst In];
        rewrite (IH rest (S index) i); split.
      * intros [<-|(j & e & s & -> & He & Hs & Ht)].
        -- exists 0, element, schemaItemType. repeat split; [lia | exact Hcmp].
        -- exists (S j), e, s. repeat split; [lia | exact He | exact Hs | exact Ht].
      * intros ([|j] & e & s & -> & He & Hs & Ht).
        -- left. lia.
        -- right. exists j, e, s. repeat split; [lia | exact He | exact Hs | exact Ht].
      * intros (j & e & s & -> & He & Hs & Ht).
        exists (S j), e, s. repeat split; [lia | exact He | exact Hs | exact Ht].
      * intros ([|j] & e & s & -> & He & Hs & Ht).
        -- cbn in He, Hs. injection He as <-. injection Hs as <-. congruence.
        -- exists j, e, s. repeat split; [lia | exact He | exact Hs | exact Ht].
Qed.

Lemma typeCheckGenericNumber_loop_invalid {Value Schema : Type}
    (valueCmpFn : Value -> Schema -> option bool) (valueElements : list Value) :
  forall schemaItemTypes index mismatch,
    In mismatch
      (snd (typeCheckGenericNumber_loop valueCmpFn index valueElements schemaItemTypes
              [] []))
    <-> exists j,
          Mismatch.key mismatch = index + j
          /\ nth_error valueElements j = Some (Mismatch.actual mismatch)
          /\ nth_error schemaItemTypes j = Some (Mismatch.expected mismatch)
          /\ truthy (valueCmpFn (Mismatch.actual mismatch) (Mismatch.expected mismatch))
             = false.
Proof.
  induction valueElements as [|element elements IH]; intros schemaItemTypes index mismatch.
  - cbn. split; [intros []|]. intros ([|j] & _ & H & _); discriminate H.
  - destruct schemaItemTypes as [|schemaItemType rest].
    + cbn. split; [intros []|]. intros ([|j] & _ & _ & H & _); discriminate H.
    + rewrite typeCheckGenericNumber_loop_cons. cbv zeta.
      destruct (truthy (valueCmpFn element schemaItemType)) eqn:Hcmp; cbn [snd In];
        rewrite (IH rest (S index) mismatch); split.
      * intros (j & Hkey & He & Hs & Ht).
        exists (S j). repeat split; [lia | exact He | exact Hs | exact Ht].
      * intros ([|j] & Hkey & He & Hs & Ht).
        -- cbn in He, Hs. injection He as He. injection Hs as Hs.
           rewrite <- He, <- Hs in Ht. congruence.
        -- exists j. repeat split; [lia | exact He | exact Hs | exact Ht].
      * intros [<-|(j & Hkey & He & Hs & Ht)].
        -- exists 0. cbn. repeat split; [lia | exact Hcmp].
        -- exists (S j). repeat split; [lia | exact He | exact Hs | exact Ht].
      * intros ([|j] & Hkey & He & Hs & Ht).
        -- left. cbn in He, Hs. injection He as He. injection Hs as Hs.
           destruct mismatch as [key expected actual]. cbn in *.
           subst. f_equal. lia.
        -- right. exists j. repeat split; [lia | exact He | exact Hs | exact Ht].
Qed.

Lemma typeCheckGenericNumber_loop_sorted {Value Schema : Type}
    (valueCmpFn : Value -> Schema -> option bool) (valueElements : list Value) :
  forall schemaItemTypes index,
    let looped :=
      typeCheckGenericNumber_loop valueCmpFn index valueElements schemaItemTypes [] [] in
    (StronglySorted lt (fst looped) /\ Forall (fun i => index <= i) (fst looped))
    /\ (StronglySorted lt (map Mismatch.key (snd looped))
        /\ Forall (fun i => index <= i) (map Mismatch.key (snd looped))).
Proof.
  induction valueElements as [|element elements IH]; intros schemaItemTypes index.
  - cbn. repeat split; constructor.
  - destruct schemaItemTypes as [|schemaItemType rest]; [cbn; repeat split; constructor|].
    cbv zeta. rewrite typeCheckGenericNumber_loop_cons. cbv zeta.
    destruct (IH rest (S index)) as [[Hvalid Hvalid'] [Hinvalid Hinvalid']].
    destruct (truthy (valueCmpFn element schemaItemType)); cbn [fst snd map].
    + split; split.
      * apply StronglySorted_lt_cons; [exact Hvalid | exact Hvalid'].
      * constructor; [apply Nat.le_refl | apply Forall_le_S; exact Hvalid'].
      * exact Hinvalid.
      * apply Forall_le_S. exact Hinvalid'.
    + split; split.
      * exact Hvalid.
      * apply Forall_le_S. exact Hvalid'.
      * apply StronglySorted_lt_cons; [exact Hinvalid | exact Hinvalid'].
      * constructor; [apply Nat.le_refl | apply Forall_le_S; exact Hinvalid'].
Qed.

(** X12.  [typeCheckGenericNumber] pairs the elements with the item types by
    index: an index is valid exactly when both arrays have it and [valueCmpFn]
    answers [true] for the pair, and a mismatch is reported exactly for the
    other indexes both arrays have, with the item type as [expected] and the
    element as [actual] (an [undefined] answer counts as a mismatch).  Both
    lists are in strictly increasing order of index, and never are indexes
    reported as extraneous and as missing in the same answer. *)
Theorem typeCheckGenericNumber_pairs {Value Schema : Type}
    (valueElements : list Value) (schemaItemTypes : list Schema)
    (valueCmpFn : Value -> Schema -> option bool) :
  let checked := typeCheckGenericNumber range valueElements schemaItemTypes valueCmpFn in
  (forall index,
      In index (IChecked.valid checked)
      <-> exists element schemaItemType,
            nth_error valueElements index = Some element
            /\ nth_error schemaItemTypes index = Some schemaItemType
            /\ valueCmpFn element schemaItemType = Some true)
  /\ (forall mismatch,
         In mismatch (IChecked.invalid checked)
         <-> nth_error valueElements (Mismatch.key mismatch)
             = Some (Mismatch.actual mismatch)
             /\ nth_error schemaItemTypes (Mismatch.key mismatch)
                = Some (Mismatch.expected mismatch)
             /\ valueCmpFn (Mismatch.actual mismatch) (Mismatch.expected mismatch)
                <> Some true)
  /\ StronglySorted lt (IChecked.valid checked)
  /\ StronglySorted lt (map Mismatch.key (IChecked.invalid checked))
  /\ (IChecked.extraneous checked = [] \/ IChecked.missing checked = []).
Proof.
  intros checked. subst checked. unfold typeCheckGenericNumber.
  cbn [IChecked.valid IChecked.invalid IChecked.extraneous IChecked.missing].
  assert (Htruthy : forall answer, truthy answer = true <-> answer = Some true).
  { intros [[|]|]; cbn; split; congruence. }
  assert (Hfalsy : forall answer, truthy answer = false <-> answer <> Some true).
  { intros [[|]|]; cbn; split; congruence. }
  split; [|split; [|split; [|split]]].
  - intros index. rewrite typeCheckGenericNumber_loop_valid. split.
    + intros (j & element & schemaItemType & -> & He & Hs & Ht).
      exists element, schemaItemType. repeat split; [exact He | exact Hs | now apply Htruthy].
    + intros (element & schemaItemType & He & Hs & Ht).
      exists index, element, schemaItemType.
      repeat split; [exact He | exact Hs | now apply Htruthy].
  - intros mismatch. rewrite typeCheckGenericNumber_loop_invalid. split.
    + intros (j & Hkey & He & Hs & Ht). cbn in Hkey. subst j.
      repeat split; [exact He | exact Hs | now apply Hfalsy].
    + intros (He & Hs & Ht). exists (Mismatch.key mismatch).
      repeat split; [exact He | exact Hs | now apply Hfalsy].
  - apply (typeCheckGenericNumber_loop_sorted valueCmpFn valueElements schemaItemTypes 0).
  - apply (typeCheckGenericNumber_loop_sorted valueCmpFn valueElements schemaItemTypes 0).
  - destruct (List.length schemaItemTypes <? List.length valueElements);
      [right | left]; reflexivity.
Qed.

Lemma typeCheckGenericNumber_loop_covers {Value Schema : Type}
    (valueCmpFn : Value -> Schema -> option bool)
    (valueElements : list Value) (schemaItemTypes : list Schema) (index : nat) :
  index < List.length valueElements ->
  index < List.length schemaItemTypes ->
  let looped :=
    typeCheckGenericNumber_loop valueCmpFn 0 valueElements schemaItemTypes [] [] in
  In index (fst looped) \/ In index (map Mismatch.key (snd looped)).
Proof.
  intros Hvalue Hschema looped. subst looped.
  destruct (nth_error valueElements index) as [element|] eqn:He;
    [|apply nth_error_None in He; lia].
  destruct (nth_error schemaItemTypes index) as [schemaItemType|] eqn:Hs;
    [|apply nth_error_None in Hs; lia].
  destruct (truthy (valueCmpFn element schemaItemType)) eqn:Ht.
  - left. apply typeCheckGenericNumber_loop_valid.
    exists index, element, schemaItemType. repeat split; [exact He | exact Hs | exact Ht].
  - right. apply in_map_iff. exists (Mismatch.make index schemaItemType element).
    split; [reflexivity|]. apply typeCheckGenericNumber_loop_invalid.
    exists index. repeat split; [exact He | exact Hs | exact Ht].
Qed.

(** X13.  Provided [ArrayUtils.range(size, startAt)] lists the [size] numbers
    from [startAt] on, [typeCheckGenericNumber] accounts for every index: the
    extraneous indexes are those of the elements beyond the last item type,
    the missing indexes those of the item types beyond the last element, every
    index of an element is valid, mismatched or extraneous, and every index of
    an item type is valid, mismatched or missing. *)
Theorem typeCheckGenericNumber_accounts {Value Schema : Type}
    (valueElements : list Value) (schemaItemTypes : list Schema)
    (valueCmpFn : Value -> Schema -> option bool) :
  (forall size startAt, range size startAt = seq startAt size) ->
  let checked := typeCheckGenericNumber range valueElements schemaItemTypes valueCmpFn in
  let numElements := List.length valueElements in
  let numItemTypes := List.length schemaItemTypes in
  IChecked.extraneous checked = seq numItemTypes (numElements - numItemTypes)
  /\ IChecked.missing checked = seq numElements (numItemTypes - numElements)
  /\ (forall index,
         index < numElements ->
         In index (IChecked.valid checked)
         \/ In index (map Mismatch.key (IChecked.invalid checked))
         \/ In index (IChecked.extraneous checked))
  /\ (forall index,
         index < numItemTypes ->
         In index (IChecked.valid checked)
         \/ In index (map Mismatch.key (IChecked.invalid checked))
         \/ In index (IChecked.missing checked)).
Proof.
  intros Hrange checked numElements numItemTypes. subst checked numElements numItemTypes.
  unfold typeCheckGenericNumber.
  cbn [IChecked.valid IChecked.invalid IChecked.extraneous IChecked.missing].
  assert (Hextraneous :
            (if List.length schemaItemTypes <? List.length valueElements
             then range (List.length valueElements - List.length schemaItemTypes)
                    (List.length schemaItemTypes)
             else [])
            = seq (List.length schemaItemTypes)
                (List.length valueElements - List.length schemaItemTypes)).
  { destruct (List.length schemaItemTypes <? List.length valueElements) eqn:Hlt.
    - apply Hrange.
    - apply Nat.ltb_ge in Hlt.
      replace (List.length valueElements - List.length schemaItemTypes) with 0 by lia.
      reflexivity. }
  assert (Hmissing :
            (if List.length schemaItemTypes <? List.length valueElements
             then []
             else range (List.length schemaItemTypes - List.length valueElements)
                    (List.length valueElements))
            = seq (List.length valueElements)
                (List.length schemaItemTypes - List.length valueElements)).
  { destruct (List.length schemaItemTypes <? List.length valueElements) eqn:Hlt.
    - apply Nat.ltb_lt in Hlt.
      replace (List.length schemaItemTypes - List.length valueElements) with 0 by lia.
      reflexivity.
    - apply Hrange. }
  rewrite Hextraneous, Hmissing.
  split; [reflexivity|]. split; [reflexivity|]. split.
  - intros index Hindex.
    destruct (Nat.lt_ge_cases index (List.length schemaItemTypes)) as [Hschema|Hschema].
    + destruct (typeCheckGenericNumber_loop_covers valueCmpFn valueElements
                  schemaItemTypes index Hindex Hschema) as [H|H]; [now left | now right; left].
    + right; right. apply in_seq. lia.
  - intros index Hindex.
    destruct (Nat.lt_ge_cases index (List.length valueElements)) as [Hvalue|Hvalue].
    + destruct (typeCheckGenericNumber_loop_covers valueCmpFn valueElements
                  schemaItemTypes index Hvalue Hindex) as [H|H]; [now left | now right; left].
    + right; right. apply in_seq. lia.
Qed.

(** ** [typeCheckInvocation] *)

Lemma hd_error_nth_error {A : Type} (l : list A) : hd_error l = nth_error l 0.
Proof. now destruct l. Qed.

Lemma nth_error_tl {A : Type} (l : list A) (j : nat) :
  nth_error (tl l) j = nth_error l (S j).
Proof. destruct l; [now destruct j | reflexivity]. Qed.

Local Abbreviation invocation_loop :=
  (typeCheckInvocation_loop PowerQueryType FunctionParameter
     isCompatibleWithFunctionParameter).

Lemma typeCheckInvocation_loop_acc (parameters : list FunctionParameter) :
  forall index args validArgs invalidArgs missingArgs,
    invocation_loop index args parameters validArgs invalidArgs missingArgs
    = (validArgs ++ fst (fst (invocation_loop index args parameters [] [] [])),
       invalidArgs ++ snd (fst (invocation_loop index args parameters [] [] [])),
       missingArgs ++ snd (invocation_loop index args parameters [] [] [])).
Proof.
  induction parameters as [|parameter rest IH];
    intros index args validArgs invalidArgs missingArgs.
  - cbn. now rewrite !app_nil_r.
  - cbn [typeCheckInvocation_loop].
    destruct (isCompatibleWithFunctionParameter (hd_error args) parameter).
    + rewrite (IH (S index) (tl args) (validArgs ++ [index]) invalidArgs missingArgs).
      rewrite (IH (S index) (tl args) ([] ++ [index]) [] []).
      cbn [fst snd app]. now rewrite <- app_assoc.
    + destruct (hd_error args) as [arg|].
      * rewrite (IH (S index) (tl args) validArgs
                   (invalidArgs ++ [Mismatch.make index parameter (Some arg)]) missingArgs).
        rewrite (IH (S index) (tl args) []
                   ([] ++ [Mismatch.make index parameter (Some arg)]) []).
        cbn [fst snd app]. now rewrite <- app_assoc.
      * rewrite (IH (S index) (tl args) validArgs invalidArgs (missingArgs ++ [index])).
        rewrite (IH (S index) (tl args) [] [] ([] ++ [index])).
        cbn [fst snd app]. now rewrite <- app_assoc.
Qed.

Lemma typeCheckInvocation_loop_cons (index : nat) (args : list PowerQueryType)
    (parameter : FunctionParameter) (rest : list FunctionParameter) :
  invocation_loop index args (parameter :: rest) [] [] []
  = let looped := invocation_loop (S index) (tl args) rest [] [] [] in
    if isCompatibleWithFunctionParameter (nth_error args 0) parameter
    then (index :: fst (fst looped), snd (fst looped), snd looped)
    else match nth_error args 0 with
         | Some arg =>
             (fst (fst looped),
              Mismatch.make index parameter (Some arg) :: snd (fst looped),
              snd looped)
         | None => (fst (fst looped), snd (fst looped), index :: snd looped)
         end.
Proof.
  cbn [typeCheckInvocation_loop]. rewrite hd_error_nth_error.
  destruct (isCompatibleWithFunctionParameter (nth_error args 0) parameter);
    [|destruct (nth_error args 0)];
    rewrite typeCheckInvocation_loop_acc; reflexivity.
Qed.

Lemma typeCheckInvocation_loop_valid (parameters : list FunctionParameter) :
  forall index args i,
    In i (fst (fst (invocation_loop index args parameters [] [] [])))
    <-> exists j parameter,
          i = index + j
          /\ nth_error parameters j = Some parameter
          /\ isCompatibleWithFunctionParameter (nth_error args j) parameter = true.
Proof.
  induction parameters as [|parameter rest IH]; intros index args i.
  - cbn. split; [intros []|]. intros ([|j] & ? & _ & H & _); discriminate H.
  - rewrite typeCheckInvocation_loop_cons. cbv zeta.
    destruct (isCompatibleWithFunctionParameter (nth_error args 0) parameter) eqn:Hcmp;
      [|destruct (nth_error args 0) as [arg|] eqn:Harg];
      cbn [fst snd In]; rewrite (IH (S index) (tl args) i); split.
    + intros [<-|(j & p & -> & Hp & Ht)].
      * exists 0, parameter. repeat split; [lia | exact Hcmp].
      * exists (S j), p. rewrite ?nth_error_tl in *. repeat split; [lia | exact Hp | exact Ht].
    + intros ([|j] & p & -> & Hp & Ht).
      * left. lia.
      * right. exists j, p. rewrite nth_error_tl. repeat split; [lia | exact Hp | exact Ht].
    + intros (j & p & -> & Hp & Ht).
      exists (S j), p. rewrite ?nth_error_tl in *. repeat split; [lia | exact Hp | exact Ht].
    + intros ([|j] & p & -> & Hp & Ht).
      * cbn in Hp. injection Hp as <-. rewrite Harg in Ht. congruence.
      * exists j, p. rewrite nth_error_tl. repeat split; [lia | exact Hp | exact Ht].
    + intros (j & p & -> & Hp & Ht).
      exists (S j), p. rewrite ?nth_error_tl in *. repeat split; [lia | exact Hp | exact Ht].
    + intros ([|j] & p & -> & Hp & Ht).
      * cbn in Hp. injection Hp as <-. rewrite Harg in Ht. congruence.
      * exists j, p. rewrite nth_error_tl. repeat split; [lia | exact Hp | exact Ht].
Qed.

Lemma typeCheckInvocation_loop_invalid (parameters : list FunctionParameter) :
  forall index args mismatch,
    In mismatch (snd (fst (invocation_loop index args parameters [] [] [])))
    <-> exists j arg,
          Mismatch.key mismatch = index + j
          /\ nth_error parameters j = Some (Mismatch.expected mismatch)
          /\ nth_error args j = Some arg
          /\ Mismatch.actual mismatch = Some arg
          /\ isCompatibleWithFunctionParameter (Some arg) (Mismatch.expected mismatch)
             = false.
Proof.
  induction parameters as [|parameter rest IH]; intros index args mismatch.
  - cbn. split; [intros []|]. intros ([|j] & ? & _ & H & _); discriminate H.
  - rewrite typeCheckInvocation_loop_cons. cbv zeta.
    destruct (isCompatibleWithFunctionParameter (nth_error args 0) parameter) eqn:Hcmp;
      [|destruct (nth_error args 0) as [arg0|] eqn:Harg];
      cbn [fst snd In]; rewrite (IH (S index) (tl args) mismatch); split.
    + intros (j & arg & Hkey & Hp & Ha & Hactual & Ht).
      exists (S j), arg. rewrite ?nth_error_tl in *.
      repeat split; [lia | exact Hp | exact Ha | exact Hactual | exact Ht].
    + intros ([|j] & arg & Hkey & Hp & Ha & Hactual & Ht).
      * cbn in Hp. injection Hp as Hp. rewrite <- Hp, <- Ha in Ht. congruence.
      * exists j, arg. rewrite nth_error_tl.
        repeat split; [lia | exact Hp | exact Ha | exact Hactual | exact Ht].
    + intros [<-|(j & arg & Hkey & Hp & Ha & Hactual & Ht)].
      * exists 0, arg0. cbn [Mismatch.key Mismatch.expected Mismatch.actual nth_error].
        repeat split; [lia | exact Harg | exact Hcmp].
      * exists (S j), arg. rewrite ?nth_error_tl in *.
        repeat split; [lia | exact Hp | exact Ha | exact Hactual | exact Ht].
    + intros ([|j] & arg & Hkey & Hp & Ha & Hactual & Ht).
      * left. cbn in Hp. injection Hp as Hp.
        destruct mismatch as [key expected actual]. cbn in *. subst.
        assert (arg = arg0) as -> by congruence. f_equal. lia.
      * right. exists j, arg. rewrite nth_error_tl.
        repeat split; [lia | exact Hp | exact Ha | exact Hactual | exact Ht].
    + intros (j & arg & Hkey & Hp & Ha & Hactual & Ht).
      exists (S j), arg. rewrite ?nth_error_tl in *.
      repeat split; [lia | exact Hp | exact Ha | exact Hactual | exact Ht].
    + intros ([|j] & arg & Hkey & Hp & Ha & Hactual & Ht).
      * congruence.
      * exists j, arg. rewrite nth_error_tl.
        repeat split; [lia | exact Hp | exact Ha | exact Hactual | exact Ht].
Qed.

Lemma typeCheckInvocation_loop_missing (parameters : list FunctionParameter) :
  forall index args i,
    In i (snd (invocation_loop index args parameters [] [] []))
    <-> exists j parameter,
          i = index + j
          /\ nth_error parameters j = Some parameter
          /\ nth_error args j = None
          /\ isCompatibleWithFunctionParameter None parameter = false.
Proof.
  induction parameters as [|parameter rest IH]; intros index args i.
  - cbn. split; [intros []|]. intros ([|j] & ? & _ & H & _); discriminate H.
  - rewrite typeCheckInvocation_loop_cons. cbv zeta.
    destruct (isCompatibleWithFunctionParameter (nth_error args 0) parameter) eqn:Hcmp;
      [|destruct (nth_error args 0) as [arg0|] eqn:Harg];
      cbn [fst snd In]; rewrite (IH (S index) (tl args) i); split.
    + intros (j & p & -> & Hp & Ha & Ht).
      exists (S j), p. rewrite ?nth_error_tl in *.
      repeat split; [lia | exact Hp | exact Ha | exact Ht].
    + intros ([|j] & p & -> & Hp & Ha & Ht).
      * cbn in Hp. injection Hp as <-. rewrite Ha in Hcmp. congruence.
      * exists j, p. rewrite nth_error_tl.
        repeat split; [lia | exact Hp | exact Ha | exact Ht].
    + intros (j & p & -> & Hp & Ha & Ht).
      exists (S j), p. rewrite ?nth_error_tl in *.
      repeat split; [lia | exact Hp | exact Ha | exact Ht].
    + intros ([|j] & p & -> & Hp & Ha & Ht).
      * congruence.
      * exists j, p. rewrite nth_error_tl.
        repeat split; [lia | exact Hp | exact Ha | exact Ht].
    + intros [<-|(j & p & -> & Hp & Ha & Ht)].
      * exists 0, parameter. repeat split; [lia | exact Harg | exact Hcmp].
      * exists (S j), p. rewrite ?nth_error_tl in *.
        repeat split; [lia | exact Hp | exact Ha | exact Ht].
    + intros ([|j] & p & -> & Hp & Ha & Ht).
      * left. lia.
      * right. exists j, p. rewrite nth_error_tl.
        repeat split; [lia | exact Hp | exact Ha | exact Ht].
Qed.

Lemma typeCheckInvocation_loop_length (parameters : list FunctionParameter) :
  forall index args,
    let looped := invocation_loop index args parameters [] [] [] in
    List.length (fst (fst looped)) + List.length (snd (fst looped)) + List.length (snd looped)
    = List.length parameters.
Proof.
  induction parameters as [|parameter rest IH]; intros index args; [reflexivity|].
  cbv zeta. rewrite typeCheckInvocation_loop_cons. cbv zeta.
  pose proof (IH (S index) (tl args)) as Hrest. cbv zeta in Hrest.
  destruct (isCompatibleWithFunctionParameter (nth_error args 0) parameter);
    [|destruct (nth_error args 0)]; cbn [fst snd List.length]; lia.
Qed.

(** X14.  [typeCheckInvocation] sorts every parameter of the function into
    exactly one list by its index: valid when
    [isCompatibleWithFunctionParameter] accepts the argument at that index
    ([undefined] when there is none), invalid, with the parameter as
    [expected] and the argument as [actual], when there is an argument and it
    is not accepted, missing when there is no argument and [undefined] is not
    accepted.  The three lists have as many entries as there are parameters,
    and nothing is extraneous unless there are more arguments than
    parameters. *)
Theorem typeCheckInvocation_parameters (args : list PowerQueryType)
    (definedFunction : FunctionType.t PowerQueryType FunctionParameter) :
  let checked :=
    typeCheckInvocation PowerQueryType FunctionParameter isCompatibleWithFunctionParameter
      range args definedFunction in
  let parameters := FunctionType.parameters definedFunction in
  (forall index,
      In index (IChecked.valid checked)
      <-> exists parameter,
            nth_error parameters index = Some parameter
            /\ isCompatibleWithFunctionParameter (nth_error args index) parameter = true)
  /\ (forall mismatch,
         In mismatch (IChecked.invalid checked)
         <-> exists arg,
               nth_error parameters (Mismatch.key mismatch)
               = Some (Mismatch.expected mismatch)
               /\ nth_error args (Mismatch.key mismatch) = Some arg
               /\ Mismatch.actual mismatch = Some arg
               /\ isCompatibleWithFunctionParameter (Some arg) (Mismatch.expected mismatch)
                  = false)
  /\ (forall index,
         In index (IChecked.missing checked)
         <-> exists parameter,
               nth_error parameters index = Some parameter
               /\ nth_error args index = None
               /\ isCompatibleWithFunctionParameter None parameter = false)
  /\ List.length (IChecked.valid checked) + List.length (IChecked.invalid checked)
     + List.length (IChecked.missing checked)
     = List.length parameters
  /\ (List.length args <= List.length parameters -> IChecked.extraneous checked = []).
Proof.
  intros checked parameters. subst checked parameters. unfold typeCheckInvocation.
  cbn [IChecked.valid IChecked.invalid IChecked.extraneous IChecked.missing].
  split; [|split; [|split; [|split]]].
  - intros index. rewrite typeCheckInvocation_loop_valid. split.
    + intros (j & parameter & -> & Hp & Ht). exists parameter. split; [exact Hp | exact Ht].
    + intros (parameter & Hp & Ht). exists index, parameter.
      repeat split; [exact Hp | exact Ht].
  - intros mismatch. rewrite typeCheckInvocation_loop_invalid. split.
    + intros (j & arg & Hkey & Hp & Ha & Hactual & Ht). cbn in Hkey. subst j.
      exists arg. repeat split; [exact Hp | exact Ha | exact Hactual | exact Ht].
    + intros (arg & Hp & Ha & Hactual & Ht). exists (Mismatch.key mismatch), arg.
      repeat split; [exact Hp | exact Ha | exact Hactual | exact Ht].
  - intros index. rewrite typeCheckInvocation_loop_missing. split.
    + intros (j & parameter & -> & Hp & Ha & Ht). exists parameter.
      repeat split; [exact Hp | exact Ha | exact Ht].
    + intros (parameter & Hp & Ha & Ht). exists index, parameter.
      repeat split; [exact Hp | exact Ha | exact Ht].
  - apply (typeCheckInvocation_loop_length (FunctionType.parameters definedFunction) 0 args).
  - intros Hargs.
    destruct (List.length (FunctionType.parameters definedFunction) <? List.length args)
      eqn:Hlt; [|reflexivity].
    apply Nat.ltb_lt in Hlt. lia.
Qed.

(** ** [typeCheckListWithListType] *)

Local Abbreviation listType_loop :=
  (typeCheckListWithListType_loop PowerQueryType ListType itemType asPowerQueryType
     isCompatible).

Lemma typeCheckListWithListType_loop_acc (schemaType : ListType)
    (valueElements : list PowerQueryType) :
  forall index valid invalid,
    listType_loop schemaType index valueElements valid invalid
    = (valid ++ fst (listType_loop schemaType index valueElements [] []),
       invalid ++ snd (listType_loop schemaType index valueElements [] [])).
Proof.
  induction valueElements as [|element rest IH]; intros index valid invalid.
  - cbn. now rewrite !app_nil_r.
  - cbn [typeCheckListWithListType_loop].
    destruct (truthy (isCompatible element (itemType schemaType))).
    + rewrite (IH (S index) (valid ++ [index]) invalid).
      rewrite (IH (S index) ([] ++ [index]) []).
      cbn [fst snd app]. now rewrite <- app_assoc.
    + rewrite (IH (S index) valid
                 (invalid ++ [Mismatch.make index (asPowerQueryType schemaType) element])).
      rewrite (IH (S index) []
                 ([] ++ [Mismatch.make index (asPowerQueryType schemaType) element])).
      cbn [fst snd app]. now rewrite <- app_assoc.
Qed.

Lemma typeCheckListWithListType_loop_cons (schemaType : ListType) (index : nat)
    (element : PowerQueryType) (rest : list PowerQueryType) :
  listType_loop schemaType index (element :: rest) [] []
  = let looped := listType_loop schemaType (S index) rest [] [] in
    if truthy (isCompatible element (itemType schemaType))
    then (index :: fst looped, snd looped)
    else (fst looped,
          Mismatch.make index (asPowerQueryType schemaType) element :: snd looped).
Proof.
  cbn [typeCheckListWithListType_loop].
  destruct (truthy (isCompatible element (itemType schemaType)));
    rewrite typeCheckListWithListType_loop_acc; reflexivity.
Qed.

Lemma typeCheckListWithListType_loop_spec (schemaType : ListType)
    (valueElements : list PowerQueryType) :
  forall index,
    let looped := listType_loop schemaType index valueElements [] [] in
    (forall i,
        In i (fst looped)
        <-> exists j element,
              i = index + j
              /\ nth_error valueElements j = Some element
              /\ truthy (isCompatible element (itemType schemaType)) = true)
    /\ (forall mismatch,
           In mismatch (snd looped)
           <-> exists j,
                 Mismatch.key mismatch = index + j
                 /\ nth_error valueElements j = Some (Mismatch.actual mismatch)
                 /\ Mismatch.expected mismatch = asPowerQueryType schemaType
                 /\ truthy (isCompatible (Mismatch.actual mismatch) (itemType schemaType))
                    = false)
    /\ List.length (fst looped) + List.length (snd looped) = List.length valueElements.
Proof.
  induction valueElements as [|element rest IH]; intros index.
  - cbn. split; [|split; [|reflexivity]].
    + intros i. split; [intros []|]. intros ([|j] & ? & _ & H & _); discriminate H.
    + intros m. split; [intros []|]. intros ([|j] & _ & H & _); discriminate H.
  - cbv zeta. rewrite typeCheckListWithListType_loop_cons. cbv zeta.
    destruct (IH (S index)) as (Hvalid & Hinvalid & Hlength).
    destruct (truthy (isCompatible element (itemType schemaType))) eqn:Hcmp;
      cbn [fst snd In List.length]; (split; [|split; [|lia]]).
    + intros i. rewrite (Hvalid i). split.
      * intros [<-|(j & e & -> & He & Ht)].
        -- exists 0, element. repeat split; [lia | exact Hcmp].
        -- exists (S j), e. repeat split; [lia | exact He | exact Ht].
      * intros ([|j] & e & -> & He & Ht).
        -- left. lia.
        -- right. exists j, e. repeat split; [lia | exact He | exact Ht].
    + intros m. rewrite (Hinvalid m). split.
      * intros (j & Hkey & He & Hexpected & Ht).
        exists (S j). repeat split; [lia | exact He | exact Hexpected | exact Ht].
      * intros ([|j] & Hkey & He & Hexpected & Ht).
        -- cbn in He. injection He as He. rewrite <- He in Ht. congruence.
        -- exists j. repeat split; [lia | exact He | exact Hexpected | exact Ht].
    + intros i. rewrite (Hvalid i). split.
      * intros (j & e & -> & He & Ht).
        exists (S j), e. repeat split; [lia | exact He | exact Ht].
      * intros ([|j] & e & -> & He & Ht).
        -- cbn in He. injection He as <-. congruence.
        -- exists j, e. repeat split; [lia | exact He | exact Ht].
    + intros m. rewrite (Hinvalid m). split.
      * intros [<-|(j & Hkey & He & Hexpected & Ht)].
        -- exists 0. cbn. repeat split; [lia | exact Hcmp].
        -- exists (S j). repeat split; [lia | exact He | exact Hexpected | exact Ht].
      * intros ([|j] & Hkey & He & Hexpected & Ht).
        -- left. cbn in He. injection He as He.
           destruct m as [key expected actual]. cbn in *. subst. f_equal. lia.
        -- right. exists j. repeat split; [lia | exact He | exact Hexpected | exact Ht].
Qed.

(** X15.  [typeCheckListWithListType] never reports an extraneous or a
    missing index and sorts every element into exactly one list: the index of
    an element is valid when [isCompatible] answers [true] for the element and
    the item type of the schema, and otherwise a mismatch is reported whose
    [actual] is the element and whose [expected] is the list type of the
    schema itself, not its item type. *)
Theorem typeCheckListWithListType_elements (valueType : DefinedList.t PowerQueryType)
    (schemaType : ListType) :
  let checked :=
    typeCheckListWithListType PowerQueryType ListType itemType asPowerQueryType
      isCompatible valueType schemaType in
  let elements := DefinedList.elements valueType in
  IChecked.extraneous checked = []
  /\ IChecked.missing checked = []
  /\ (forall index,
         In index (IChecked.valid checked)
         <-> exists element,
               nth_error elements index = Some element
               /\ isCompatible element (itemType schemaType) = Some true)
  /\ (forall mismatch,
         In mismatch (IChecked.invalid checked)
         <-> nth_error elements (Mismatch.key mismatch) = Some (Mismatch.actual mismatch)
             /\ Mismatch.expected mismatch = asPowerQueryType schemaType
             /\ isCompatible (Mismatch.actual mismatch) (itemType schemaType) <> Some true)
  /\ List.length (IChecked.valid checked) + List.length (IChecked.invalid checked)
     = List.length elements.
Proof.
  intros checked elements. subst checked elements. unfold typeCheckListWithListType.
  cbn [IChecked.valid IChecked.invalid IChecked.extraneous IChecked.missing].
  assert (Htruthy : forall answer, truthy answer = true <-> answer = Some true).
  { intros [[|]|]; cbn; split; congruence. }
  assert (Hfalsy : forall answer, truthy answer = false <-> answer <> Some true).
  { intros [[|]|]; cbn; split; congruence. }
  destruct (typeCheckListWithListType_loop_spec schemaType
              (DefinedList.elements valueType) 0) as (Hvalid & Hinvalid & Hlength).
  split; [reflexivity|]. split; [reflexivity|]. split; [|split; [|exact Hlength]].
  - intros index. rewrite (Hvalid index). split.
    + intros (j & element & -> & He & Ht). exists element.
      split; [exact He | now apply Htruthy].
    + intros (element & He & Ht). exists index, element.
      repeat split; [exact He | now apply Htruthy].
  - intros mismatch. rewrite (Hinvalid mismatch). split.
    + intros (j & Hkey & He & Hexpected & Ht). cbn in Hkey. subst j.
      repeat split; [exact He | exact Hexpected | now apply Hfalsy].
    + intros (He & Hexpected & Ht). exists (Mismatch.key mismatch).
      repeat split; [exact He | exact Hexpected | now apply Hfalsy].
Qed.

(** ** [typeCheckRecordOrTable] *)

Lemma JsMap_get_In {V : Type} (map : JsMap.t V) (key : string) (value : V) :
  JsMap.get map key = Some value -> In (key, value) map.
Proof.
  induction map as [|[k v] rest IH]; cbn [JsMap.get]; [discriminate|].
  destruct (String.eqb k key) eqn:Hk.
  - apply String.eqb_eq in Hk. intros H. injection H as <-. subst k. now left.
  - intros H. right. now apply IH.
Qed.

Lemma JsMap_has_keys {V : Type} (map : JsMap.t V) (key : string) :
  JsMap.has map key = true <-> In key (JsMap.keys map).
Proof.
  unfold JsMap.has, JsMap.keys.
  induction map as [|[k v] rest IH]; cbn [JsMap.get List.map In fst].
  - split; [discriminate | intros []].
  - destruct (String.eqb k key) eqn:Hk.
    + apply String.eqb_eq in Hk. split; [now left | reflexivity].
    + apply String.eqb_neq in Hk. rewrite IH. split; [now right|].
      intros [H|H]; [congruence | exact H].
Qed.

Local Abbreviation fields_loop :=
  (typeCheckRecordOrTable_loop PowerQueryType isCompatible).

Lemma typeCheckRecordOrTable_loop_acc (schemaFields : JsMap.t PowerQueryType)
    (schemaIsOpen : bool) (entries : list (string * PowerQueryType)) :
  forall validFields mismatches extraneousFields,
    fields_loop schemaFields schemaIsOpen entries validFields mismatches extraneousFields
    = (validFields ++ fst (fst (fields_loop schemaFields schemaIsOpen entries [] [] [])),
       mismatches ++ snd (fst (fields_loop schemaFields schemaIsOpen entries [] [] [])),
       extraneousFields ++ snd (fields_loop schemaFields schemaIsOpen entries [] [] [])).
Proof.
  induction entries as [|[key type] rest IH];
    intros validFields mismatches extraneousFields.
  - cbn. now rewrite !app_nil_r.
  - cbn [typeCheckRecordOrTable_loop].
    destruct (JsMap.get schemaFields key) as [schemaValueType|];
      [destruct (truthy (isCompatible type schemaValueType)) | destruct schemaIsOpen].
    + rewrite (IH (validFields ++ [key]) mismatches extraneousFields).
      rewrite (IH ([] ++ [key]) [] []).
      cbn [fst snd app]. now rewrite <- app_assoc.
    + rewrite (IH validFields (mismatches ++ [Mismatch.make key schemaValueType type])
                 extraneousFields).
      rewrite (IH [] ([] ++ [Mismatch.make key schemaValueType type]) []).
      cbn [fst snd app]. now rewrite <- app_assoc.
    + rewrite (IH (validFields ++ [key]) mismatches extraneousFields).
      rewrite (IH ([] ++ [key]) [] []).
      cbn [fst snd app]. now rewrite <- app_assoc.
    + rewrite (IH validFields mismatches (extraneousFields ++ [key])).
      rewrite (IH [] [] ([] ++ [key])).
      cbn [fst snd app]. now rewrite <- app_assoc.
Qed.

Lemma typeCheckRecordOrTable_loop_cons (schemaFields : JsMap.t PowerQueryType)
    (schemaIsOpen : bool) (key : string) (type : PowerQueryType)
    (rest : list (string * PowerQueryType)) :
  fields_loop schemaFields schemaIsOpen ((key, type) :: rest) [] [] []
  = let looped := fields_loop schemaFields schemaIsOpen rest [] [] [] in
    match JsMap.get schemaFields key with
    | Some schemaValueType =>
        if truthy (isCompatible type schemaValueType)
        then (key :: fst (fst looped), snd (fst looped), snd looped)
        else (fst (fst looped),
              Mismatch.make key schemaValueType type :: snd (fst looped),
              snd looped)
    | None =>
        if schemaIsOpen
        then (key :: fst (fst looped), snd (fst looped), snd looped)
        else (fst (fst looped), snd (fst looped), key :: snd looped)
    end.
Proof.
  cbn [typeCheckRecordOrTable_loop].
  destruct (JsMap.get schemaFields key) as [schemaValueType|];
    [destruct (truthy (isCompatible type schemaValueType)) | destruct schemaIsOpen];
    rewrite typeCheckRecordOrTable_loop_acc; reflexivity.
Qed.

Lemma typeCheckRecordOrTable_loop_spec (schemaFields : JsMap.t PowerQueryType)
    (schemaIsOpen : bool) (entries : list (string * PowerQueryType)) :
  let looped := fields_loop schemaFields schemaIsOpen entries [] [] [] in
  (forall key,
      In key (fst (fst looped))
      <-> exists type,
            In (key, type) entries
            /\ match JsMap.get schemaFields key with
               | Some schemaValueType => truthy (isCompatible type schemaValueType) = true
               | None => schemaIsOpen = true
               end)
  /\ (forall mismatch,
         In mismatch (snd (fst looped))
         <-> In (Mismatch.key mismatch, Mismatch.actual mismatch) entries
             /\ JsMap.get schemaFields (Mismatch.key mismatch)
                = Some (Mismatch.expected mismatch)
             /\ truthy (isCompatible (Mismatch.actual mismatch) (Mismatch.expected mismatch))
                = false)
  /\ (forall key,
         In key (snd looped)
         <-> schemaIsOpen = false
             /\ In key (List.map fst entries)
             /\ JsMap.get schemaFields key = None)
  /\ List.length (fst (fst looped)) + List.length (snd (fst looped))
     + List.length (snd looped)
     = List.length entries.
Proof.
  induction entries as [|[key type] rest IH].
  - cbn. split; [|split; [|split; [|reflexivity]]].
    + intros k. split; [intros [] | intros (? & [] & _)].
    + intros m. split; [intros [] | intros ([] & _)].
    + intros k. split; [intros [] | intros (_ & [] & _)].
  - cbv zeta. rewrite typeCheckRecordOrTable_loop_cons. cbv zeta.
    cbv zeta in IH. destruct IH as (Hvalid & Hinvalid & Hextraneous & Hlength).
    destruct (JsMap.get schemaFields key) as [schemaValueType|] eqn:Hget;
      [destruct (truthy (isCompatible type schemaValueType)) eqn:Hcmp
      |destruct schemaIsOpen eqn:Hopen];
      cbn [fst snd In List.length List.map]; (split; [|split; [|split; [|lia]]]).
    + intros k. rewrite (Hvalid k). split.
      * intros [<-|(t & Hin & Hk)].
        -- exists type. split; [now left|]. now rewrite Hget.
        -- exists t. split; [now right | exact Hk].
      * intros (t & [Heq|Hin] & Hk).
        -- left. congruence.
        -- right. exists t. split; [exact Hin | exact Hk].
    + intros m. rewrite (Hinvalid m). split.
      * intros (Hin & Hm & Ht). repeat split; [now right | exact Hm | exact Ht].
      * intros ([Heq|Hin] & Hm & Ht).
        -- injection Heq as Hk Ha. rewrite <- Hk, Hget in Hm. injection Hm as Hm.
           rewrite <- Ha, <- Hm in Ht. congruence.
        -- repeat split; [exact Hin | exact Hm | exact Ht].
    + intros k. rewrite (Hextraneous k). split.
      * intros (Ho & Hin & Hk). repeat split; [exact Ho | now right | exact Hk].
      * intros (Ho & [Heq|Hin] & Hk).
        -- congruence.
        -- repeat split; [exact Ho | exact Hin | exact Hk].
    + intros k. rewrite (Hvalid k). split.
      * intros (t & Hin & Hk). exists t. split; [now right | exact Hk].
      * intros (t & [Heq|Hin] & Hk).
        -- injection Heq as Hkey Ht. rewrite <- Hkey, Hget, <- Ht in Hk. congruence.
        -- exists t. split; [exact Hin | exact Hk].
    + intros m. rewrite (Hinvalid m). split.
      * intros [<-|(Hin & Hm & Ht)].
        -- cbn. repeat split; [now left | exact Hget | exact Hcmp].
        -- repeat split; [now right | exact Hm | exact Ht].
      * intros ([Heq|Hin] & Hm & Ht).
        -- left. injection Heq as Hk Ha. destruct m as [k e a]. cbn in *. subst.
           f_equal. congruence.
        -- right. repeat split; [exact Hin | exact Hm | exact Ht].
    + intros k. rewrite (Hextraneous k). split.
      * intros (Ho & Hin & Hk). repeat split; [exact Ho | now right | exact Hk].
      * intros (Ho & [Heq|Hin] & Hk).
        -- congruence.
        -- repeat split; [exact Ho | exact Hin | exact Hk].
    + intros k. rewrite (Hvalid k). split.
      * intros [<-|(t & Hin & Hk)].
        -- exists type. split; [now left|]. now rewrite Hget.
        -- exists t. split; [now right | exact Hk].
      * intros (t & [Heq|Hin] & Hk).
        -- left. congruence.
        -- right. exists t. split; [exact Hin | exact Hk].
    + intros m. rewrite (Hinvalid m). split.
      * intros (Hin & Hm & Ht). repeat split; [now right | exact Hm | exact Ht].
      * intros ([Heq|Hin] & Hm & Ht).
        -- injection Heq as Hk Ha. rewrite <- Hk, Hget in Hm. discriminate Hm.
        -- repeat split; [exact Hin | exact Hm | exact Ht].
    + intros k. rewrite (Hextraneous k). split.
      * intros (Ho & _). discriminate Ho.
      * intros (Ho & _). discriminate Ho.
    + intros k. rewrite (Hvalid k). split.
      * intros (t & Hin & Hk). exists t. split; [now right | exact Hk].
      * intros (t & [Heq|Hin] & Hk).
        -- injection Heq as Hkey Ht. rewrite <- Hkey, Hget in Hk. discriminate Hk.
        -- exists t. split; [exact Hin | exact Hk].
    + intros m. rewrite (Hinvalid m). split.
      * intros (Hin & Hm & Ht). repeat split; [now right | exact Hm | exact Ht].
      * intros ([Heq|Hin] & Hm & Ht).
        -- injection Heq as Hk Ha. rewrite <- Hk, Hget in Hm. discriminate Hm.
        -- repeat split; [exact Hin | exact Hm | exact Ht].
    + intros k. rewrite (Hextraneous k). split.
      * intros [<-|(Ho & Hin & Hk)].
        -- repeat split; [now left | exact Hget].
        -- repeat split; [now right | exact Hk].
      * intros (Ho & [Heq|Hin] & Hk).
        -- left. exact Heq.
        -- right. repeat split; [exact Hin | exact Hk].
Qed.

(** X16.  [typeCheckRecordOrTable] sorts every field of the value into
    exactly one list: a field the schema has is valid when [isCompatible]
    answers [true] for its type and the type the schema gives the key, and a
    mismatch with that type as [expected] otherwise; a field the schema does
    not have is valid when the schema is open and extraneous when it is
    closed.  The missing fields are the keys of the schema, in its order, that
    the value does not have; none of them is among the fields of the value. *)
Theorem typeCheckRecordOrTable_fields (valueFields schemaFields : JsMap.t PowerQueryType)
    (schemaIsOpen : bool) :
  let checked :=
    typeCheckRecordOrTable PowerQueryType isCompatible valueFields schemaFields
      schemaIsOpen in
  (forall key,
      In key (IChecked.valid checked)
      <-> exists type,
            In (key, type) (JsMap.entries valueFields)
            /\ match JsMap.get schemaFields key with
               | Some schemaValueType => isCompatible type schemaValueType = Some true
               | None => schemaIsOpen = true
               end)
  /\ (forall mismatch,
         In mismatch (IChecked.invalid checked)
         <-> In (Mismatch.key mismatch, Mismatch.actual mismatch)
               (JsMap.entries valueFields)
             /\ JsMap.get schemaFields (Mismatch.key mismatch)
                = Some (Mismatch.expected mismatch)
             /\ isCompatible (Mismatch.actual mismatch) (Mismatch.expected mismatch)
                <> Some true)
  /\ (forall key,
         In key (IChecked.extraneous checked)
         <-> schemaIsOpen = false
             /\ In key (JsMap.keys valueFields)
             /\ JsMap.get schemaFields key = None)
  /\ List.length (IChecked.valid checked) + List.length (IChecked.invalid checked)
     + List.length (IChecked.extraneous checked)
     = List.length (JsMap.entries valueFields)
  /\ IChecked.missing checked
     = filter (fun key => negb (JsMap.has valueFields key)) (JsMap.keys schemaFields)
  /\ (forall key,
         In key (IChecked.missing checked)
         <-> In key (JsMap.keys schemaFields) /\ ~ In key (JsMap.keys valueFields)).
Proof.
  intros checked. subst checked. unfold typeCheckRecordOrTable.
  cbn [IChecked.valid IChecked.invalid IChecked.extraneous IChecked.missing].
  assert (Htruthy : forall answer, truthy answer = true <-> answer = Some true).
  { intros [[|]|]; cbn; split; congruence. }
  assert (Hfalsy : forall answer, truthy answer = false <-> answer <> Some true).
  { intros [[|]|]; cbn; split; congruence. }
  destruct (typeCheckRecordOrTable_loop_spec schemaFields schemaIsOpen
              (JsMap.entries valueFields)) as (Hvalid & Hinvalid & Hextraneous & Hlength).
  split; [|split; [|split; [|split; [exact Hlength|split; [reflexivity|]]]]].
  - intros key. rewrite (Hvalid key). split; intros (type & Hin & Hk); exists type;
      (split; [exact Hin|]);
      destruct (JsMap.get schemaFields key); try exact Hk; now apply Htruthy.
  - intros mismatch. rewrite (Hinvalid mismatch).
    split; intros (Hin & Hm & Ht); (repeat split; [exact Hin | exact Hm | now apply Hfalsy]).
  - intros key. apply (Hextraneous key).
  - intros key. rewrite filter_In, negb_true_iff, <- (JsMap_has_keys valueFields key).
    destruct (JsMap.has valueFields key); split; intros [Hin Hhas];
      (split; [exact Hin|]); first [congruence | now elim Hhas].
Qed.

End TypeCheckProperties.

(** * The type checks at example types *)

Lemma typeCheckGenericNumber_pairs_witness :
  In 0 (IChecked.valid (typeCheckGenericNumber rangeFrom [1; 5; 0] [3; 3; 3; 3]
                          compatibleNumbers))
  /\ In (Mismatch.make 2 3 0)
       (IChecked.invalid (typeCheckGenericNumber rangeFrom [1; 5; 0] [3; 3; 3; 3]
                            compatibleNumbers)).
Proof.
  destruct (typeCheckGenericNumber_pairs rangeFrom [1; 5; 0] [3; 3; 3; 3] compatibleNumbers)
    as (Hvalid & Hinvalid & _).
  split.
  - apply (proj2 (Hvalid 0)). exists 1, 3. repeat split.
  - apply (proj2 (Hinvalid (Mismatch.make 2 3 0))). repeat split. discriminate.
Defined.

Lemma typeCheckGenericNumber_accounts_witness :
  IChecked.extraneous (typeCheckGenericNumber rangeFrom [1; 5; 0] [3; 3; 3; 3]
                         compatibleNumbers) = []
  /\ IChecked.missing (typeCheckGenericNumber rangeFrom [1; 5; 0] [3; 3; 3; 3]
                         compatibleNumbers) = [3].
Proof.
  destruct (typeCheckGenericNumber_accounts rangeFrom [1; 5; 0] [3; 3; 3; 3]
              compatibleNumbers (fun size startAt => eq_refl))
    as (Hextraneous & Hmissing & _).
  split; [exact Hextraneous | exact Hmissing].
Defined.

Lemma typeCheckInvocation_parameters_witness :
  In 3 (IChecked.missing
          (typeCheckInvocation nat nat compatibleWithParameter rangeFrom [1; 9]
             (FunctionType.make [3; 3; 0; 4] 1)))
  /\ IChecked.extraneous
       (typeCheckInvocation nat nat compatibleWithParameter rangeFrom [1; 9]
          (FunctionType.make [3; 3; 0; 4] 1))
     = [].
Proof.
  destruct (typeCheckInvocation_parameters nat nat compatibleWithParameter rangeFrom
              [1; 9] (FunctionType.make [3; 3; 0; 4] 1))
    as (_ & _ & Hmissing & _ & Hextraneous).
  split.
  - apply (proj2 (Hmissing 3)). exists 4. repeat split.
  - apply Hextraneous. simpl. lia.
Defined.

Lemma typeCheckListWithListType_elements_witness :
  In (Mismatch.make 1 105 7)
    (IChecked.invalid
       (typeCheckListWithListType nat nat (fun listType => listType)
          (fun listType => 100 + listType) compatibleNumbers
          (DefinedList.make [1; 7]) 5)).
Proof.
  destruct (typeCheckListWithListType_elements nat nat (fun listType => listType)
              (fun listType => 100 + listType) compatibleNumbers
              (DefinedList.make [1; 7]) 5)
    as (_ & _ & _ & Hinvalid & _).
  apply (proj2 (Hinvalid (Mismatch.make 1 105 7))). repeat split. discriminate.
Defined.

Lemma typeCheckRecordOrTable_fields_witness :
  In "z"%string
    (IChecked.extraneous
       (typeCheckRecordOrTable nat compatibleNumbers
          [("a"%string, 1); ("b"%string, 9); ("z"%string, 2)]
          [("a"%string, 3); ("b"%string, 3); ("c"%string, 3)] false))
  /\ IChecked.missing
       (typeCheckRecordOrTable nat compatibleNumbers
          [("a"%string, 1); ("b"%string, 9); ("z"%string, 2)]
          [("a"%string, 3); ("b"%string, 3); ("c"%string, 3)] false)
     = ["c"%string].
Proof.
  destruct (typeCheckRecordOrTable_fields nat compatibleNumbers
              [("a"%string, 1); ("b"%string, 9); ("z"%string, 2)]
              [("a"%string, 3); ("b"%string, 3); ("c"%string, 3)] false)
    as (_ & _ & Hextraneous & _ & Hmissing & _).
  split.
  - apply (proj2 (Hextraneous "z"%string)).
    split; [reflexivity|]. split; [|reflexivity]. right; right; left; reflexivity.
  - exact Hmissing.
Defined.
